(** * DineBot: order-line reconciliation, pricing and checkout

    A shallow embedding of the ordering core of [App.tsx]: the Money
    conversion pair ([parsePrice] / [formatPrice]), the Ledger reducers
    ([handleAddItemToOrder], [handleMultiItemOrder],
    [handleMultiItemRemoval]), the bill computation
    ([calculateSubtotal], [handleCheckoutAndGoToBill]) and the submission
    flow ([handleConfirmOrderAndGoToFinalConfirmation]).

    Conventions of the embedding.
    - A JavaScript string is a [string] holding its UTF-8 bytes.
    - A JavaScript number that carries money is an IEEE-754 binary64 value,
      a [spec_float] of the standard library with [prec = 53] and
      [emax = 1024]; sums and products are [SFadd] and [SFmul].
    - A quantity is a JavaScript number that the upstream contract makes an
      integer; it is a [Z], with [2^1024] for [Infinity]. The sum and the
      difference of two quantities are those of binary64 ([F64.plus],
      [F64.minus]): the sum and the difference of the integers as long as
      the result stays below [2^53] in magnitude, the nearest binary64
      value beyond, and [Infinity] from the end of the range on. [>=] on
      quantities is that of the integers. A quantity is turned into a
      binary64 value where the code multiplies it with a price.
    - React state is an explicit record; every handler is a function from
      the state it observes to the state it leaves, together with the
      effects it performed. *)

From Stdlib Require Import ZArith Lia Bool Ascii String.
From Stdlib Require Import Floats.SpecFloat.
From stdpp Require Import base option list strings.

Local Open Scope Z_scope.

(* ===================================================================== *)
(** ** JavaScript strings *)
(* ===================================================================== *)

Module JsString.

Local Open Scope string_scope.

(** The currency symbol U+20B9, three bytes in UTF-8. *)
Definition rupee : string := "₹".

Fixpoint strip_prefix (p s : string) : option string :=
  match p with
  | EmptyString => Some s
  | String a p' =>
      match s with
      | EmptyString => None
      | String b s' => if Ascii.eqb a b then strip_prefix p' s' else None
      end
  end.

(** [s.replace(p, r)] for a string pattern [p] and a replacement [r] free
    of [$] patterns: the first occurrence of [p] is replaced. *)
Fixpoint replace_first (p r s : string) : string :=
  match strip_prefix p s with
  | Some rest => r ++ rest
  | None =>
      match s with
      | EmptyString => EmptyString
      | String c s' => String c (replace_first p r s')
      end
  end.

(** White space and line terminators of ECMA-262 (WhiteSpace and
    LineTerminator), by their UTF-8 encodings. *)
Definition ws1 (a : ascii) : bool :=
  let n := nat_of_ascii a in
  ((9 <=? n)%nat && (n <=? 13)%nat) || (n =? 32)%nat.

(** U+00A0. *)
Definition ws2 (a b : ascii) : bool :=
  (nat_of_ascii a =? 194)%nat && (nat_of_ascii b =? 160)%nat.

(** U+1680, U+2000..U+200A, U+2028, U+2029, U+202F, U+205F, U+3000,
    U+FEFF. *)
Definition ws3 (a b c : ascii) : bool :=
  let x := nat_of_ascii a in
  let y := nat_of_ascii b in
  let z := nat_of_ascii c in
  ((x =? 225) && (y =? 154) && (z =? 128))%nat
  || ((x =? 226)%nat && (y =? 128)%nat
      && (((128 <=? z)%nat && (z <=? 138)%nat)
          || (z =? 168)%nat || (z =? 169)%nat || (z =? 175)%nat))
  || ((x =? 226) && (y =? 129) && (z =? 159))%nat
  || ((x =? 227) && (y =? 128) && (z =? 128))%nat
  || ((x =? 239) && (y =? 187) && (z =? 191))%nat.

Fixpoint trimStart (s : string) : string :=
  match s with
  | EmptyString => s
  | String a r1 =>
      if ws1 a then trimStart r1
      else
        match r1 with
        | EmptyString => s
        | String b r2 =>
            if ws2 a b then trimStart r2
            else
              match r2 with
              | EmptyString => s
              | String c r3 => if ws3 a b c then trimStart r3 else s
              end
        end
  end.

Fixpoint rev_onto (s acc : string) : string :=
  match s with
  | EmptyString => acc
  | String a s' => rev_onto s' (String a acc)
  end.

Definition rev (s : string) : string := rev_onto s EmptyString.

(** The same scan over the reversed string, the byte patterns reversed. *)
Fixpoint trimStart_rev (s : string) : string :=
  match s with
  | EmptyString => s
  | String a r1 =>
      if ws1 a then trimStart_rev r1
      else
        match r1 with
        | EmptyString => s
        | String b r2 =>
            if ws2 b a then trimStart_rev r2
            else
              match r2 with
              | EmptyString => s
              | String c r3 => if ws3 c b a then trimStart_rev r3 else s
              end
        end
  end.

Definition trimEnd (s : string) : string := rev (trimStart_rev (rev s)).

Definition trim (s : string) : string := trimEnd (trimStart s).

(** [Array.prototype.join] on an array of strings. *)
Fixpoint join (sep : string) (l : list string) : string :=
  match l with
  | [] => EmptyString
  | [x] => x
  | x :: rest => x ++ sep ++ join sep rest
  end.

End JsString.

(* ===================================================================== *)
(** ** JavaScript numbers: IEEE-754 binary64 *)
(* ===================================================================== *)

Module F64.

Definition prec : Z := 53.
Definition emax : Z := 1024.

Abbreviation number := spec_float.

Definition add : number -> number -> number := SFadd prec emax.
Definition mul : number -> number -> number := SFmul prec emax.

Definition isNaN (x : number) : bool :=
  match x with S754_nan => true | _ => false end.

(** The integer nearest to [a / b], ties to the even one ([0 <= a],
    [0 < b]). *)
Definition div_nearest_even (a b : Z) : Z :=
  let q := a / b in
  let r := a mod b in
  match 2 * r ?= b with
  | Lt => q
  | Gt => q + 1
  | Eq => if Z.even q then q else q + 1
  end.

(** [magnitude a b] is the [d] with [2^d <= a / b < 2^(d+1)]
    ([0 < a], [0 < b]). *)
Definition magnitude (a b : Z) : Z :=
  let d := Z.log2 a - Z.log2 b in
  if b * 2 ^ Z.max 0 d <=? a * 2 ^ Z.max 0 (- d) then d else d - 1.

(** The binary64 value nearest to the rational [a / b], ties to even,
    with sign [s] ([0 <= a], [0 < b]): the rounding every conversion from
    a decimal literal performs. *)
Definition round_ratio (s : bool) (a b : Z) : number :=
  if a =? 0 then S754_zero s
  else
    let e := Z.max (magnitude a b - 52) (-1074) in
    let m := div_nearest_even (a * 2 ^ Z.max 0 (- e)) (b * 2 ^ Z.max 0 e) in
    let '(m, e) := if m =? 2 ^ 53 then (2 ^ 52, e + 1) else (m, e) in
    match m with
    | Zpos p => if e <=? emax - prec then S754_finite s p e
                else S754_infinity s
    | _ => S754_zero s
    end.

(** An integer literal or integer-valued number as a binary64 value. *)
Definition of_Z (n : Z) : number :=
  round_ratio (n <? 0) (Z.abs n) 1.

(** The integer that an integer-valued number is. [Infinity], the result of
    every sum from [2^1024 - 2^970] on, is kept as [2^1024]. *)
Definition to_Z (x : number) : Z :=
  match x with
  | S754_finite s m e =>
      let v := if 0 <=? e then Zpos m * 2 ^ e else Zpos m / 2 ^ (- e) in
      if s then - v else v
  | S754_infinity s => if s then - 2 ^ emax else 2 ^ emax
  | _ => 0
  end.

(** Whether an integer stands for [Infinity] or [-Infinity]. *)
Definition infinite (a : Z) : bool := 2 ^ emax <=? Z.abs a.

(** [a + b] and [a - b] on integer-valued numbers, as IEEE-754 addition and
    subtraction return them: with one infinite operand, that operand
    (negated when it is subtracted); otherwise the exact result rounded to
    the nearest binary64 value, ties to even. [Infinity - Infinity], the one
    result that is not a number, has no integer: it reads 0, as [to_Z]
    has it. *)
Definition plus (a b : Z) : Z :=
  if infinite a && negb (infinite b) then Z.sgn a * 2 ^ emax
  else if infinite b && negb (infinite a) then Z.sgn b * 2 ^ emax
  else to_Z (of_Z (a + b)).

Definition minus (a b : Z) : Z :=
  if infinite a && negb (infinite b) then Z.sgn a * 2 ^ emax
  else if infinite b && negb (infinite a) then - Z.sgn b * 2 ^ emax
  else to_Z (of_Z (a - b)).

End F64.

(* ===================================================================== *)
(** ** Decimal text of numbers: [toFixed(2)], [parseFloat], [Number] *)
(* ===================================================================== *)

Module Decimal.

Import F64.
Local Open Scope string_scope.
Local Open Scope Z_scope.

Definition digit_char (d : Z) : ascii := ascii_of_nat (Z.to_nat (48 + d)).

Definition digit_val (c : ascii) : option Z :=
  let n := Z.of_nat (nat_of_ascii c) in
  if (48 <=? n) && (n <=? 57) then Some (n - 48) else None.

(** The decimal digits of [n], most significant first, one digit at
    least. *)
Fixpoint digits_fuel (fuel : nat) (n : Z) (acc : string) : string :=
  match fuel with
  | O => acc
  | S fuel' =>
      let acc' := String (digit_char (n mod 10)) acc in
      if n <? 10 then acc' else digits_fuel fuel' (n / 10) acc'
  end.

Definition decimal (n : Z) : string :=
  digits_fuel (S (Z.to_nat (Z.log2 n))) n EmptyString.

(** [round_half_up_scaled m e] is the integer [n] for which
    [n / 100 - m * 2^e] is as close to zero as possible, the larger one
    when two are equally close (step 8 of Number.prototype.toFixed). *)
Definition round_half_up_scaled (m e : Z) : Z :=
  if 0 <=? e then 100 * m * 2 ^ e
  else (200 * m + 2 ^ (- e)) / 2 ^ (1 - e).

(** [n / 100] written with two fraction digits. *)
Definition fixed2_digits (n : Z) : string :=
  decimal (n / 100)
    ++ String "."%char
         (String (digit_char (n / 10 mod 10))
            (String (digit_char (n mod 10)) EmptyString)).

Fixpoint strip_zeros_rev (s : string) : string :=
  match s with
  | String "0"%char s' => strip_zeros_rev s'
  | _ => s
  end.

(** The candidate with [k] significant digits nearest to [X] that still
    denotes the binary64 value [x], if there is one. *)
Definition shortest_at (x : number) (X : Z) (nd k : Z) : option Z :=
  let p := 10 ^ (nd - k) in
  let lo := (X / p) * p in
  let hi := lo + p in
  let ok c := match round_ratio false c 1, x with
              | S754_finite _ m1 e1, S754_finite _ m2 e2 =>
                  Pos.eqb m1 m2 && (e1 =? e2)
              | _, _ => false
              end in
  match ok lo, ok hi with
  | true, true =>
      if X - lo <? hi - X then Some lo
      else if hi - X <? X - lo then Some hi
      else if Z.even (X / p) then Some lo else Some hi
  | true, false => Some lo
  | false, true => Some hi
  | false, false => None
  end.

Fixpoint shortest_from (fuel : nat) (x : number) (X nd k : Z) : Z :=
  match fuel with
  | O => X
  | S fuel' =>
      match shortest_at x X nd k with
      | Some c => c
      | None => shortest_from fuel' x X nd (k + 1)
      end
  end.

(** Number::toString for a finite [x] of magnitude [X >= 10^21]:
    as few significant digits as denote [x], in exponent notation. *)
Definition toString_large (x : number) (X : Z) : string :=
  let nd := Z.of_nat (String.length (decimal X)) in
  let c := shortest_from 17 x X nd 1 in
  let all := decimal c in
  let sig := JsString.rev (strip_zeros_rev (JsString.rev all)) in
  let ex := decimal (Z.of_nat (String.length all) - 1) in
  match sig with
  | String d EmptyString => String d ("e+" ++ ex)
  | String d rest => String d ("." ++ rest ++ "e+" ++ ex)
  | EmptyString => EmptyString
  end.

(** [x.toFixed(2)]. *)
Definition toFixed2 (x : number) : string :=
  match x with
  | S754_nan => "NaN"
  | S754_infinity false => "Infinity"
  | S754_infinity true => "-Infinity"
  | S754_zero _ => "0.00"
  | S754_finite s m e =>
      let sign := if s then "-" else "" in
      if 10 ^ 21 * 2 ^ Z.max 0 (- e) <=? Zpos m * 2 ^ Z.max 0 e
      then sign ++ toString_large (S754_finite false m e) (Zpos m * 2 ^ e)
      else sign ++ fixed2_digits (round_half_up_scaled (Zpos m) e)
  end.

(** *** Reading a StrDecimalLiteral *)

(** [scan_digits s acc cnt]: the longest run of digits at the head of
    [s], folded into [acc]; [cnt] counts them. *)
Fixpoint scan_digits (s : string) (acc cnt : Z) : Z * Z * string :=
  match s with
  | EmptyString => (acc, cnt, s)
  | String c s' =>
      match digit_val c with
      | Some d => scan_digits s' (10 * acc + d) (cnt + 1)
      | None => (acc, cnt, s)
      end
  end.

Definition scan_sign (s : string) : bool * string :=
  match s with
  | String "-"%char s' => (true, s')
  | String "+"%char s' => (false, s')
  | _ => (false, s)
  end.

(** ExponentPart, taken only when a digit follows the indicator and its
    optional sign. *)
Definition scan_exponent (s : string) : Z * string :=
  match s with
  | String c s' =>
      if Ascii.eqb c "e"%char || Ascii.eqb c "E"%char then
        let '(neg, s'') := scan_sign s' in
        let '(v, cnt, rest) := scan_digits s'' 0 0 in
        if 0 <? cnt then ((if neg then - v else v), rest) else (0, s)
      else (0, s)
  | EmptyString => (0, s)
  end.

(** The value [mant * 10^ex] with sign [neg], rounded to binary64. *)
Definition decimal_value (neg : bool) (mant ex : Z) : number :=
  round_ratio neg (mant * 10 ^ Z.max 0 ex) (10 ^ Z.max 0 (- ex)).

(** The longest prefix of [s] that is a StrDecimalLiteral, as its value
    and the unread rest; [None] when no prefix is one. *)
Definition scan_decimal (s : string) : option (number * string) :=
  let '(neg, s1) := scan_sign s in
  match JsString.strip_prefix "Infinity" s1 with
  | Some rest => Some (S754_infinity neg, rest)
  | None =>
      let '(ip, ci, s2) := scan_digits s1 0 0 in
      match s2 with
      | String "."%char s3 =>
          let '(m, cf, s4) := scan_digits s3 ip 0 in
          if 0 <? ci + cf then
            let '(ex, rest) := scan_exponent s4 in
            Some (decimal_value neg m (ex - cf), rest)
          else None
      | _ =>
          if 0 <? ci then
            let '(ex, rest) := scan_exponent s2 in
            Some (decimal_value neg ip ex, rest)
          else None
      end
  end.

(** The global [parseFloat]: leading white space is skipped and what
    follows the literal is ignored. *)
Definition parseFloat (s : string) : number :=
  match scan_decimal (JsString.trimStart s) with
  | Some (v, _) => v
  | None => S754_nan
  end.

(** *** [Number(s)]: StringToNumber *)

Definition radix_digit (radix : Z) (c : ascii) : option Z :=
  let n := Z.of_nat (nat_of_ascii c) in
  let d := if (48 <=? n) && (n <=? 57) then n - 48
           else if (97 <=? n) && (n <=? 102) then n - 87
           else if (65 <=? n) && (n <=? 70) then n - 55
           else radix in
  if d <? radix then Some d else None.

(** A non-empty string made of digits of [radix] only. *)
Fixpoint scan_radix (radix : Z) (s : string) (acc : Z) : option Z :=
  match s with
  | EmptyString => Some acc
  | String c s' =>
      match radix_digit radix c with
      | Some d => scan_radix radix s' (radix * acc + d)
      | None => None
      end
  end.

Definition non_decimal_literal (s : string) : option number :=
  match s with
  | String "0"%char (String c (String d rest)) =>
      let radix :=
        if Ascii.eqb c "x"%char || Ascii.eqb c "X"%char then 16
        else if Ascii.eqb c "o"%char || Ascii.eqb c "O"%char then 8
        else if Ascii.eqb c "b"%char || Ascii.eqb c "B"%char then 2
        else 0 in
      if radix =? 0 then None
      else option_map of_Z (scan_radix radix (String d rest) 0)
  | _ => None
  end.

(** [Number(s)] for a string [s]: the whole trimmed text must be a
    numeric literal; the empty text is [+0]. *)
Definition Number (s : string) : number :=
  match JsString.trim s with
  | EmptyString => S754_zero false
  | t =>
      match non_decimal_literal t with
      | Some v => v
      | None =>
          match scan_decimal t with
          | Some (v, EmptyString) => v
          | _ => S754_nan
          end
      end
  end.

End Decimal.

(* ===================================================================== *)
(** ** The application: data model and handlers of [App.tsx] *)
(* ===================================================================== *)

Import F64.

Inductive Page :=
  | welcome | tableNumberEntry | chat | bill | finalConfirmation.

(** [price: string | number], the argument type of [parsePrice]. *)
Inductive Price :=
  | PriceString (s : string)
  | PriceNumber (x : number).

Record MenuItem := {
  mi_id : string;
  mi_name : string;
  mi_price : Price;
  mi_pieces : option Z;
  mi_description : string;
  mi_image : string;
  mi_category : string;
  mi_tasteProfiles : list string
}.

(** An order line: the fields of the catalog item it was spread from,
    a quantity, and the optional customization notes. *)
Record OrderItem := {
  oi_item : MenuItem;
  quantity : Z;
  customizationNotes : option string
}.

Definition oi_id (oi : OrderItem) : string := mi_id (oi_item oi).
Definition oi_price (oi : OrderItem) : Price := mi_price (oi_item oi).

Definition set_quantity (q : Z) (oi : OrderItem) : OrderItem :=
  {| oi_item := oi_item oi; quantity := q;
     customizationNotes := customizationNotes oi |}.

(** A request of a batch: [{ itemName, quantity, customizationNotes? }]. *)
Record Request := {
  itemName : string;
  req_quantity : Z;
  req_notes : option string
}.

Record BillDataType := {
  items : list OrderItem;
  subtotal : string;
  gstAmount : string;
  grandTotal : string;
  bill_tableNumber : string
}.

(** The document handed to [addDoc(collection(db, "bills"), ...)]. *)
Record BillDocument := {
  doc_bill : BillDataType;
  doc_items : list OrderItem;
  doc_status : string;
  doc_timestamp : string
}.

Inductive Effect :=
  | RemoteWrite (collection : string) (doc : BillDocument)
  | Alert (text : string)
  | Warn (text : string).

Record AppState := {
  currentPage : Page;
  orderItems : list OrderItem;
  currentBillData : option BillDataType;
  tableNumber : string;
  isSubmitting : bool
}.

(** [notes || ''] : absent and empty notes are the same plain notes. *)
Definition norm_notes (n : option string) : string := default EmptyString n.

(** The test of every [findIndex] over the Ledger:
    [oi.id === id && (oi.customizationNotes || '') === notes]. *)
Definition same_line (id notes : string) (oi : OrderItem) : Prop :=
  oi_id oi = id ∧ norm_notes (customizationNotes oi) = notes.

#[global] Instance same_line_dec id notes oi : Decision (same_line id notes oi).
Proof. unfold same_line. apply _. Defined.

(** [Array.prototype.findIndex]; [None] stands for [-1]. *)
Definition findIndex {A} (P : A → Prop) `{∀ x, Decision (P x)}
    (l : list A) : option nat :=
  fst <$> list_find P l.

Definition parsePrice (p : Price) : number :=
  match p with
  | PriceNumber x => x
  | PriceString s =>
      Decimal.parseFloat
        (JsString.trim (JsString.replace_first JsString.rupee "" s))
  end.

Definition formatPrice (x : number) : string :=
  JsString.rupee +:+ Decimal.toFixed2 x.

Definition calculateSubtotal (currentOrderItems : list OrderItem) : string :=
  let total :=
    fold_left
      (λ sum item, add sum (mul (parsePrice (oi_price item))
                                (of_Z (quantity item))))
      currentOrderItems (S754_zero false) in
  formatPrice total.

(** The reducer of [handleAddItemToOrder]; an absent [quantity] argument
    takes the default [1]. *)
Definition handleAddItemToOrder (itemToAdd : MenuItem) (qty : option Z)
    (notes : option string) (prevOrder : list OrderItem) : list OrderItem :=
  let q := default 1 qty in
  match findIndex (same_line (mi_id itemToAdd) (norm_notes notes)) prevOrder with
  | Some i => alter (λ oi, set_quantity (plus (quantity oi) q) oi) i prevOrder
  | None =>
      prevOrder ++ [ {| oi_item := itemToAdd; quantity := q;
                        customizationNotes := notes |} ]
  end.

Section Session.

(** [String.prototype.toLowerCase], left abstract. *)
Variable toLowerCase : string → string.

(** The catalog of the session. *)
Variable activeMenuItems : list MenuItem.

(** [activeMenuItems.find(item =>
       item.name.toLowerCase() === name.toLowerCase().trim())]. *)
Definition find_menu_item (name : string) : option MenuItem :=
  snd <$> list_find
    (λ item, toLowerCase (mi_name item) = JsString.trim (toLowerCase name))
    activeMenuItems.

(** *** Additions *)

(** The variables of the loop of [handleMultiItemOrder]. The
    [actionMessages] array is filled by the source and never read; it is
    left out. *)
Record AddLoop := {
  add_workingOrder : list OrderItem;
  add_itemsActuallyProcessed : bool;
  add_notFoundItems : list string
}.

Definition new_line (menuItem : MenuItem) (q : Z) (notes : string) : OrderItem :=
  {| oi_item := menuItem; quantity := q; customizationNotes := Some notes |}.

(** What one resolved request does to the working order. The source
    updates the matched line in place ([workingOrder[i].quantity += n]); the
    line object is shared with the previous Ledger, whose copy the working
    order is, so that Ledger changes with it. The embedding returns the
    Ledger the reducer returns and keeps no older one. *)
Definition add_to_order (menuItem : MenuItem) (incomingQuantity : Z)
    (incomingNotes : string) (workingOrder : list OrderItem) : list OrderItem :=
  match findIndex (same_line (mi_id menuItem) incomingNotes) workingOrder with
  | Some exactMatchIndex =>
      alter (λ oi, set_quantity (plus (quantity oi) incomingQuantity) oi)
            exactMatchIndex workingOrder
  | None =>
      let pushed :=
        workingOrder ++ [new_line menuItem incomingQuantity incomingNotes] in
      if decide (incomingNotes ≠ EmptyString) then
        match findIndex (same_line (mi_id menuItem) EmptyString) workingOrder with
        | Some plainItemIndex =>
            let spliced := delete plainItemIndex workingOrder in
            match findIndex (same_line (mi_id menuItem) incomingNotes) spliced with
            | Some existingCustomizedItemIndex =>
                alter (λ oi,
                         set_quantity (plus (quantity oi) incomingQuantity) oi)
                      existingCustomizedItemIndex spliced
            | None =>
                spliced ++ [new_line menuItem incomingQuantity incomingNotes]
            end
        | None => pushed
        end
      else pushed
  end.

(** One iteration of [for (const order of orders)]. *)
Definition add_step (st : AddLoop) (order : Request) : AddLoop :=
  match find_menu_item (itemName order) with
  | None =>
      {| add_workingOrder := add_workingOrder st;
         add_itemsActuallyProcessed := add_itemsActuallyProcessed st;
         add_notFoundItems := add_notFoundItems st ++ [itemName order] |}
  | Some menuItem =>
      {| add_workingOrder :=
           add_to_order menuItem (req_quantity order)
                        (norm_notes (req_notes order)) (add_workingOrder st);
         add_itemsActuallyProcessed := true;
         add_notFoundItems := add_notFoundItems st |}
  end.

Definition could_not_find (names : list string) : string :=
  "Could not find: " +:+ JsString.join ", " names +:+ " on the menu.".

Definition could_not_identify_add : string :=
  "I couldn't identify any items from your request to add to the order.".

(** The reducer of [handleMultiItemOrder], run once: the new Ledger and the
    messages passed to [addSystemMessageToChat], in order; [sink] tells
    whether the optional callback was given. *)
Definition handleMultiItemOrder (orders : list Request) (sink : bool)
    (prevOrder : list OrderItem) : list OrderItem * list string :=
  let st := fold_left add_step orders
              {| add_workingOrder := prevOrder;
                 add_itemsActuallyProcessed := false;
                 add_notFoundItems := [] |} in
  let notFound := add_notFoundItems st in
  let messages :=
    if sink then
      (if bool_decide (notFound ≠ []) then [could_not_find notFound] else [])
      ++ (if negb (add_itemsActuallyProcessed st)
             && bool_decide (notFound = [])
             && bool_decide (orders ≠ [])
          then [could_not_identify_add] else [])
    else [] in
  (add_workingOrder st, messages).

(** *** Removals *)

(** The variables of the loop of [handleMultiItemRemoval]; the
    [removedItemsMessages] array is never read either. *)
Record RemoveLoop := {
  rm_workingOrder : list OrderItem;
  rm_itemsActuallyProcessed : bool;
  rm_notFoundOrNotInOrder : list string
}.

(** What one removal that found its line does to the working order. *)
Definition remove_at_line (existingItemIndex : nat) (itemInOrder : OrderItem)
    (quantityToRemove : Z) (workingOrder : list OrderItem) : list OrderItem :=
  if quantityToRemove >=? quantity itemInOrder then
    delete existingItemIndex workingOrder
  else
    alter (λ oi, set_quantity (minus (quantity oi) quantityToRemove) oi)
          existingItemIndex workingOrder.

Definition remove_from_order (menuItem : MenuItem) (quantityToRemove : Z)
    (notes : string) (workingOrder : list OrderItem) : option (list OrderItem) :=
  match list_find (same_line (mi_id menuItem) notes) workingOrder with
  | None => None
  | Some (existingItemIndex, itemInOrder) =>
      Some (remove_at_line existingItemIndex itemInOrder quantityToRemove
                           workingOrder)
  end.

Definition not_on_menu (name : string) : string :=
  "'" +:+ name +:+ "' (not on menu)".

Definition not_in_order (menuItem : MenuItem) (notes : string) : string :=
  let searchName :=
    if decide (notes = EmptyString) then mi_name menuItem
    else mi_name menuItem +:+ " (Custom: " +:+ notes +:+ ")" in
  "'" +:+ searchName
      +:+ "' (not in current order or exact customization not found)".

Definition remove_step (st : RemoveLoop) (removal : Request) : RemoveLoop :=
  match find_menu_item (itemName removal) with
  | None =>
      {| rm_workingOrder := rm_workingOrder st;
         rm_itemsActuallyProcessed := rm_itemsActuallyProcessed st;
         rm_notFoundOrNotInOrder :=
           rm_notFoundOrNotInOrder st ++ [not_on_menu (itemName removal)] |}
  | Some menuItem =>
      let notes := norm_notes (req_notes removal) in
      match remove_from_order menuItem (req_quantity removal) notes
                              (rm_workingOrder st) with
      | None =>
          {| rm_workingOrder := rm_workingOrder st;
             rm_itemsActuallyProcessed := rm_itemsActuallyProcessed st;
             rm_notFoundOrNotInOrder :=
               rm_notFoundOrNotInOrder st ++ [not_in_order menuItem notes] |}
      | Some workingOrder' =>
          {| rm_workingOrder := workingOrder';
             rm_itemsActuallyProcessed := true;
             rm_notFoundOrNotInOrder := rm_notFoundOrNotInOrder st |}
      end
  end.

Definition could_not_process (l : list string) : string :=
  "Could not process removals for: " +:+ JsString.join ", " l +:+ ".".

Definition could_not_identify_remove : string :=
  "I couldn't identify any items from your request to remove.".

Definition handleMultiItemRemoval (removals : list Request) (sink : bool)
    (prevOrder : list OrderItem) : list OrderItem * list string :=
  let st := fold_left remove_step removals
              {| rm_workingOrder := prevOrder;
                 rm_itemsActuallyProcessed := false;
                 rm_notFoundOrNotInOrder := [] |} in
  let missing := rm_notFoundOrNotInOrder st in
  let messages :=
    if sink then
      (if bool_decide (missing ≠ []) then [could_not_process missing] else [])
      ++ (if negb (rm_itemsActuallyProcessed st)
             && bool_decide (missing = [])
             && bool_decide (removals ≠ [])
          then [could_not_identify_remove] else [])
    else [] in
  (rm_workingOrder st, messages).

End Session.

(** *** Checkout and submission *)

Section Checkout.

(** The configured tax rate [GST_RATE] of [constants.ts]. *)
Variable GST_RATE : number.

Definition navigateTo (page : Page) (st : AppState) : AppState :=
  {| currentPage := page; orderItems := orderItems st;
     currentBillData := currentBillData st; tableNumber := tableNumber st;
     isSubmitting := isSubmitting st |}.

Definition setCurrentBillData (b : option BillDataType) (st : AppState) : AppState :=
  {| currentPage := currentPage st; orderItems := orderItems st;
     currentBillData := b; tableNumber := tableNumber st;
     isSubmitting := isSubmitting st |}.

Definition setOrderItems (l : list OrderItem) (st : AppState) : AppState :=
  {| currentPage := currentPage st; orderItems := l;
     currentBillData := currentBillData st; tableNumber := tableNumber st;
     isSubmitting := isSubmitting st |}.

Definition setIsSubmitting (b : bool) (st : AppState) : AppState :=
  {| currentPage := currentPage st; orderItems := orderItems st;
     currentBillData := currentBillData st; tableNumber := tableNumber st;
     isSubmitting := b |}.

Definition subtotalNum (l : list OrderItem) : number :=
  parsePrice (PriceString (calculateSubtotal l)).

Definition gstAmountNum (l : list OrderItem) : number :=
  mul (subtotalNum l) GST_RATE.

Definition grandTotalNum (l : list OrderItem) : number :=
  add (subtotalNum l) (gstAmountNum l).

(** The Bill snapshot [handleCheckoutAndGoToBill] builds. *)
Definition make_bill (l : list OrderItem) (table : string) : BillDataType :=
  {| items := l;
     subtotal := formatPrice (subtotalNum l);
     gstAmount := formatPrice (gstAmountNum l);
     grandTotal := formatPrice (grandTotalNum l);
     bill_tableNumber := table |}.

(** [handleCheckoutAndGoToBill]: the state it leaves and its result. *)
Definition handleCheckoutAndGoToBill (st : AppState) : AppState * bool :=
  match orderItems st with
  | [] => (st, false)
  | _ =>
      (navigateTo bill
         (setCurrentBillData
            (Some (make_bill (orderItems st) (tableNumber st))) st),
       true)
  end.

(** The condition under which [handleConfirmOrderAndGoToFinalConfirmation]
    submits: a snapshot, at least one item, and three money fields that
    [Number] does not turn into [NaN]. *)
Definition bill_valid (b : option BillDataType) : bool :=
  match b with
  | None => false
  | Some b =>
      bool_decide (items b ≠ [])
      && negb (isNaN (Decimal.Number (subtotal b)))
      && negb (isNaN (Decimal.Number (gstAmount b)))
      && negb (isNaN (Decimal.Number (grandTotal b)))
  end.

(** The document written: the snapshot, its items (a line whose notes are
    [undefined] has the key removed, which [None] already stands for), the
    status and the timestamp. *)
Definition bill_document (b : BillDataType) (now : string) : BillDocument :=
  {| doc_bill := b;
     doc_items := items b;
     doc_status := "pending";
     doc_timestamp := now |}.

Definition skipped_warning : string :=
  "⚠️ Skipped bill submission due to invalid or incomplete data.".

Definition failed_alert : string := "Failed to send order to kitchen.".

(** [handleConfirmOrderAndGoToFinalConfirmation] up to its [await]:
    the state it leaves and the effects it performed; [now] is the
    reading of the clock. A [RemoteWrite] leaves the call suspended until
    [resumeConfirmOrderAndGoToFinalConfirmation]. The callback reads
    [isSubmitting] and [currentBillData] as of the render that created it;
    React renders again after every event that set state, so a trigger reads
    them from the state the previous event left, as here. *)
Definition handleConfirmOrderAndGoToFinalConfirmation (now : string)
    (st : AppState) : AppState * list Effect :=
  if isSubmitting st then (st, [])
  else
    match currentBillData st with
    | Some b =>
        if bill_valid (Some b) then
          (setIsSubmitting true st,
           [RemoteWrite "bills" (bill_document b now)])
        else (navigateTo finalConfirmation st, [Warn skipped_warning])
    | None => (navigateTo finalConfirmation st, [Warn skipped_warning])
    end.

(** The rest of the call once [addDoc] settles: [ok] tells whether the
    promise was fulfilled. *)
Definition resumeConfirmOrderAndGoToFinalConfirmation (ok : bool)
    (st : AppState) : AppState * list Effect :=
  if ok then
    (setIsSubmitting false
       (navigateTo finalConfirmation (setOrderItems [] st)), [])
  else (setIsSubmitting false st, [Alert failed_alert]).

Definition remote_writes (l : list Effect) : list BillDocument :=
  omap (λ e, match e with RemoteWrite _ d => Some d | _ => None end) l.

End Checkout.

(* ===================================================================== *)
(** ** Sample session *)
(* ===================================================================== *)

Module Sample.

(** Lower-casing of ASCII letters; on ASCII names it is what
    [toLowerCase] computes. *)
Definition lower_char (c : ascii) : ascii :=
  let n := nat_of_ascii c in
  if ((65 <=? n) && (n <=? 90))%nat then ascii_of_nat (n + 32) else c.

Fixpoint lower (s : string) : string :=
  match s with
  | EmptyString => s
  | String c r => String (lower_char c) (lower r)
  end.

Definition item (id name price : string) : MenuItem :=
  {| mi_id := id; mi_name := name; mi_price := PriceString price;
     mi_pieces := None; mi_description := ""; mi_image := "";
     mi_category := ""; mi_tasteProfiles := [] |}.

Definition burger : MenuItem := item "m1" "Burger" "₹100".
Definition fries : MenuItem := item "m2" "Fries" "₹0.10".
Definition coke : MenuItem := item "m3" "Coke" "₹0.20".

Definition menu : list MenuItem := [burger; fries; coke].

Definition request (name : string) (q : Z) (notes : option string) : Request :=
  {| itemName := name; req_quantity := q; req_notes := notes |}.

Definition line (m : MenuItem) (q : Z) (notes : option string) : OrderItem :=
  {| oi_item := m; quantity := q; customizationNotes := notes |}.

(** The literal [0.05]. *)
Definition rate_5_percent : number := Decimal.parseFloat "0.05".

Definition state (l : list OrderItem) (b : option BillDataType)
    (submitting : bool) : AppState :=
  {| currentPage := bill; orderItems := l; currentBillData := b;
     tableNumber := "7"; isSubmitting := submitting |}.


(** Fries at 0.10 and a coke at 0.20: the binary64 sum is
    0.30000000000000004. *)
Definition drift_ledger : list OrderItem :=
  [line fries 1 None; line coke 1 None].
Definition two_burgers : list OrderItem := [line burger 2 None].
(** Two requests for burgers, one for salted fries, one for a dish that is
    not on the menu. *)
Definition batch : list Request :=
  [request "Burger" 2 None;
   request "fries" 1 (Some "extra salt");
   request " BURGER " 1 None;
   request "Pizza" 1 None].

End Sample.

(* ===================================================================== *)
(** ** Ledger invariants *)
(* ===================================================================== *)

(** The pair that identifies a line: item id and normalized notes. *)
Definition line_key (oi : OrderItem) : string * string :=
  (oi_id oi, norm_notes (customizationNotes oi)).

(** No two lines share the same (id, normalized notes). *)
Definition distinct_lines (l : list OrderItem) : Prop :=
  NoDup (line_key <$> l).

(** Every line has a positive quantity. *)
Definition positive_lines (l : list OrderItem) : Prop :=
  Forall (λ oi, 0 < quantity oi) l.

(* ===================================================================== *)
(** ** Batches that trigger no transform *)
(* ===================================================================== *)

Section TransformFree.

Variable toLowerCase : string → string.
Variable activeMenuItems : list MenuItem.

(** The customization-transform rule applies to a resolved request: its
    notes are not empty, no line has its id and notes, and a plain line of
    its id exists. *)
Definition transform_triggers (m : MenuItem) (n : string)
    (w : list OrderItem) : bool :=
  bool_decide (n ≠ EmptyString)
  && negb (bool_decide (is_Some (findIndex (same_line (mi_id m) n) w)))
  && bool_decide (is_Some (findIndex (same_line (mi_id m) EmptyString) w)).

(** No request of the batch triggers the rule when the batch is applied to
    the working order [w]. *)
Fixpoint transform_free (orders : list Request) (w : list OrderItem) : bool :=
  match orders with
  | [] => true
  | order :: rest =>
      match find_menu_item toLowerCase activeMenuItems (itemName order) with
      | None => transform_free rest w
      | Some m =>
          let n := norm_notes (req_notes order) in
          negb (transform_triggers m n w)
          && transform_free rest (add_to_order m (req_quantity order) n w)
      end
  end.

(** The requests of a batch that resolve, as (item, quantity, notes). *)
Definition resolved (orders : list Request) : list (MenuItem * Z * string) :=
  omap (λ order,
          (λ m, (m, req_quantity order, norm_notes (req_notes order)))
            <$> find_menu_item toLowerCase activeMenuItems (itemName order))
       orders.

End TransformFree.

(* ===================================================================== *)
(** ** Accounting for pending requests *)
(* ===================================================================== *)

(** The pair a resolved request addresses, and the sum of the quantities a
    list of resolved requests holds for one pair. *)
Definition resolved_key (r : MenuItem * Z * string) : string * string :=
  (mi_id r.1.1, r.2).

Fixpoint pending_sum (P : list (MenuItem * Z * string)) (k : string * string) : Z :=
  match P with
  | [] => 0
  | r :: P' => (if decide (resolved_key r = k) then r.1.2 else 0) + pending_sum P' k
  end.

Definition bump (P : list (MenuItem * Z * string)) (oi : OrderItem) : OrderItem :=
  set_quantity (quantity oi + pending_sum P (line_key oi)) oi.

(** [upd k f] applies [f] to the lines addressed by [k]. *)
Definition upd (k : string * string) (f : OrderItem → OrderItem)
    (oi : OrderItem) : OrderItem :=
  if decide (line_key oi = k) then f oi else oi.

(** [W] is the Ledger [L] with the quantities of the pending requests [P]
    added: the lines of [L] in place, each raised by what [P] holds for it,
    followed by one line for every other pair [P] addresses. *)
Definition accounted (L : list OrderItem) (P : list (MenuItem * Z * string))
    (W : list OrderItem) : Prop :=
  ∃ N, W = (bump P <$> L) ++ N
     ∧ NoDup (line_key <$> N)
     ∧ Forall (λ x, (line_key x ∉ line_key <$> L)
                    ∧ quantity x = pending_sum P (line_key x)
                    ∧ 0 < quantity x) N
     ∧ Forall (λ r, resolved_key r ∈ (line_key <$> L) ++ (line_key <$> N)) P.

(** The quantities stay in the range where binary64 sums are exact while
    the resolved requests [R] are applied to the Ledger [L]: for every line
    of [L] its quantity plus all that [R] holds for it, and for every pair
    [R] addresses all that [R] holds for it, are below [2^53]. *)
Definition within_exact_range (L : list OrderItem)
    (R : list (MenuItem * Z * string)) : Prop :=
  Forall (λ oi, quantity oi + pending_sum R (line_key oi) < 2 ^ 53) L
  ∧ Forall (λ r, pending_sum R (resolved_key r) < 2 ^ 53) R.

(* ===================================================================== *)
(** ** The Money convention, as the specification words it *)
(* ===================================================================== *)

(** The text of a Money amount of [n] hundredths: the currency symbol, a
    minus sign for a negative amount, the integer part without leading
    zeros, a point, and exactly two decimals. *)
Definition money_text (neg : bool) (n : Z) : string :=
  JsString.rupee +:+ (if neg then "-" else "") +:+ Decimal.fixed2_digits n.

(** [x] rounded to two decimal places: the binary64 value nearest to the
    decimal number with two decimals nearest to [x] (a tie goes away from
    zero). A zero is the zero [+0], which [===] does not tell from [-0];
    infinities and [NaN] are themselves. *)
Definition round2 (x : number) : number :=
  match x with
  | S754_finite s m e =>
      Decimal.decimal_value s (Decimal.round_half_up_scaled (Zpos m) e) (-2)
  | S754_zero _ => S754_zero false
  | _ => x
  end.

(** The magnitude of [x] is below [10^21], where [toFixed] keeps the
    fixed notation. *)
Definition below_1e21 (x : number) : bool :=
  match x with
  | S754_finite _ m e => negb (10 ^ 21 * 2 ^ Z.max 0 (- e) <=? Zpos m * 2 ^ Z.max 0 e)
  | _ => true
  end.

(** One hundred times the 46th power of two: the amounts below it, in
    hundredths, survive the conversion to binary64 and back. *)
Definition exact_cents_bound : Z := 100 * 2 ^ 46.

(** The unrounded sum of quantity times parsed price over the lines. *)
Definition unrounded_total (l : list OrderItem) : number :=
  fold_left
    (λ sum item, add sum (mul (parsePrice (oi_price item))
                              (of_Z (quantity item))))
    l (S754_zero false).

(** The hundredths a non-negative amount is formatted to. *)
Definition cents (x : number) : option Z :=
  match x with
  | S754_zero _ => Some 0
  | S754_finite false m e => Some (Decimal.round_half_up_scaled (Zpos m) e)
  | _ => None
  end.

Definition money_cents (s : string) : option Z :=
  cents (parsePrice (PriceString s)).

(** The tax and the grand total are computed from the unrounded sum. *)
Definition computed_from_unrounded_sum (rate : number) (l : list OrderItem)
    (b : BillDataType) : Prop :=
  gstAmount b = formatPrice (mul (unrounded_total l) rate)
  ∧ grandTotal b
    = formatPrice (add (unrounded_total l) (mul (unrounded_total l) rate)).

(** The formatted grand total is the formatted subtotal plus the formatted
    tax, as amounts with two decimals. *)
Definition grand_total_adds_up (b : BillDataType) : Prop :=
  match money_cents (subtotal b), money_cents (gstAmount b),
        money_cents (grandTotal b) with
  | Some s, Some g, Some t => t = s + g
  | _, _, _ => False
  end.

(* ===================================================================== *)
(** ** Digit strings *)
(* ===================================================================== *)

(** Every byte is a decimal digit. *)
Fixpoint all_digits (ds : string) : bool :=
  match ds with
  | EmptyString => true
  | String c r => bool_decide (is_Some (Decimal.digit_val c)) && all_digits r
  end.

(** The number a digit string denotes, read onto [acc]. *)
Fixpoint digits_value (ds : string) (acc : Z) : Z :=
  match ds with
  | EmptyString => acc
  | String c r => digits_value r (10 * acc + default 0 (Decimal.digit_val c))
  end.


(** A run of [z] zero digits. *)
Fixpoint zeros (z : nat) : string :=
  match z with
  | O => EmptyString
  | S z' => String "0"%char (zeros z')
  end.

(** The digits, point and exponent that [toString_large] writes. *)
Definition exponent_text (d : ascii) (rest : string) (E : Z) : string :=
  match rest with
  | EmptyString => String d ("e+" +:+ Decimal.decimal E)
  | _ => String d ("." +:+ rest +:+ "e+" +:+ Decimal.decimal E)
  end.

(* ===================================================================== *)
(** ** The other handlers of [App.tsx] *)
(* ===================================================================== *)

(** The reducer of [handleUpdateOrderItemQuantity]: a quantity of zero or
    less filters the matching lines out, any other quantity is written into
    every matching line. *)
Definition handleUpdateOrderItemQuantity (itemId : string) (newQuantity : Z)
    (itemCustomizationNotes : option string) (prevOrder : list OrderItem)
    : list OrderItem :=
  if newQuantity <=? 0 then
    filter (λ item, ¬ same_line itemId (norm_notes itemCustomizationNotes) item)
           prevOrder
  else
    (λ item,
       if decide (same_line itemId (norm_notes itemCustomizationNotes) item)
       then set_quantity newQuantity item else item) <$> prevOrder.

(** The reducer of [handleRemoveOrderItem]. *)
Definition handleRemoveOrderItem (itemId : string)
    (itemCustomizationNotes : option string) (prevOrder : list OrderItem)
    : list OrderItem :=
  filter (λ item, ¬ same_line itemId (norm_notes itemCustomizationNotes) item)
         prevOrder.

Definition setTableNumber (t : string) (st : AppState) : AppState :=
  {| currentPage := currentPage st; orderItems := orderItems st;
     currentBillData := currentBillData st; tableNumber := t;
     isSubmitting := isSubmitting st |}.

Definition handleTableNumberSubmit (tableNum : string) (st : AppState)
    : AppState :=
  navigateTo chat (setTableNumber tableNum st).

Definition handleStartNewOrderFromFinalConfirmation (st : AppState)
    : AppState :=
  navigateTo welcome
    (setTableNumber "" (setOrderItems [] (setCurrentBillData None st))).

(** The state [App] starts in: the initial values of its [useState]
    cells. *)
Definition initialState : AppState :=
  {| currentPage := welcome; orderItems := []; currentBillData := None;
     tableNumber := ""; isSubmitting := false |}.

(* ===================================================================== *)
(** ** The table number form ([TableNumberPage.tsx]) *)
(* ===================================================================== *)

Module TableNumberPage.

(** [Number.isInteger]: a finite number with no fraction. *)
Definition isInteger (x : number) : bool :=
  match x with
  | S754_zero _ => true
  | S754_finite _ m e => (0 <=? e) || (Zpos m mod 2 ^ (- e) =? 0)
  | _ => false
  end.

(** The two state cells of the component. *)
Record Form := {
  tableNumber : string;
  error : string
}.

Definition invalid_table_number : string :=
  "Please enter a valid whole table number.".

(** [handleSubmit]: the form it leaves and the argument it passes to
    [onTableNumberSubmit], if it calls it. *)
Definition handleSubmit (st : Form) : Form * option string :=
  let num := Decimal.Number (tableNumber st) in
  if bool_decide (JsString.trim (tableNumber st) = EmptyString)
     || isNaN num
     || SFleb num (S754_zero false)
     || negb (isInteger num)
  then ({| tableNumber := tableNumber st; error := invalid_table_number |},
        None)
  else ({| tableNumber := tableNumber st; error := EmptyString |},
        Some (JsString.trim (tableNumber st))).

(** The [onChange] handler of the input. *)
Definition onChange (value : string) (st : Form) : Form :=
  {| tableNumber := value;
     error := if bool_decide (error st ≠ EmptyString) then EmptyString
              else error st |}.

End TableNumberPage.

(** The form wired to the application, as [App.tsx] renders it with
    [onTableNumberSubmit={handleTableNumberSubmit}]: a submit event on the
    table number page. *)
Definition submitTableNumber (form : TableNumberPage.Form) (st : AppState)
    : TableNumberPage.Form * AppState :=
  match TableNumberPage.handleSubmit form with
  | (form', Some tableNum) => (form', handleTableNumberSubmit tableNum st)
  | (form', None) => (form', st)
  end.

(* ===================================================================== *)
(** ** Items and quantities in a spoken text ([nlp.js]) *)
(* ===================================================================== *)

Module Nlp.

Definition menuItems : list string :=
  ["burger"; "pizza"; "fries"; "coke"; "cold coffee"]%string.

(** An element of [cart]. *)
Record CartEntry := {
  item : string;
  quantity : number
}.

(** Canonicalize of ECMA-262 under the [i] flag without [u]: the upper-case
    form of an ASCII letter; every other byte is left alone. *)
Definition canonicalize (c : ascii) : ascii :=
  let n := nat_of_ascii c in
  if ((97 <=? n) && (n <=? 122))%nat then ascii_of_nat (n - 32) else c.

(** The characters of [p] at the head of [s], compared after
    canonicalization. *)
Fixpoint literal (p s : string) : bool :=
  match p, s with
  | EmptyString, _ => true
  | String a p', String b s' =>
      Ascii.eqb (canonicalize a) (canonicalize b) && literal p' s'
  | String _ _, EmptyString => false
  end.

(** [\d]. *)
Definition digit (c : ascii) : bool :=
  match Decimal.digit_val c with Some _ => true | None => false end.

(** [\s*] followed by [k]: the longest run of white space first, then
    shorter ones. *)
Fixpoint white_space_star {A} (k : string → option A) (s : string) : option A :=
  let greedy (r : option A) :=
    match r with Some x => Some x | None => k s end in
  match s with
  | EmptyString => k s
  | String a r1 =>
      if JsString.ws1 a then greedy (white_space_star k r1)
      else
        match r1 with
        | EmptyString => k s
        | String b r2 =>
            if JsString.ws2 a b then greedy (white_space_star k r2)
            else
              match r2 with
              | EmptyString => k s
              | String c r3 =>
                  if JsString.ws3 a b c then greedy (white_space_star k r3)
                  else k s
              end
        end
  end.

(** [(\d+)] followed by [k]: the longest run of digits first, then shorter
    ones; [seen] holds the digits read so far, last first. *)
Fixpoint digits_plus {A} (k : string → string → option A)
    (seen s : string) : option A :=
  match s with
  | EmptyString => None
  | String c r =>
      if digit c then
        match digits_plus k (String c seen) r with
        | Some x => Some x
        | None => k (JsString.rev (String c seen)) r
        end
      else None
  end.

(** The pattern [(\d+)?\s*item] with flag [i] matched at the head of [s]:
    [None] when it does not match, and otherwise what group 1 captured.
    [item] is taken literally; the names of [menuItems] hold no character
    that is special in a pattern. *)
Definition match_here (item s : string) : option (option string) :=
  let name (captured : option string) (t : string) :=
    if literal item t then Some captured else None in
  match digits_plus (λ d rest, white_space_star (name (Some d)) rest)
                    EmptyString s with
  | Some m => Some m
  | None => white_space_star (name None) s
  end.

(** [text.match(pattern)] without the [g] flag: the match at the leftmost
    position that has one. *)
Fixpoint regexp_match (item text : string) : option (option string) :=
  match match_here item text with
  | Some m => Some m
  | None =>
      match text with
      | EmptyString => None
      | String _ text' => regexp_match item text'
      end
  end.

(** [parseInt] on what group 1 holds: [undefined] or a run of decimal
    digits. *)
Definition parseInt (captured : option string) : number :=
  match captured with
  | None => S754_nan
  | Some ds =>
      let '(v, cnt, _) := Decimal.scan_digits ds 0 0 in
      if 0 <? cnt then of_Z v else S754_nan
  end.

(** [x || 1] on numbers: zero and [NaN] are falsy. *)
Definition or_one (x : number) : number :=
  match x with
  | S754_zero _ | S754_nan => of_Z 1
  | _ => x
  end.

(** The [cart] that [processTextWithNLP] builds and shows. *)
Definition processTextWithNLP (text : string) : list CartEntry :=
  omap (λ name,
          match regexp_match name text with
          | Some captured =>
              Some {| item := name; quantity := or_one (parseInt captured) |}
          | None => None
          end)
       menuItems.

(** [s] with every character canonicalized. *)
Fixpoint upper_case (s : string) : string :=
  match s with
  | EmptyString => EmptyString
  | String c r => String (canonicalize c) (upper_case r)
  end.

(** [name] occurs in [text], letter case aside. *)
Definition mentions (name text : string) : Prop :=
  ∃ before found after,
    text = before +:+ found +:+ after ∧ upper_case found = upper_case name.

End Nlp.

(** *** White space, one character at a time *)

(** The rest of [s] after the white-space character at its head, if it has
    one: the step that [trimStart] and [white_space_star] repeat. *)
Definition white_space_head (s : string) : option string :=
  match s with
  | EmptyString => None
  | String a r1 =>
      if JsString.ws1 a then Some r1
      else
        match r1 with
        | EmptyString => None
        | String b r2 =>
            if JsString.ws2 a b then Some r2
            else
              match r2 with
              | EmptyString => None
              | String c r3 => if JsString.ws3 a b c then Some r3 else None
              end
        end
  end.

(** The first character of [s], if any, is no digit. *)
Definition no_digit_ahead (s : string) : Prop :=
  match s with
  | EmptyString => True
  | String c _ => Nlp.digit c = false
  end.


(* ===================================================================== *)
(** ** Lists: [findIndex], in-place update, removal *)
(* ===================================================================== *)

Section ListFacts.

Context {A : Type}.

Lemma alter_lookup_insert (f : A → A) (l : list A) i x :
  l !! i = Some x → alter f i l = <[i := f x]> l.
Proof.
  revert i. induction l as [|y l IH]; intros [|i] Hi; simplify_eq/=; try done.
  f_equal. by apply IH.
Qed.

Lemma alter_fmap_same {B} (k : A → B) (f : A → A) (l : list A) i :
  (∀ x, k (f x) = k x) → k <$> alter f i l = k <$> l.
Proof.
  intros Hk. revert i. induction l as [|y l IH]; intros [|i]; simpl; try done.
  - by rewrite Hk.
  - f_equal. apply IH.
Qed.

Lemma Forall_alter_pres (P : A → Prop) (f : A → A) (l : list A) i :
  (∀ x, P x → P (f x)) → Forall P l → Forall P (alter f i l).
Proof.
  intros Hf Hl. revert i.
  induction Hl as [|y l Hy Hl IH]; intros [|i]; simpl; try done.
  - constructor; auto.
  - constructor; [done | apply IH].
Qed.

End ListFacts.

Lemma line_key_set_quantity q oi : line_key (set_quantity q oi) = line_key oi.
Proof. done. Qed.

Lemma same_line_key id notes oi :
  same_line id notes oi ↔ line_key oi = (id, notes).
Proof. unfold same_line, line_key. split; [intros [-> ->]; done | by inversion 1]. Qed.

Lemma find_none_key_fresh id notes (l : list OrderItem) :
  list_find (same_line id notes) l = None → (id, notes) ∉ line_key <$> l.
Proof.
  rewrite list_find_None, Forall_forall. intros Hl Hin.
  apply list_elem_of_fmap in Hin as (oi & Heq & Hoi).
  apply (Hl oi Hoi). by apply same_line_key.
Qed.

Lemma distinct_lines_push l oi :
  distinct_lines l → line_key oi ∉ line_key <$> l → distinct_lines (l ++ [oi]).
Proof.
  unfold distinct_lines. intros Hl Hoi. rewrite fmap_app. apply NoDup_app.
  split; [done|]. split; [|apply NoDup_singleton].
  intros k Hk Hk'. apply list_elem_of_singleton in Hk'. by subst.
Qed.

Lemma distinct_lines_delete l i : distinct_lines l → distinct_lines (delete i l).
Proof.
  unfold distinct_lines. rewrite list_fmap_delete.
  intros Hl. eapply sublist_NoDup; [done | apply sublist_delete].
Qed.

Lemma distinct_lines_alter q l i :
  distinct_lines l →
  distinct_lines (alter (λ oi, set_quantity (q oi) oi) i l).
Proof. unfold distinct_lines. by rewrite alter_fmap_same. Qed.

Lemma find_none_delete id notes (l : list OrderItem) i :
  list_find (same_line id notes) l = None →
  list_find (same_line id notes) (delete i l) = None.
Proof. rewrite !list_find_None. apply Forall_delete. Qed.


Section Keyed.

Implicit Types (W L N : list OrderItem) (k : string * string).
Implicit Types (P : list (MenuItem * Z * string)).

Lemma filter_all {A} (Q : A → Prop) `{∀ x, Decision (Q x)} (l : list A) :
  Forall Q l → filter Q l = l.
Proof. induction 1; [done|]. rewrite filter_cons_True by done. by f_equal. Qed.

Lemma find_some_key id n W i x :
  list_find (same_line id n) W = Some (i, x) →
  W !! i = Some x ∧ line_key x = (id, n).
Proof.
  intros (Hi & Hx & _)%list_find_Some. split; [done|]. by apply same_line_key.
Qed.

Lemma key_in_find id n W :
  (id, n) ∈ line_key <$> W → ∃ i x, list_find (same_line id n) W = Some (i, x).
Proof.
  intros (x & Hk & Hx)%list_elem_of_fmap.
  destruct (list_find_elem_of (same_line id n) W x Hx) as [[i y] Hfind].
  - by apply same_line_key.
  - eauto.
Qed.

Lemma find_none_iff id n W :
  list_find (same_line id n) W = None ↔ (id, n) ∉ line_key <$> W.
Proof.
  split; [apply find_none_key_fresh|].
  intros Hk. destruct (list_find _ W) as [[i x]|] eqn:Hfind; [|done].
  apply find_some_key in Hfind as [Hi Hx]. exfalso. apply Hk.
  rewrite <- Hx. apply list_elem_of_fmap_2. by eapply list_elem_of_lookup_2.
Qed.

Lemma distinct_other_key W i j x y :
  distinct_lines W → W !! i = Some x → W !! j = Some y → i ≠ j →
  line_key y ≠ line_key x.
Proof.
  intros Hd Hi Hj Hij Heq. apply Hij.
  eapply (NoDup_lookup _ i j (line_key x) Hd).
  - by rewrite list_lookup_fmap, Hi.
  - rewrite list_lookup_fmap, Hj. simpl. by rewrite Heq.
Qed.

Lemma alter_keyed f W i x :
  distinct_lines W → W !! i = Some x →
  alter f i W = upd (line_key x) f <$> W.
Proof.
  intros Hd Hi. apply list_eq. intros j.
  rewrite list_lookup_fmap. destruct (decide (i = j)) as [<-|Hij].
  - rewrite list_lookup_alter_eq, Hi. simpl. unfold upd.
    by rewrite decide_True.
  - rewrite list_lookup_alter_ne by done.
    destruct (W !! j) as [y|] eqn:Hj; simpl; [|done].
    unfold upd. rewrite decide_False; [done|].
    by eapply distinct_other_key.
Qed.

Lemma delete_keyed W i x :
  distinct_lines W → W !! i = Some x →
  delete i W = filter (λ y, line_key y ≠ line_key x) W.
Proof.
  unfold distinct_lines.
  revert i. induction W as [|y W IH]; intros [|i] Hd Hi; simplify_eq/=;
    apply NoDup_cons in Hd as [Hnotin Hd].
  - rewrite filter_cons_False by (by intros H). symmetry. apply filter_all.
    apply Forall_forall. intros z Hz Heq. apply Hnotin. rewrite <- Heq.
    by apply list_elem_of_fmap_2.
  - rewrite filter_cons_True.
    + f_equal. by apply IH.
    + intros Heq. apply Hnotin. rewrite Heq. apply list_elem_of_fmap_2.
      by eapply list_elem_of_lookup_2.
Qed.

Lemma line_key_bump P oi : line_key (bump P oi) = line_key oi.
Proof. done. Qed.

Lemma keys_bump P L : line_key <$> (bump P <$> L) = line_key <$> L.
Proof. rewrite <- list_fmap_compose. by apply list_fmap_ext. Qed.

Lemma keys_upd k f W :
  (∀ oi, line_key (f oi) = line_key oi) →
  line_key <$> (upd k f <$> W) = line_key <$> W.
Proof.
  intros Hf. rewrite <- list_fmap_compose. apply list_fmap_ext.
  intros i x _. simpl. unfold upd. by destruct (decide _).
Qed.

Lemma set_quantity_same oi : set_quantity (quantity oi) oi = oi.
Proof. by destruct oi. Qed.

Lemma pending_sum_app P r k :
  pending_sum (P ++ [r]) k
  = pending_sum P k + (if decide (resolved_key r = k) then r.1.2 else 0).
Proof. induction P as [|r' P IH]; simpl; [lia|]. rewrite IH. lia. Qed.

Lemma pending_sum_nonneg P k :
  Forall (λ r, 0 < r.1.2) P → 0 ≤ pending_sum P k.
Proof.
  induction 1 as [|r P Hr _ IH]; simpl; [done|]. destruct (decide _); lia.
Qed.

Lemma pending_sum_absent P k :
  Forall (λ r, resolved_key r ≠ k) P → pending_sum P k = 0.
Proof.
  induction 1 as [|r P Hr _ IH]; simpl; [done|].
  by rewrite decide_False.
Qed.

Lemma pending_sum_present P k r :
  Forall (λ r, 0 < r.1.2) P → r ∈ P → resolved_key r = k → 0 < pending_sum P k.
Proof.
  intros Hpos Hin Hk. induction Hpos as [|r' P Hr' Hpos IH]; [by inv Hin|].
  simpl. apply elem_of_cons in Hin as [->|Hin].
  - rewrite decide_True by done.
    pose proof (pending_sum_nonneg P k Hpos). lia.
  - specialize (IH Hin). destruct (decide _); lia.
Qed.

Lemma accounted_distinct L P W :
  distinct_lines L → accounted L P W → distinct_lines W.
Proof.
  intros HL (N & -> & HN & HNk & _). unfold distinct_lines.
  rewrite fmap_app, keys_bump. apply NoDup_app. split; [done|]. split; [|done].
  intros k Hk (x & -> & Hx)%list_elem_of_fmap.
  rewrite Forall_forall in HNk. by destruct (HNk x Hx) as [Hfresh _].
Qed.

Lemma accounted_start L : accounted L [] L.
Proof.
  exists []. rewrite app_nil_r. split; [|split; [constructor|by split]].
  rewrite <- (list_fmap_id L) at 1. apply list_fmap_ext.
  intros i x _. unfold bump. simpl. rewrite Z.add_0_r.
  by rewrite set_quantity_same.
Qed.

Lemma accounted_end L W : accounted L [] W → W = L.
Proof.
  intros (N & -> & _ & HN & _). destruct N as [|x N].
  - rewrite app_nil_r. rewrite <- (list_fmap_id L) at 2. apply list_fmap_ext.
    intros i x _. unfold bump. simpl. rewrite Z.add_0_r.
    by rewrite set_quantity_same.
  - apply Forall_cons in HN as [(_ & Hq & Hpos) _]. simpl in Hq. lia.
Qed.

End Keyed.

(** ** Strings: trimming *)

Section Strings.

Import JsString.
Local Open Scope string_scope.

Implicit Types (s t u : string) (a b c : ascii).

Lemma app_cons a s t : String a s ++ t = String a (s ++ t).
Proof. done. Qed.

Lemma app_empty_l s : "" ++ s = s.
Proof. done. Qed.

Lemma app_empty_r s : s ++ "" = s.
Proof. induction s as [|a s IH]; [done|]. by rewrite app_cons, IH. Qed.

Lemma app_assoc_s s t u : (s ++ t) ++ u = s ++ t ++ u.
Proof. induction s as [|a s IH]; [done|]. by rewrite !app_cons, IH. Qed.

Lemma rev_onto_spec s acc : rev_onto s acc = rev s ++ acc.
Proof.
  unfold rev. revert acc. induction s as [|a s IH]; intros acc; simpl; [done|].
  by rewrite IH, (IH (String a "")), app_assoc_s, app_cons, app_empty_l.
Qed.

Lemma rev_cons a s : rev (String a s) = rev s ++ String a "".
Proof. unfold rev at 1. simpl. apply rev_onto_spec. Qed.

Lemma rev_app s t : rev (s ++ t) = rev t ++ rev s.
Proof.
  induction s as [|a s IH].
  - by rewrite app_empty_l, app_empty_r.
  - by rewrite app_cons, !rev_cons, IH, app_assoc_s.
Qed.

Lemma rev_involutive s : rev (rev s) = s.
Proof.
  induction s as [|a s IH]; [done|].
  by rewrite rev_cons, rev_app, IH.
Qed.

(** A first byte below 194 that is no white space starts no white space. *)
Lemma trimStart_plain a s :
  ws1 a = false → (nat_of_ascii a < 194)%nat →
  trimStart (String a s) = String a s.
Proof.
  intros Hws Ha. simpl. rewrite Hws.
  assert (∀ b, ws2 a b = false) as H2.
  { intros b. unfold ws2. apply andb_false_iff. left. apply Nat.eqb_neq. lia. }
  assert (∀ b c, ws3 a b c = false) as H3.
  { intros b c. unfold ws3.
    repeat (apply orb_false_iff; split);
      repeat (apply andb_false_iff; left); apply Nat.eqb_neq; lia. }
  destruct s as [|b [|c s]]; [done|by rewrite H2|by rewrite H2, H3].
Qed.

(** A last byte below 128 that is no white space ends no white space. *)
Lemma trimStart_rev_plain a s :
  ws1 a = false → (nat_of_ascii a < 128)%nat →
  trimStart_rev (String a s) = String a s.
Proof.
  intros Hws Ha. simpl. rewrite Hws.
  assert (∀ b, ws2 b a = false) as H2.
  { intros b. unfold ws2. apply andb_false_iff. right. apply Nat.eqb_neq. lia. }
  assert (∀ b c, ws3 c b a = false) as H3.
  { intros b c. unfold ws3.
    repeat (apply orb_false_iff; split);
      try (apply andb_false_iff; right; apply Nat.eqb_neq; lia).
    apply andb_false_iff; right.
    repeat (apply orb_false_iff; split); try (apply Nat.eqb_neq; lia).
    apply andb_false_iff. left. apply Nat.leb_gt. lia. }
  destruct s as [|b [|c s]]; [done|by rewrite H2|by rewrite H2, H3].
Qed.

Lemma trimEnd_plain a s :
  ws1 a = false → (nat_of_ascii a < 128)%nat →
  trimEnd (s ++ String a "") = s ++ String a "".
Proof.
  intros Hws Ha. unfold trimEnd. rewrite rev_app.
  change (rev (String a "")) with (String a ""). rewrite app_cons, app_empty_l.
  rewrite trimStart_rev_plain by done.
  by rewrite rev_cons, rev_involutive.
Qed.

End Strings.

Section Rupee.

Import JsString Decimal.
Local Open Scope string_scope.

Implicit Types (s t u : string) (a b c : ascii).

Lemma trimStart_rupee t : trimStart (rupee ++ t) = rupee ++ t.
Proof. reflexivity. Qed.

(** Scanning from the end never eats into the bytes of the currency symbol:
    no white space ends with [185], [130 185] or [226 130 185]. *)
Lemma trimStart_rev_rupee (n : nat) u :
  (String.length u ≤ n)%nat →
  ∃ u', trimStart_rev (u ++ rev rupee) = u' ++ rev rupee.
Proof.
  revert u. induction n as [n IH] using lt_wf_ind. intros u Hlen.
  destruct u as [|a r1]; [by exists ""|].
  rewrite app_cons. simpl trimStart_rev.
  destruct (ws1 a).
  { apply (IH (String.length r1)); simpl in *; lia. }
  destruct r1 as [|b r2].
  { exists (String a ""). reflexivity. }
  rewrite app_cons. destruct (ws2 b a).
  { apply (IH (String.length r2)); simpl in *; lia. }
  destruct r2 as [|c r3].
  { exists (String a (String b "")). 
    change ("" ++ rev rupee) with (rev rupee). cbn.
    assert (ws3 "185" b a = false) as -> by reflexivity. reflexivity. }
  rewrite app_cons. destruct (ws3 c b a).
  { apply (IH (String.length r3)); simpl in *; lia. }
  exists (String a (String b (String c r3))). reflexivity.
Qed.

Lemma trim_rupee t : ∃ t', trim (rupee ++ t) = rupee ++ t'.
Proof.
  unfold trim. rewrite trimStart_rupee. unfold trimEnd.
  rewrite rev_app.
  destruct (trimStart_rev_rupee (String.length (rev t)) (rev t)) as [u' Hu'];
    [done|].
  rewrite Hu', rev_app, rev_involutive. eauto.
Qed.

(** [Number] of a text that starts with the currency symbol is [NaN]. *)
Lemma Number_rupee t : Number (rupee ++ t) = S754_nan.
Proof.
  unfold Number. destruct (trim_rupee t) as [t' ->]. reflexivity.
Qed.

End Rupee.

(** ** Decimal digits *)

Section Digits.

Import JsString Decimal.
Local Open Scope string_scope.
Local Open Scope Z_scope.

Implicit Types (s t u ds : string) (a b c : ascii).

Lemma digit_val_char d : 0 ≤ d ≤ 9 → digit_val (digit_char d) = Some d.
Proof.
  intros Hd.
  assert (d = 0 ∨ d = 1 ∨ d = 2 ∨ d = 3 ∨ d = 4 ∨ d = 5 ∨ d = 6 ∨ d = 7
          ∨ d = 8 ∨ d = 9) as Hcases by lia.
  repeat (destruct Hcases as [->|Hcases]; [reflexivity|]). by subst.
Qed.

Lemma digit_val_plain c d :
  digit_val c = Some d →
  ws1 c = false ∧ (nat_of_ascii c < 128)%nat ∧ 0 ≤ d ≤ 9.
Proof.
  unfold digit_val, ws1.
  destruct (_ && _) eqn:Hrange; [|done]. intros [= <-].
  apply andb_true_iff in Hrange as [H1%Z.leb_le H2%Z.leb_le].
  split; [|lia].
  apply orb_false_iff. split.
  - apply andb_false_iff. right. apply Nat.leb_gt. lia.
  - apply Nat.eqb_neq. lia.
Qed.

Lemma scan_digits_app ds rest acc cnt :
  all_digits ds = true →
  scan_digits (ds ++ rest) acc cnt
  = scan_digits rest (digits_value ds acc) (cnt + Z.of_nat (String.length ds)).
Proof.
  revert acc cnt. induction ds as [|c ds IH]; intros acc cnt Hds.
  - rewrite app_empty_l. simpl. by rewrite Z.add_0_r.
  - simpl in Hds. apply andb_true_iff in Hds as [Hc%bool_decide_eq_true Hds].
    destruct Hc as [d Hd]. rewrite app_cons. cbn [scan_digits]. rewrite Hd.
    rewrite IH by done. cbn [digits_value]. rewrite Hd. cbn [default].
    cbn [String.length]. rewrite Nat2Z.inj_succ. f_equal. lia.
Qed.

Lemma all_digits_snoc ds c :
  all_digits ds = true → is_Some (digit_val c) →
  all_digits (ds ++ String c "") = true.
Proof.
  intros Hds Hc. induction ds as [|c' ds IH].
  - rewrite app_empty_l. simpl. by rewrite bool_decide_eq_true_2.
  - rewrite app_cons. simpl in *.
    apply andb_true_iff in Hds as [-> Hds]. by rewrite IH.
Qed.

Lemma digits_value_snoc ds c acc :
  digits_value (ds ++ String c "") acc
  = 10 * digits_value ds acc + default 0 (digit_val c).
Proof.
  revert acc. induction ds as [|c' ds IH]; intros acc.
  - by rewrite app_empty_l.
  - rewrite app_cons. simpl. by rewrite IH.
Qed.

Lemma digits_fuel_spec fuel n acc :
  0 ≤ n < 10 ^ Z.of_nat (S fuel) →
  ∃ ds c, digits_fuel (S fuel) n acc = String c ds ++ acc
        ∧ all_digits (String c ds) = true
        ∧ digits_value (String c ds) 0 = n.
Proof.
  revert n acc. induction fuel as [|fuel IH]; intros n acc Hn.
  - exists "", (digit_char n). change (10 ^ Z.of_nat 1) with 10 in Hn.
    simpl digits_fuel. rewrite Z.mod_small by lia.
    assert ((n <? 10) = true) as -> by (apply Z.ltb_lt; lia).
    split; [done|]. simpl. rewrite digit_val_char by lia.
    split; [done|]. simpl. lia.
  - remember (S fuel) as fuel' eqn:Hfuel. simpl digits_fuel.
    destruct (Z.ltb_spec n 10) as [Hsmall|Hbig].
    + exists "", (digit_char n). rewrite Z.mod_small by lia.
      split; [done|]. simpl. rewrite digit_val_char by lia.
      split; [done|]. simpl. lia.
    + subst fuel'.
      destruct (IH (n / 10) (String (digit_char (n mod 10)) acc))
        as (ds & c & Heq & Hall & Hval).
      { split; [apply Z.div_pos; lia|].
        apply Z.div_lt_upper_bound; [lia|].
        rewrite Nat2Z.inj_succ, Z.pow_succ_r in Hn by lia. lia. }
      exists (ds ++ String (digit_char (n mod 10)) ""), c.
      rewrite Heq. pose proof (Z.mod_pos_bound n 10 ltac:(lia)) as Hmod.
      split; [by rewrite !app_cons, app_assoc_s|].
      split.
      * rewrite <- app_cons. apply all_digits_snoc; [done|].
        rewrite digit_val_char by lia. eauto.
      * rewrite <- app_cons, digits_value_snoc, Hval.
        rewrite digit_val_char by lia. simpl.
        pose proof (Z.div_mod n 10 ltac:(lia)). lia.
Qed.

Lemma decimal_spec n :
  0 ≤ n →
  ∃ ds c, decimal n = String c ds
        ∧ all_digits (String c ds) = true
        ∧ digits_value (String c ds) 0 = n.
Proof.
  intros Hn. unfold decimal.
  destruct (digits_fuel_spec (Z.to_nat (Z.log2 n)) n "") as (ds & c & Heq & H).
  - split; [done|]. rewrite Nat2Z.inj_succ, Z2Nat.id by apply Z.log2_nonneg.
    destruct (Z.eq_dec n 0) as [->|Hpos]; [done|].
    pose proof (Z.log2_spec n ltac:(lia)) as [_ Hlog].
    eapply Z.lt_le_trans; [exact Hlog|].
    apply Z.pow_le_mono_l. lia.
  - exists ds, c. by rewrite Heq, app_empty_r.
Qed.

End Digits.

(** ** Reading back what [formatPrice] wrote *)

Section ReadBack.

Import JsString Decimal.
Local Open Scope string_scope.
Local Open Scope Z_scope.

Implicit Types (s t u ds : string) (a b c : ascii) (n : Z).

Lemma digit_char_plain d :
  0 ≤ d ≤ 9 →
  ws1 (digit_char d) = false ∧ (nat_of_ascii (digit_char d) < 128)%nat.
Proof.
  intros Hd. pose proof (digit_val_plain _ _ (digit_val_char d Hd)). tauto.
Qed.

(** The text of [n] hundredths has no white space at either end. *)
Lemma trim_fixed2 (neg : bool) n :
  0 ≤ n →
  trim ((if neg then "-" else "") ++ fixed2_digits n)
  = (if neg then "-" else "") ++ fixed2_digits n.
Proof.
  intros Hn. unfold trim, fixed2_digits.
  destruct (decimal_spec (n / 100)) as (ds & c & -> & Hall & _).
  { apply Z.div_pos; lia. }
  assert (trimStart ((if neg then "-" else "")
            ++ String c ds ++ String "." (String (digit_char (n / 10 mod 10))
                 (String (digit_char (n mod 10)) "")))
          = (if neg then "-" else "")
            ++ String c ds ++ String "." (String (digit_char (n / 10 mod 10))
                 (String (digit_char (n mod 10)) ""))) as ->.
  { destruct neg.
    - by rewrite app_cons, trimStart_plain by (done || (apply Nat.ltb_lt; reflexivity)).
    - rewrite app_empty_l, app_cons.
      simpl in Hall. apply andb_true_iff in Hall as [Hc%bool_decide_eq_true _].
      destruct Hc as [d Hd]. apply digit_val_plain in Hd as (? & ? & _).
      apply trimStart_plain; [done|lia]. }
  destruct (digit_char_plain (n mod 10)) as [Hws Hlt].
  { pose proof (Z.mod_pos_bound n 10). lia. }
  replace ((if neg then "-" else "")
            ++ String c ds ++ String "." (String (digit_char (n / 10 mod 10))
                 (String (digit_char (n mod 10)) "")))
    with (((if neg then "-" else "")
            ++ String c ds ++ String "." (String (digit_char (n / 10 mod 10)) ""))
          ++ String (digit_char (n mod 10)) "").
  - by apply trimEnd_plain.
  - rewrite !app_assoc_s. do 2 f_equal.
Qed.

Lemma scan_fixed2 n :
  0 ≤ n →
  ∃ c t, fixed2_digits n = String c t
       ∧ is_Some (digit_val c)
       ∧ scan_digits (fixed2_digits n) 0 0
         = (n / 100, Z.of_nat (String.length (decimal (n / 100))),
            String "." (String (digit_char (n / 10 mod 10))
                          (String (digit_char (n mod 10)) ""))).
Proof.
  intros Hn. unfold fixed2_digits.
  destruct (decimal_spec (n / 100)) as (ds & c & Heq & Hall & Hval).
  { apply Z.div_pos; lia. }
  rewrite Heq. exists c. eexists. split; [by rewrite app_cons|].
  split.
  { simpl in Hall. by apply andb_true_iff in Hall as [Hc%bool_decide_eq_true _]. }
  rewrite scan_digits_app by done. rewrite Hval. reflexivity.
Qed.

(** [parseFloat] of the text of [n] hundredths is the binary64 value nearest
    to [n / 100]. *)
Lemma parseFloat_fixed2 (neg : bool) n :
  0 ≤ n →
  parseFloat ((if neg then "-" else "") ++ fixed2_digits n)
  = decimal_value neg n (-2).
Proof.
  intros Hn. unfold parseFloat.
  assert (trimStart ((if neg then "-" else "") ++ fixed2_digits n)
          = (if neg then "-" else "") ++ fixed2_digits n) as ->.
  { destruct (scan_fixed2 n Hn) as (c & t & -> & [d Hd] & _).
    apply digit_val_plain in Hd as (? & ? & _).
    destruct neg.
    - by rewrite app_cons, trimStart_plain by (done || (apply Nat.ltb_lt; reflexivity)).
    - rewrite app_empty_l. apply trimStart_plain; [done|lia]. }
  destruct (scan_fixed2 n Hn) as (c & t & Heq & [d Hd] & Hscan).
  assert (scan_decimal ((if neg then "-" else "") ++ fixed2_digits n)
          = Some (decimal_value neg n (-2), "")) as ->; [|done].
  unfold scan_decimal.
  assert (scan_sign ((if neg then "-" else "") ++ fixed2_digits n)
          = (neg, fixed2_digits n)) as ->.
  { destruct neg; [done|]. rewrite app_empty_l, Heq.
    unfold scan_sign. unfold digit_val in Hd.
    destruct c as [[] [] [] [] [] [] [] []]; try done. }
  assert (strip_prefix "Infinity" (fixed2_digits n) = None) as ->.
  { rewrite Heq. unfold digit_val in Hd.
    destruct c as [[] [] [] [] [] [] [] []]; try done. }
  rewrite Hscan.
  pose proof (Z.mod_pos_bound n 10 ltac:(lia)) as Hd0.
  pose proof (Z.mod_pos_bound (n / 10) 10 ltac:(lia)) as Hd1.
  cbn [scan_digits]. rewrite !digit_val_char by lia. cbn [scan_digits].
  assert ((0 <? Z.of_nat (String.length (decimal (n / 100))) + (0 + 1 + 1)) = true)
    as -> by (apply Z.ltb_lt; lia).
  cbn [scan_exponent].
  replace (10 * (10 * (n / 100) + n / 10 mod 10) + n mod 10) with n; [done|].
  assert (n / 100 = n / 10 / 10) as -> by (by rewrite Z.div_div by lia).
  pose proof (Z.div_mod n 10 ltac:(lia)).
  pose proof (Z.div_mod (n / 10) 10 ltac:(lia)). lia.
Qed.

Lemma parsePrice_money_text (neg : bool) n :
  0 ≤ n → parsePrice (PriceString (money_text neg n)) = decimal_value neg n (-2).
Proof.
  intros Hn. unfold parsePrice, money_text.
  change (replace_first rupee ""
            (rupee +:+ (if neg then "-" else "") +:+ fixed2_digits n))
    with ((if neg then "-" else "") ++ fixed2_digits n).
  rewrite trim_fixed2 by done. by apply parseFloat_fixed2.
Qed.

End ReadBack.

(** ** Rounding to binary64 *)

Section Rounding.

Import JsString Decimal.
Local Open Scope Z_scope.

Lemma div_nearest_even_bound a b :
  0 ≤ a → 0 < b →
  2 * Z.abs (b * div_nearest_even a b - a) ≤ b ∧ a / b ≤ div_nearest_even a b.
Proof.
  intros Ha Hb. unfold div_nearest_even.
  pose proof (Z.div_mod a b ltac:(lia)) as Hdm.
  pose proof (Z.mod_pos_bound a b Hb) as Hr.
  destruct (Z.compare_spec (2 * (a mod b)) b) as [Heq|Hlt|Hgt];
    [destruct (Z.even (a / b))|..]; lia.
Qed.

Lemma magnitude_cents n :
  1 ≤ n < exact_cents_bound → -7 ≤ magnitude n 100 ≤ 45.
Proof.
  unfold exact_cents_bound. intros Hn. unfold magnitude.
  change (Z.log2 100) with 6.
  pose proof (Z.log2_nonneg n) as Hlo.
  assert (Z.log2 n < 53) as Hhi by (apply Z.log2_lt_pow2; lia).
  destruct (Z.leb_spec (100 * 2 ^ Z.max 0 (Z.log2 n - 6))
                       (n * 2 ^ Z.max 0 (- (Z.log2 n - 6)))) as [Hle|Hgt];
    [|lia].
  split; [lia|].
  destruct (Z.eq_dec (Z.log2 n) 52) as [H52|]; [|lia].
  rewrite H52 in Hle. change (Z.max 0 (52 - 6)) with 46 in Hle.
  change (Z.max 0 (- (52 - 6))) with 0 in Hle. lia.
Qed.

(** The binary64 value nearest to [n / 100], for [n] below the bound: its
    exponent is small enough for the hundredths to be read back. *)
Lemma round_ratio_cents (s : bool) n :
  1 ≤ n < exact_cents_bound →
  ∃ m k, round_ratio s n 100 = S754_finite s m (- k)
       ∧ 6 ≤ k ≤ 59
       ∧ 2 * Z.abs (100 * Zpos m - n * 2 ^ k) < 2 ^ k.
Proof.
  intros Hn. pose proof (magnitude_cents n Hn) as Hmag.
  unfold round_ratio.
  assert ((n =? 0) = false) as -> by (apply Z.eqb_neq; lia).
  set (mag := magnitude n 100) in *.
  rewrite (Z.max_l (mag - 52) (-1074)) by lia.
  rewrite (Z.max_r 0 (- (mag - 52))) by lia.
  rewrite (Z.max_l 0 (mag - 52)) by lia.
  set (k := - (mag - 52)). assert (7 ≤ k ≤ 59) as Hk by lia.
  change (2 ^ 0) with 1. rewrite Z.mul_1_r.
  assert (0 < 2 ^ k) as Hpow by (apply Z.pow_pos_nonneg; lia).
  assert (2 ^ 7 ≤ 2 ^ k) as Hpow7 by (apply Z.pow_le_mono_r; lia).
  change (2 ^ 7) with 128 in Hpow7.
  destruct (div_nearest_even_bound (n * 2 ^ k) 100) as [Hnear Hlow]; [nia|lia|].
  assert (1 ≤ (n * 2 ^ k) / 100) as Hq.
  { apply Z.div_le_lower_bound; nia. }
  set (m0 := div_nearest_even (n * 2 ^ k) 100) in *.
  destruct (Z.eqb_spec m0 (2 ^ 53)) as [Hm|Hm].
  - assert ((mag - 52 + 1 <=? emax - prec) = true) as ->
      by (apply Z.leb_le; unfold emax, prec; lia).
    exists (Z.to_pos (2 ^ 52)), (k - 1).
    split; [f_equal; lia|]. split; [lia|].
    change (Z.pos (Z.to_pos (2 ^ 52))) with (2 ^ 52).
    assert (2 ^ k = 2 * 2 ^ (k - 1)) as Hk2.
    { rewrite <- Z.pow_succ_r by lia. f_equal. lia. }
    assert (2 ^ 6 ≤ 2 ^ (k - 1)) as Hpow6 by (apply Z.pow_le_mono_r; lia).
    change (2 ^ 6) with 64 in Hpow6.
    rewrite Hm in Hnear. change (2 ^ 53) with (2 * 2 ^ 52) in Hnear.
    set (P := 2 ^ (k - 1)) in *. set (M := 2 ^ 52) in *. lia.
  - destruct m0 as [|p|p] eqn:Hm0; [lia| |lia].
    assert ((mag - 52 <=? emax - prec) = true) as ->
      by (apply Z.leb_le; unfold emax, prec; lia).
    exists p, k. split; [f_equal; lia|]. split; [lia|].
    set (P := 2 ^ k) in *. lia.
Qed.

Lemma round_half_up_cents m k n :
  0 ≤ k →
  2 * Z.abs (100 * m - n * 2 ^ k) < 2 ^ k →
  round_half_up_scaled m (- k) = n.
Proof.
  intros Hk Hnear. unfold round_half_up_scaled.
  destruct (Z.leb_spec 0 (- k)) as [Hk0|Hk0].
  { assert (k = 0) as -> by lia. change (- 0) with 0.
    change (2 ^ 0) with 1 in *. lia. }
  rewrite Z.opp_involutive.
  replace (1 - - k) with (Z.succ k) by lia. rewrite Z.pow_succ_r by lia.
  set (P := 2 ^ k) in *.
  symmetry. apply (Z.div_unique _ _ _ (200 * m + P - n * (2 * P))).
  - left. lia.
  - lia.
Qed.

End Rounding.

(** ** The Money round trip *)

Section MoneyRoundTrip.

Import JsString Decimal.
Local Open Scope Z_scope.

Lemma round_half_up_nonneg m e : 0 ≤ round_half_up_scaled (Zpos m) e.
Proof.
  unfold round_half_up_scaled. destruct (Z.leb_spec 0 e) as [He|He].
  - assert (0 ≤ 2 ^ e) by (apply Z.pow_nonneg; lia). nia.
  - assert (0 < 2 ^ (- e)) by (apply Z.pow_pos_nonneg; lia).
    assert (0 < 2 ^ (1 - e)) by (apply Z.pow_pos_nonneg; lia).
    apply Z.div_pos; lia.
Qed.

Lemma toFixed2_finite (s : bool) m e :
  below_1e21 (S754_finite s m e) = true →
  formatPrice (S754_finite s m e)
  = money_text s (round_half_up_scaled (Zpos m) e).
Proof.
  unfold below_1e21, formatPrice, money_text, toFixed2.
  intros Hlt%negb_true_iff. by rewrite Hlt.
Qed.

(** Parsing what [formatPrice] wrote gives the amount rounded to two
    decimals. *)
Lemma parse_format x :
  below_1e21 x = true → parsePrice (PriceString (formatPrice x)) = round2 x.
Proof.
  intros Hx. destruct x as [s|[]| |s m e]; try reflexivity.
  rewrite toFixed2_finite by done.
  apply parsePrice_money_text, round_half_up_nonneg.
Qed.

Lemma decimal_value_cents (neg : bool) n :
  decimal_value neg n (-2) = round_ratio neg n 100.
Proof.
  unfold decimal_value. change (10 ^ Z.max 0 (-2)) with 1.
  change (10 ^ Z.max 0 (- -2)) with 100. by rewrite Z.mul_1_r.
Qed.

(** Formatting what [parsePrice] read gives the text back, for amounts
    below the bound. *)
Lemma format_parse (neg : bool) n :
  0 ≤ n < exact_cents_bound → (neg = true → n ≠ 0) →
  formatPrice (parsePrice (PriceString (money_text neg n))) = money_text neg n.
Proof.
  intros Hn Hneg. rewrite parsePrice_money_text, decimal_value_cents by lia.
  destruct (Z.eq_dec n 0) as [->|Hn0].
  { destruct neg; [by destruct Hneg|reflexivity]. }
  destruct (round_ratio_cents neg n) as (m & k & -> & Hk & Hnear); [lia|].
  rewrite toFixed2_finite.
  - f_equal. apply round_half_up_cents; [lia|done].
  - unfold below_1e21. apply negb_true_iff, Z.leb_gt.
    rewrite Z.opp_involutive, (Z.max_r 0 k), (Z.max_l 0 (- k)) by lia.
    change (2 ^ 0) with 1. unfold exact_cents_bound in Hn.
    assert (0 < 2 ^ k) by (apply Z.pow_pos_nonneg; lia).
    set (P := 2 ^ k) in *. change (2 ^ 46) with 70368744177664 in Hn.
    change (10 ^ 21) with 1000000000000000000000. nia.
Qed.

End MoneyRoundTrip.

(** ** Numbers of magnitude [10^21] and above *)

Section Large.

Import JsString Decimal.
Local Open Scope string_scope.
Local Open Scope Z_scope.

Lemma digits2_size p : digits2_pos p = Pos.size p.
Proof. induction p as [p IH|p IH|]; simpl; by rewrite ?IH. Qed.

Lemma digits2_log2 p : Zpos (digits2_pos p) = Z.succ (Z.log2 (Zpos p)).
Proof.
  rewrite digits2_size. destruct p as [p|p|]; simpl; try done; lia.
Qed.

(** A binary64 value with a positive exponent has a full mantissa. *)
Lemma valid_normal (s : bool) m e :
  valid_binary prec emax (S754_finite s m e) = true → 0 < e →
  2 ^ 52 ≤ Zpos m < 2 ^ 53 ∧ e ≤ 971.
Proof.
  unfold valid_binary, bounded, canonical_mantissa, fexp, emin, prec, emax.
  intros [Hcanon%Z.eqb_eq Hle%Z.leb_le]%andb_true_iff He.
  rewrite digits2_log2 in Hcanon.
  assert (Z.log2 (Zpos m) = 52) as Hlog by lia.
  pose proof (Z.log2_spec (Zpos m) ltac:(lia)) as Hspec. rewrite Hlog in Hspec.
  change (Z.succ 52) with 53 in Hspec. lia.
Qed.

Lemma div_nearest_even_exact q b : 0 < b → div_nearest_even (q * b) b = q.
Proof.
  intros Hb. unfold div_nearest_even.
  rewrite Z.div_mul, Z.mod_mul by lia.
  destruct (Z.compare_spec (2 * 0) b); [lia|done|lia].
Qed.

(** A rational that is a binary64 value is rounded to itself. *)
Lemma round_ratio_scaled (s : bool) c m e :
  0 < c → 2 ^ 52 ≤ Zpos m < 2 ^ 53 → 0 ≤ e ≤ 971 →
  round_ratio s (c * (Zpos m * 2 ^ e)) c = S754_finite s m e.
Proof.
  intros Hc Hm He. unfold round_ratio.
  assert (0 < 2 ^ e) as Hpow by (apply Z.pow_pos_nonneg; lia).
  set (a := c * (Zpos m * 2 ^ e)).
  assert (c * 2 ^ (52 + e) ≤ a < c * 2 ^ (53 + e)) as Ha.
  { unfold a. rewrite !Z.pow_add_r by lia. nia. }
  assert (0 < a) as Hapos by (unfold a; nia).
  assert ((a =? 0) = false) as -> by (apply Z.eqb_neq; lia).
  assert (magnitude a c = 52 + e) as ->.
  { unfold magnitude.
    pose proof (Z.log2_spec c Hc) as Hlc.
    pose proof (Z.log2_nonneg c) as Hlc0.
    assert (Z.log2 c + (52 + e) ≤ Z.log2 a) as Hlo.
    { apply Z.log2_le_pow2; [done|]. rewrite Z.pow_add_r by lia.
      assert (0 < 2 ^ (52 + e)) by (apply Z.pow_pos_nonneg; lia). nia. }
    assert (Z.log2 a < Z.succ (Z.log2 c) + (53 + e)) as Hhi.
    { apply Z.log2_lt_pow2; [done|]. rewrite Z.pow_add_r by lia.
      assert (0 < 2 ^ (53 + e)) by (apply Z.pow_pos_nonneg; lia). nia. }
    assert (Z.log2 a - Z.log2 c = 52 + e ∨ Z.log2 a - Z.log2 c = 53 + e)
      as [->| ->] by lia.
    - rewrite (Z.max_r 0 (52 + e)), (Z.max_l 0 (- (52 + e))) by lia.
      change (2 ^ 0) with 1.
      destruct (Z.leb_spec (c * 2 ^ (52 + e)) (a * 1)); [done|lia].
    - rewrite (Z.max_r 0 (53 + e)), (Z.max_l 0 (- (53 + e))) by lia.
      change (2 ^ 0) with 1.
      destruct (Z.leb_spec (c * 2 ^ (53 + e)) (a * 1)); lia. }
  replace (52 + e - 52) with e by lia.
  rewrite (Z.max_l e (-1074)), (Z.max_l 0 (- e)), (Z.max_r 0 e) by lia.
  change (2 ^ 0) with 1. rewrite Z.mul_1_r.
  replace a with (Zpos m * (c * 2 ^ e)) by (unfold a; lia).
  rewrite div_nearest_even_exact by nia.
  assert ((Zpos m =? 2 ^ 53) = false) as -> by (apply Z.eqb_neq; lia).
  assert ((e <=? emax - prec) = true) as ->
    by (apply Z.leb_le; unfold emax, prec; lia).
  done.
Qed.

Lemma round_ratio_sign (s : bool) a b :
  round_ratio s a b
  = match round_ratio false a b with
    | S754_zero _ => S754_zero s
    | S754_infinity _ => S754_infinity s
    | S754_finite _ m e => S754_finite s m e
    | S754_nan => S754_nan
    end.
Proof.
  unfold round_ratio. destruct (a =? 0); [done|].
  destruct (div_nearest_even _ _ =? 2 ^ 53).
  - destruct (2 ^ 52); try done. by destruct (_ <=? _).
  - destruct (div_nearest_even _ _); try done. by destruct (_ <=? _).
Qed.

End Large.

(* ===================================================================== *)
(** ** Whole numbers in binary64 *)
(* ===================================================================== *)

Section WholeNumbers.

Implicit Types (n a b : Z) (s : bool).

Lemma magnitude_whole n : 1 ≤ n → magnitude n 1 = Z.log2 n.
Proof.
  intros Hn. unfold magnitude. change (Z.log2 1) with 0. rewrite Z.sub_0_r.
  pose proof (Z.log2_spec n ltac:(lia)) as Hlog.
  pose proof (Z.log2_nonneg n) as Hlog0.
  rewrite (Z.max_r 0 (Z.log2 n)), (Z.max_l 0 (- Z.log2 n)) by lia.
  change (2 ^ 0) with 1.
  destruct (Z.leb_spec (1 * 2 ^ Z.log2 n) (n * 1)); [done|lia].
Qed.

(** An integer below [2^53] is a binary64 value. *)
Lemma round_ratio_small_integer s n :
  1 ≤ n < 2 ^ 53 →
  ∃ m k, 0 ≤ k ≤ 52 ∧ Zpos m = n * 2 ^ k
         ∧ round_ratio s n 1 = S754_finite s m (- k).
Proof.
  intros Hn. unfold round_ratio.
  assert ((n =? 0) = false) as -> by (apply Z.eqb_neq; lia).
  pose proof (Z.log2_spec n ltac:(lia)) as Hlog.
  pose proof (Z.log2_nonneg n) as Hlog0.
  assert (Z.log2 n < 53) as Hlog53 by (apply Z.log2_lt_pow2; lia).
  rewrite magnitude_whole by lia.
  set (k := 52 - Z.log2 n).
  rewrite (Z.max_l (Z.log2 n - 52) (-1074)) by lia.
  replace (Z.log2 n - 52) with (- k) by (unfold k; lia).
  rewrite Z.opp_involutive.
  rewrite (Z.max_l 0 (- k)), (Z.max_r 0 k) by (unfold k; lia).
  change (2 ^ 0) with 1. change (1 * 1) with 1.
  assert (div_nearest_even (n * 2 ^ k) 1 = n * 2 ^ k) as Hdiv.
  { pose proof (div_nearest_even_exact (n * 2 ^ k) 1 ltac:(lia)) as H.
    by rewrite Z.mul_1_r in H. }
  rewrite Hdiv.
  assert (0 < 2 ^ k) as Hpow by (apply Z.pow_pos_nonneg; unfold k; lia).
  assert (n * 2 ^ k < 2 ^ 53) as Hlt.
  { replace 53 with (Z.succ (Z.log2 n) + k) by (unfold k; lia).
    rewrite Z.pow_add_r by (unfold k; lia). nia. }
  assert ((n * 2 ^ k =? 2 ^ 53) = false) as -> by (apply Z.eqb_neq; lia).
  destruct (n * 2 ^ k) as [|p|p] eqn:Hp; [nia| |nia].
  assert ((- k <=? emax - prec) = true) as ->
    by (apply Z.leb_le; unfold emax, prec, k; lia).
  exists p, k. split; [unfold k; lia|]. done.
Qed.

Lemma div_nearest_even_lower a b : 0 ≤ a → 0 < b → a / b ≤ div_nearest_even a b.
Proof.
  intros Ha Hb. unfold div_nearest_even.
  destruct (2 * (a mod b) ?= b); [destruct (Z.even _)|..]; lia.
Qed.

(** A whole number from [2^53] on is rounded to a number with a
    non-negative exponent, or to [Infinity]. *)
Lemma round_ratio_large_integer s n :
  2 ^ 53 ≤ n →
  round_ratio s n 1 = S754_infinity s
  ∨ ∃ m e, 0 ≤ e ∧ round_ratio s n 1 = S754_finite s m e.
Proof.
  intros Hn. unfold round_ratio.
  assert ((n =? 0) = false) as -> by (apply Z.eqb_neq; lia).
  pose proof (Z.log2_spec n ltac:(lia)) as Hlog.
  assert (53 ≤ Z.log2 n) as Hlog53 by (apply Z.log2_le_pow2; lia).
  rewrite magnitude_whole by lia.
  set (e := Z.log2 n - 52) in *.
  rewrite (Z.max_l e (-1074)), (Z.max_l 0 (- e)), (Z.max_r 0 e) by lia.
  change (2 ^ 0) with 1. rewrite Z.mul_1_r, Z.mul_1_l.
  assert (0 < 2 ^ e) as Hpow by (apply Z.pow_pos_nonneg; lia).
  assert (2 ^ 52 ≤ n / 2 ^ e) as Hq.
  { apply Z.div_le_lower_bound; [done|].
    rewrite <- Z.pow_add_r by lia. replace (e + 52) with (Z.log2 n) by lia.
    lia. }
  pose proof (div_nearest_even_lower n (2 ^ e) ltac:(lia) Hpow) as Hm.
  destruct (div_nearest_even n (2 ^ e) =? 2 ^ 53).
  - change (2 ^ 52) with (Zpos (2 ^ 52)%positive).
    destruct (e + 1 <=? emax - prec); [right|by left].
    exists (2 ^ 52)%positive, (e + 1). split; [lia|done].
  - destruct (div_nearest_even n (2 ^ e)) as [|p|p] eqn:Hp; [lia| |lia].
    destruct (e <=? emax - prec); [right|by left].
    exists p, e. split; [lia|done].
Qed.

(** Every whole number from 1 on is rounded to a whole number from 1 on,
    or to [Infinity]. *)
Lemma of_Z_positive n :
  1 ≤ n →
  of_Z n = S754_infinity false
  ∨ ∃ m e k, of_Z n = S754_finite false m e ∧ 1 ≤ k
             ∧ Zpos m * 2 ^ Z.max 0 e = k * 2 ^ Z.max 0 (- e).
Proof.
  intros Hn. unfold of_Z.
  assert ((n <? 0) = false) as -> by (apply Z.ltb_ge; lia).
  rewrite Z.abs_eq by lia.
  destruct (Z.lt_ge_cases n (2 ^ 53)) as [Hsmall|Hlarge].
  - destruct (round_ratio_small_integer false n ltac:(lia))
      as (m & k & Hk & Hm & ->).
    right. exists m, (- k), n. split; [done|]. split; [done|].
    rewrite (Z.max_l 0 (- k)), Z.opp_involutive, (Z.max_r 0 k) by lia.
    change (2 ^ 0) with 1. lia.
  - destruct (round_ratio_large_integer false n Hlarge) as [->|(m & e & He & ->)];
      [by left|right].
    exists m, e, (Zpos m * 2 ^ e). split; [done|].
    assert (0 < 2 ^ e) by (apply Z.pow_pos_nonneg; lia).
    split; [nia|].
    rewrite (Z.max_r 0 e), (Z.max_l 0 (- e)) by lia.
    change (2 ^ 0) with 1. lia.
Qed.

Lemma to_Z_of_Z_small n : - 2 ^ 53 < n < 2 ^ 53 → to_Z (of_Z n) = n.
Proof.
  intros Hn. unfold of_Z.
  destruct (Z.eq_dec n 0) as [->|Hn0]; [done|].
  destruct (round_ratio_small_integer (n <? 0) (Z.abs n) ltac:(lia))
    as (m & k & Hk & Hm & ->).
  unfold to_Z. rewrite Z.opp_involutive.
  assert (0 < 2 ^ k) as Hpow by (apply Z.pow_pos_nonneg; lia).
  assert ((if 0 <=? - k then Zpos m * 2 ^ (- k) else Zpos m / 2 ^ k) = Z.abs n)
    as ->.
  { destruct (Z.leb_spec 0 (- k)).
    - assert (k = 0) as -> by lia. change (2 ^ (- 0)) with 1.
      change (2 ^ 0) with 1 in Hm. lia.
    - rewrite Hm. by rewrite Z.div_mul by lia. }
  destruct (Z.ltb_spec n 0); lia.
Qed.

Lemma to_Z_of_Z_positive n : 1 ≤ n → 1 ≤ to_Z (of_Z n).
Proof.
  intros Hn. destruct (of_Z_positive n Hn) as [->|(m & e & k & -> & Hk & Hval)].
  - simpl. unfold emax. lia.
  - unfold to_Z. destruct (Z.leb_spec 0 e) as [He|He].
    + assert (0 < 2 ^ e) by (apply Z.pow_pos_nonneg; lia). nia.
    + rewrite (Z.max_l 0 e), (Z.max_r 0 (- e)) in Hval by lia.
      change (2 ^ 0) with 1 in Hval. rewrite Z.mul_1_r in Hval.
      rewrite Hval, Z.div_mul; [done|].
      apply Z.pow_nonzero; lia.
Qed.

Lemma infinite_false a : Z.abs a < 2 ^ 53 → infinite a = false.
Proof.
  intros Ha. unfold infinite. apply Z.leb_gt.
  assert (2 ^ 53 < 2 ^ emax) by (by apply Z.pow_lt_mono_r).
  lia.
Qed.

(** The sum and the difference of two finite quantities are those of the
    integers when they are below [2^53]. *)
Lemma plus_exact_finite a b :
  infinite a = false → infinite b = false →
  - 2 ^ 53 < a + b < 2 ^ 53 → plus a b = a + b.
Proof.
  intros Ha Hb Hsum. unfold plus. rewrite Ha, Hb. simpl.
  by apply to_Z_of_Z_small.
Qed.

Lemma minus_exact_finite a b :
  infinite a = false → infinite b = false →
  - 2 ^ 53 < a - b < 2 ^ 53 → minus a b = a - b.
Proof.
  intros Ha Hb Hsum. unfold minus. rewrite Ha, Hb. simpl.
  by apply to_Z_of_Z_small.
Qed.

Lemma plus_exact a b :
  0 ≤ a ∧ 0 ≤ b ∧ a + b < 2 ^ 53 → plus a b = a + b.
Proof.
  intros (Ha & Hb & Hsum).
  apply plus_exact_finite; [apply infinite_false..|]; lia.
Qed.

Lemma minus_exact a b :
  0 ≤ a < 2 ^ 53 ∧ 0 ≤ b < 2 ^ 53 → minus a b = a - b.
Proof.
  intros (Ha & Hb).
  apply minus_exact_finite; [apply infinite_false..|]; lia.
Qed.

(** At every magnitude, a positive sum or difference stays positive. *)
Lemma plus_positive a b : 0 < a + b → 0 < plus a b.
Proof.
  intros H. unfold plus, infinite.
  assert (0 < 2 ^ emax) as Hmax by done.
  destruct (Z.leb_spec (2 ^ emax) (Z.abs a)),
    (Z.leb_spec (2 ^ emax) (Z.abs b)); simpl.
  - pose proof (to_Z_of_Z_positive (a + b)). lia.
  - rewrite Z.sgn_pos by lia. lia.
  - rewrite Z.sgn_pos by lia. lia.
  - pose proof (to_Z_of_Z_positive (a + b)). lia.
Qed.

Lemma minus_positive a b : b < a → 0 < minus a b.
Proof.
  intros H. unfold minus, infinite.
  assert (0 < 2 ^ emax) as Hmax by done.
  destruct (Z.leb_spec (2 ^ emax) (Z.abs a)),
    (Z.leb_spec (2 ^ emax) (Z.abs b)); simpl.
  - pose proof (to_Z_of_Z_positive (a - b)). lia.
  - rewrite Z.sgn_pos by lia. lia.
  - rewrite Z.sgn_neg by lia. lia.
  - pose proof (to_Z_of_Z_positive (a - b)). lia.
Qed.

End WholeNumbers.

(** [F64.plus] and [F64.minus] against [SFadd] and [SFsub]: where the
    result is exact, where it is rounded, where it overflows, and where an
    operand is infinite. *)
Example plus_minus_are_binary64 :
  let sub := SFsub prec emax in
  let largest := 2 ^ 1024 - 2 ^ 971 in
  add (of_Z 3) (of_Z 4) = of_Z (plus 3 4)
  ∧ sub (of_Z 3) (of_Z 4) = of_Z (minus 3 4)
  ∧ add (of_Z (2 ^ 53)) (of_Z 1) = of_Z (plus (2 ^ 53) 1)
  ∧ plus (2 ^ 53) 1 = 2 ^ 53
  ∧ sub (of_Z (2 ^ 53 + 2)) (of_Z 1) = of_Z (minus (2 ^ 53 + 2) 1)
  ∧ minus (2 ^ 53 + 2) 1 = 2 ^ 53
  ∧ add (of_Z (2 ^ 60)) (of_Z 129) = of_Z (plus (2 ^ 60) 129)
  ∧ plus (2 ^ 60) 129 = 2 ^ 60 + 256
  ∧ sub (of_Z (2 ^ 60)) (of_Z (2 ^ 60 - 128)) = of_Z (minus (2 ^ 60) (2 ^ 60 - 128))
  ∧ add (of_Z largest) (of_Z 1) = of_Z (plus largest 1)
  ∧ plus largest 1 = largest
  ∧ add (of_Z largest) (of_Z largest) = of_Z (plus largest largest)
  ∧ plus largest largest = 2 ^ emax
  ∧ of_Z (2 ^ emax) = S754_infinity false
  ∧ add (of_Z (2 ^ emax)) (of_Z 1) = of_Z (plus (2 ^ emax) 1)
  ∧ add (of_Z (2 ^ emax)) (of_Z (- largest)) = of_Z (plus (2 ^ emax) (- largest))
  ∧ plus (2 ^ emax) (- largest) = 2 ^ emax
  ∧ add (of_Z 1) (of_Z (- 2 ^ emax)) = of_Z (plus 1 (- 2 ^ emax))
  ∧ add (of_Z (2 ^ emax)) (of_Z (2 ^ emax)) = of_Z (plus (2 ^ emax) (2 ^ emax))
  ∧ sub (of_Z (2 ^ emax)) (of_Z largest) = of_Z (minus (2 ^ emax) largest)
  ∧ minus (2 ^ emax) largest = 2 ^ emax
  ∧ sub (of_Z largest) (of_Z (2 ^ emax)) = of_Z (minus largest (2 ^ emax))
  ∧ sub (of_Z (2 ^ emax)) (of_Z (- 2 ^ emax))
    = of_Z (minus (2 ^ emax) (- 2 ^ emax)).
Proof. vm_compute. repeat split. Qed.

Section Exponent.

Import JsString Decimal.
Local Open Scope string_scope.
Local Open Scope Z_scope.

Implicit Types (s t u v ds : string) (a b c d : ascii).

Lemma shortest_at_sound m e X nd k r :
  0 ≤ X → shortest_at (S754_finite false m e) X nd k = Some r →
  0 ≤ r ∧ round_ratio false r 1 = S754_finite false m e.
Proof.
  intros HX. unfold shortest_at.
  set (p := 10 ^ (nd - k)).
  assert (0 ≤ p) as Hp by (apply Z.pow_nonneg; lia).
  assert (0 ≤ X / p * p) as Hlo.
  { destruct (Z.eq_dec p 0) as [->|]; [lia|].
    apply Z.mul_nonneg_nonneg; [apply Z.div_pos|]; lia. }
  set (ok := λ y : Z, match round_ratio false y 1 with
                      | S754_finite _ m1 e1 => (m1 =? m)%positive && (e1 =? e)
                      | _ => false
                      end).
  assert (∀ y : Z, ok y = true → round_ratio false y 1 = S754_finite false m e)
    as Hok.
  { intros y. unfold ok. pose proof (round_ratio_sign false y 1) as Hsign.
    destruct (round_ratio false y 1) as [| | |s0 m1 e1]; try done.
    intros [->%Pos.eqb_eq ->%Z.eqb_eq]%andb_true_iff. by rewrite Hsign. }
  fold (ok (X / p * p)). fold (ok (X / p * p + p)).
  destruct (ok (X / p * p)) eqn:Hoklo, (ok (X / p * p + p)) eqn:Hokhi;
    try done.
  - repeat case_match; intros [= <-]; (split; [lia|auto]).
  - intros [= <-]. auto.
  - intros [= <-]. split; [lia|auto].
Qed.

Lemma shortest_from_sound fuel m e X nd k :
  0 ≤ X → round_ratio false X 1 = S754_finite false m e →
  0 ≤ shortest_from fuel (S754_finite false m e) X nd k
  ∧ round_ratio false (shortest_from fuel (S754_finite false m e) X nd k) 1
    = S754_finite false m e.
Proof.
  intros HX Hexact. revert k. induction fuel as [|fuel IH]; intros k; simpl.
  - done.
  - destruct (shortest_at _ X nd k) as [r|] eqn:Hat; [|apply IH].
    by eapply shortest_at_sound.
Qed.

Lemma all_digits_app u v :
  all_digits (u ++ v) = all_digits u && all_digits v.
Proof.
  induction u as [|a u IH]; [done|].
  rewrite app_cons. simpl. by rewrite IH, andb_assoc.
Qed.

Lemma digits_value_app u v acc :
  digits_value (u ++ v) acc = digits_value v (digits_value u acc).
Proof.
  revert acc. induction u as [|a u IH]; intros acc; [done|].
  rewrite app_cons. simpl. by rewrite IH.
Qed.

Lemma digits_value_zeros z acc :
  digits_value (zeros z) acc = acc * 10 ^ Z.of_nat z.
Proof.
  revert acc. induction z as [|z IH]; intros acc.
  - simpl. lia.
  - cbn [zeros digits_value]. rewrite IH, Nat2Z.inj_succ, Z.pow_succ_r by lia.
    change (default 0 (digit_val "0")) with 0. lia.
Qed.

Lemma length_app u v :
  String.length (u ++ v) = (String.length u + String.length v)%nat.
Proof. induction u as [|a u IH]; [done|]. rewrite app_cons. simpl. by rewrite IH. Qed.

Lemma length_zeros z : String.length (zeros z) = z.
Proof. induction z as [|z IH]; simpl; by rewrite ?IH. Qed.

Lemma zeros_snoc z : zeros z ++ "0" = String "0" (zeros z).
Proof.
  induction z as [|z IH]; [done|].
  cbn [zeros]. by rewrite app_cons, IH.
Qed.

Lemma rev_zeros z : rev (zeros z) = zeros z.
Proof.
  induction z as [|z IH]; [done|].
  cbn [zeros]. by rewrite rev_cons, IH, zeros_snoc.
Qed.

Lemma strip_zeros_rev_spec r :
  ∃ z r', r = zeros z ++ r' ∧ strip_zeros_rev r = r'.
Proof.
  induction r as [|a r (z & r' & Hr & Hstrip)].
  - by exists 0%nat, "".
  - destruct (Ascii.eqb_spec a "0") as [->|Hne].
    + exists (S z), r'. cbn [zeros]. rewrite app_cons, <- Hr. done.
    + exists 0%nat, (String a r). split; [done|].
      simpl. destruct a as [[] [] [] [] [] [] [] []]; done.
Qed.

(** The significant digits of a digit string: the string is these digits
    followed by zeros. *)
Lemma significant_digits ds :
  ∃ z, ds = rev (strip_zeros_rev (rev ds)) ++ zeros z.
Proof.
  destruct (strip_zeros_rev_spec (rev ds)) as (z & r' & Hr & ->).
  exists z. by rewrite <- rev_zeros, <- rev_app, <- Hr, rev_involutive.
Qed.

End Exponent.

Section ExponentText.

Import JsString Decimal.
Local Open Scope string_scope.
Local Open Scope Z_scope.

Implicit Types (s t u v ds : string) (a b c d : ascii).

Lemma all_digits_last c ds :
  all_digits (String c ds) = true →
  ∃ u b, String c ds = u ++ String b "" ∧ is_Some (digit_val b).
Proof.
  revert c. induction ds as [|c' ds IH]; intros c Hall.
  - exists "", c. split; [done|].
    simpl in Hall. by apply andb_true_iff in Hall as [?%bool_decide_eq_true _].
  - cbn [all_digits] in Hall. apply andb_true_iff in Hall as [_ Hall].
    destruct (IH c' Hall) as (u & b & -> & Hb). by exists (String c u), b.
Qed.

(** A text that starts with a digit or a minus sign and ends with a digit
    has no white space at either end. *)
Lemma trim_plain_ends a u b :
  ws1 a = false → (nat_of_ascii a < 194)%nat →
  ws1 b = false → (nat_of_ascii b < 128)%nat →
  trim (String a (u ++ String b "")) = String a (u ++ String b "").
Proof.
  intros Ha1 Ha2 Hb1 Hb2. unfold trim. rewrite trimStart_plain by done.
  rewrite <- app_cons. by apply trimEnd_plain.
Qed.

Lemma scan_decimal_digits n :
  0 ≤ n →
  ∃ c ds, decimal n = String c ds
        ∧ all_digits (String c ds) = true
        ∧ scan_digits (decimal n) 0 0
          = (n, Z.of_nat (String.length (decimal n)), "").
Proof.
  intros Hn. destruct (decimal_spec n Hn) as (ds & c & Heq & Hall & Hval).
  exists c, ds. split; [done|]. split; [done|]. rewrite Heq.
  rewrite <- (app_empty_r (String c ds)) at 1.
  rewrite scan_digits_app by done. by rewrite Hval.
Qed.

Lemma scan_exponent_text E :
  0 ≤ E → scan_exponent ("e+" ++ decimal E) = (E, "").
Proof.
  intros HE. destruct (scan_decimal_digits E HE) as (c & ds & Heq & _ & Hscan).
  change ("e+" ++ decimal E) with (String "e" (String "+" (decimal E))).
  cbn [scan_exponent]. change (Ascii.eqb "e" "e") with true. cbn [orb].
  change (scan_sign (String "+" (decimal E))) with (false, decimal E).
  cbn beta iota. rewrite Hscan. rewrite Heq.
  assert ((0 <? Z.of_nat (String.length (String c ds))) = true) as ->; [|done].
  apply Z.ltb_lt. simpl. lia.
Qed.

Lemma scan_sign_digit (neg : bool) d t :
  is_Some (digit_val d) →
  scan_sign ((if neg then "-" else "") ++ String d t) = (neg, String d t)
  ∧ strip_prefix "Infinity" (String d t) = None.
Proof.
  intros [dv Hd]. unfold digit_val in Hd.
  destruct neg; [split; [done|]|rewrite app_empty_l];
    destruct d as [[] [] [] [] [] [] [] []]; done.
Qed.

Lemma parseFloat_exponent_text (neg : bool) d rest E :
  is_Some (digit_val d) → all_digits rest = true → 0 ≤ E →
  parseFloat ((if neg then "-" else "") ++ exponent_text d rest E)
  = decimal_value neg (digits_value (String d rest) 0)
                  (E - Z.of_nat (String.length rest)).
Proof.
  intros Hd Hrest HE. pose proof Hd as [dv Hdv].
  destruct (digit_val_plain _ _ Hdv) as (Hws & Hlt & _).
  assert (∃ t, exponent_text d rest E = String d t) as [t Ht].
  { unfold exponent_text. destruct rest; eauto. }
  unfold parseFloat.
  assert (trimStart ((if neg then "-" else "") ++ exponent_text d rest E)
          = (if neg then "-" else "") ++ exponent_text d rest E) as ->.
  { rewrite Ht. destruct neg.
    - by rewrite app_cons, trimStart_plain
        by (done || (apply Nat.ltb_lt; reflexivity)).
    - rewrite app_empty_l. apply trimStart_plain; [done|lia]. }
  assert (scan_decimal ((if neg then "-" else "") ++ exponent_text d rest E)
          = Some (decimal_value neg (digits_value (String d rest) 0)
                    (E - Z.of_nat (String.length rest)), "")) as ->; [|done].
  unfold scan_decimal. rewrite Ht.
  destruct (scan_sign_digit neg d t Hd) as [-> ->]. rewrite <- Ht.
  unfold exponent_text. destruct rest as [|r0 rest'].
  - cbn [scan_digits]. rewrite Hdv.
    change ("e+" ++ decimal E) with (String "e" (String "+" (decimal E))).
    cbn [scan_digits]. change (digit_val "e") with (@None Z). cbn beta iota.
    change (0 <? 0 + 1) with true. cbn beta iota.
    change (String "e" (String "+" (decimal E))) with ("e+" ++ decimal E).
    rewrite scan_exponent_text by done.
    cbn [digits_value String.length]. rewrite Hdv. simpl default.
    by rewrite Z.sub_0_r.
  - cbn [scan_digits]. rewrite Hdv.
    change ("." ++ String r0 rest' ++ "e+" ++ decimal E)
      with (String "." (String r0 rest' ++ "e+" ++ decimal E)).
    cbn [scan_digits]. change (digit_val ".") with (@None Z). cbn beta iota.
    rewrite scan_digits_app by done.
    change ("e+" ++ decimal E) with (String "e" (String "+" (decimal E))).
    cbn [scan_digits]. change (digit_val "e") with (@None Z). cbn beta iota.
    assert ((0 <? 0 + 1 + (0 + Z.of_nat (String.length (String r0 rest'))))
            = true) as -> by (apply Z.ltb_lt; lia).
    change (String "e" (String "+" (decimal E))) with ("e+" ++ decimal E).
    rewrite scan_exponent_text by done.
    cbn [digits_value]. rewrite Hdv. simpl default.
    by rewrite Z.add_0_l.
Qed.

Lemma trim_exponent_text (neg : bool) d rest E :
  is_Some (digit_val d) → 0 ≤ E →
  trim ((if neg then "-" else "") ++ exponent_text d rest E)
  = (if neg then "-" else "") ++ exponent_text d rest E.
Proof.
  intros [dv Hdv] HE.
  destruct (digit_val_plain _ _ Hdv) as (Hws & Hlt & _).
  destruct (decimal_spec E HE) as (ds & c & Heq & Hall & _).
  destruct (all_digits_last c ds Hall) as (u & b & Hub & [bv Hbv]).
  destruct (digit_val_plain _ _ Hbv) as (Hbws & Hblt & _).
  assert (∃ w, exponent_text d rest E = String d (w ++ String b "")) as [w Hw].
  { unfold exponent_text. rewrite Heq, Hub.
    destruct rest.
    - exists ("e+" ++ u). by rewrite app_assoc_s.
    - exists ("." ++ String a rest ++ "e+" ++ u). by rewrite !app_assoc_s. }
  rewrite Hw. destruct neg.
  - rewrite app_cons, app_empty_l, <- app_cons.
    change (String "-" (String d w ++ String b ""))
      with (String "-" (String d w ++ String b "")).
    apply (trim_plain_ends "-" (String d w) b); try done.
    + apply Nat.ltb_lt. reflexivity.
  - rewrite app_empty_l. apply trim_plain_ends; try done. lia.
Qed.

End ExponentText.

Section LargeRoundTrip.

Import JsString Decimal.
Local Open Scope string_scope.
Local Open Scope Z_scope.

Lemma valid_mantissa (s : bool) m e :
  valid_binary prec emax (S754_finite s m e) = true → Zpos m < 2 ^ 53.
Proof.
  unfold valid_binary, bounded, canonical_mantissa, fexp, emin, prec, emax.
  intros [Hcanon%Z.eqb_eq _]%andb_true_iff.
  rewrite digits2_log2 in Hcanon.
  apply Z.log2_lt_pow2; lia.
Qed.

Lemma toString_large_text m e :
  2 ^ 52 ≤ Zpos m < 2 ^ 53 → 0 ≤ e ≤ 971 →
  ∃ d rest E z,
    toString_large (S754_finite false m e) (Zpos m * 2 ^ e)
    = exponent_text d rest E
    ∧ is_Some (digit_val d) ∧ all_digits rest = true
    ∧ E = Z.of_nat (String.length rest) + Z.of_nat z
    ∧ round_ratio false (digits_value (String d rest) 0 * 10 ^ Z.of_nat z) 1
      = S754_finite false m e.
Proof.
  intros Hm He. unfold toString_large.
  set (X := Zpos m * 2 ^ e).
  assert (0 < 2 ^ e) as Hpow by (apply Z.pow_pos_nonneg; lia).
  assert (0 ≤ X) as HX by (unfold X; nia).
  assert (round_ratio false X 1 = S754_finite false m e) as Hexact.
  { rewrite <- (Z.mul_1_l X). by apply round_ratio_scaled. }
  destruct (shortest_from_sound 17 m e X
              (Z.of_nat (String.length (decimal X))) 1 HX Hexact)
    as [Hr0 Hr].
  set (r := shortest_from 17 (S754_finite false m e) X
              (Z.of_nat (String.length (decimal X))) 1) in *.
  destruct (decimal_spec r Hr0) as (ds & c & Heq & Hall & Hval).
  destruct (significant_digits (decimal r)) as [z Hsig].
  set (sig := rev (strip_zeros_rev (rev (decimal r)))) in *.
  assert (all_digits sig = true) as Hsigd.
  { rewrite Heq in Hsig. rewrite Hsig, all_digits_app in Hall.
    by apply andb_true_iff in Hall as [? _]. }
  assert (r = digits_value sig 0 * 10 ^ Z.of_nat z) as Hrval.
  { rewrite <- Hval, <- Heq, Hsig at 1.
    by rewrite digits_value_app, digits_value_zeros. }
  assert (String.length (decimal r) = (String.length sig + z)%nat) as Hlen.
  { rewrite Hsig at 1. by rewrite length_app, length_zeros. }
  destruct sig as [|d rest] eqn:Hsigeq.
  { exfalso. simpl in Hrval. rewrite Hrval in Hr. by vm_compute in Hr. }
  cbn [all_digits] in Hsigd.
  apply andb_true_iff in Hsigd as [Hd%bool_decide_eq_true Hrest].
  exists d, rest, (Z.of_nat (String.length (decimal r)) - 1), z.
  split; [by destruct rest|]. split; [done|]. split; [done|].
  split; [rewrite Hlen; simpl; lia|]. by rewrite <- Hrval.
Qed.

(** Parsing what [formatPrice] wrote for a number of magnitude [10^21] or
    above gives the number back. *)
Lemma parse_format_large (s : bool) m e :
  valid_binary prec emax (S754_finite s m e) = true →
  below_1e21 (S754_finite s m e) = false →
  parsePrice (PriceString (formatPrice (S754_finite s m e)))
  = S754_finite s m e
  ∧ round2 (S754_finite s m e) = S754_finite s m e.
Proof.
  intros Hvalid Hlarge.
  pose proof (valid_mantissa s m e Hvalid) as Hm53.
  assert (0 < e) as He.
  { unfold below_1e21 in Hlarge. apply negb_false_iff, Z.leb_le in Hlarge.
    destruct (Z.lt_ge_cases 0 e) as [|He]; [done|]. exfalso.
    rewrite (Z.max_r 0 (- e)), (Z.max_l 0 e) in Hlarge by lia.
    change (2 ^ 0) with 1 in Hlarge.
    assert (0 < 2 ^ (- e)) by (apply Z.pow_pos_nonneg; lia).
    change (10 ^ 21) with 1000000000000000000000 in Hlarge.
    change (2 ^ 53) with 9007199254740992 in Hm53. nia. }
  destruct (valid_normal s m e Hvalid He) as [Hm Hemax].
  split.
  - destruct (toString_large_text m e Hm ltac:(lia))
      as (d & rest & E & z & Htext & Hd & Hrest & HE & Hround).
    unfold formatPrice, toFixed2.
    unfold below_1e21 in Hlarge. apply negb_false_iff in Hlarge.
    rewrite Hlarge, Htext. unfold parsePrice.
    change (replace_first rupee ""
              (rupee +:+ (if s then "-" else "") +:+ exponent_text d rest E))
      with ((if s then "-" else "") ++ exponent_text d rest E).
    rewrite trim_exponent_text, parseFloat_exponent_text by (done || lia).
    replace (E - Z.of_nat (String.length rest)) with (Z.of_nat z) by lia.
    unfold decimal_value.
    rewrite (Z.max_r 0 (Z.of_nat z)), (Z.max_l 0 (- Z.of_nat z)) by lia.
    change (10 ^ 0) with 1. rewrite round_ratio_sign, Hround. done.
  - unfold round2, round_half_up_scaled.
    assert ((0 <=? e) = true) as -> by (apply Z.leb_le; lia).
    rewrite decimal_value_cents, <- Z.mul_assoc.
    apply round_ratio_scaled; lia.
Qed.

End LargeRoundTrip.

(** C9 (as amended). Parsing a formatted amount gives the amount rounded to
    two decimals, for every binary64 number; formatting a parsed text gives
    the text back, for every Money text of an amount below [2^46]. *)
Theorem money_round_trip :
  (∀ x, valid_binary prec emax x = true →
        parsePrice (PriceString (formatPrice x)) = round2 x)
  ∧ (∀ (neg : bool) n,
        0 ≤ n < exact_cents_bound → (neg = true → n ≠ 0) →
        formatPrice (parsePrice (PriceString (money_text neg n)))
        = money_text neg n).
Proof.
  split; [|apply format_parse]. intros x Hvalid.
  destruct (below_1e21 x) eqn:Hbelow; [by apply parse_format|].
  destruct x as [| | |s m e]; try done.
  destruct (parse_format_large s m e Hvalid Hbelow) as [-> ->]. done.
Qed.


Lemma money_round_trip_witness :
  (parsePrice (PriceString (formatPrice (Decimal.parseFloat "12.345")))
   = Decimal.parseFloat "12.35"
   ∧ round2 (Decimal.parseFloat "12.345") = Decimal.parseFloat "12.35")
  ∧ (money_text true 1234 = "₹-12.34"%string
     ∧ formatPrice (parsePrice (PriceString "₹-12.34")) = "₹-12.34"%string).
Proof.
  split.
  - split; [|reflexivity].
    rewrite (proj1 money_round_trip (Decimal.parseFloat "12.345")); reflexivity.
  - split; [reflexivity|].
    apply (proj2 money_round_trip true 1234); [by vm_compute|done].
Defined.

(** C9 (as stated) fails at an amount above [2^46]: the text of
    70368744177664.01 comes back as 70368744177664.02. *)
Lemma money_text_not_restored :
  money_text false 7036874417766401 = "₹70368744177664.01"%string
  ∧ formatPrice (parsePrice (PriceString "₹70368744177664.01"))
    = "₹70368744177664.02"%string
  ∧ formatPrice (parsePrice (PriceString (money_text false 7036874417766401)))
    ≠ money_text false 7036874417766401.
Proof. repeat split; vm_compute; [reflexivity..|discriminate]. Qed.

(** Above [10^21] the text is in exponent notation and reads back as the
    number itself. *)
Example money_round_trip_exponent_notation :
  formatPrice (Decimal.parseFloat "123456789012345678901234")
  = "₹1.2345678901234569e+23"%string
  ∧ parsePrice (PriceString "₹1.2345678901234569e+23")
    = Decimal.parseFloat "123456789012345678901234".
Proof. split; vm_compute; reflexivity. Qed.

(* ===================================================================== *)
(** ** The bill *)
(* ===================================================================== *)

Section Bill.

Import JsString Decimal.
Local Open Scope Z_scope.

Variable GST_RATE : number.

Lemma cents_formatted x n :
  cents x = Some n → n < exact_cents_bound →
  0 ≤ n ∧ below_1e21 x = true ∧ formatPrice x = money_text false n.
Proof.
  unfold exact_cents_bound. change (2 ^ 46) with 70368744177664.
  intros Hx Hn. destruct x as [s| | |[] m e]; simplify_eq/=.
  { by destruct s. }
  pose proof (round_half_up_nonneg m e) as Hnn.
  assert (below_1e21 (S754_finite false m e) = true) as Hbelow.
  { unfold below_1e21. apply negb_true_iff, Z.leb_gt.
    change (10 ^ 21) with 1000000000000000000000.
    unfold round_half_up_scaled in Hn.
    destruct (Z.leb_spec 0 e) as [He|He].
    - rewrite (Z.max_l 0 (- e)), (Z.max_r 0 e) by lia.
      change (2 ^ 0) with 1. lia.
    - rewrite (Z.max_r 0 (- e)), (Z.max_l 0 e) by lia. change (2 ^ 0) with 1.
      replace (1 - e) with (Z.succ (- e)) in Hn by lia.
      rewrite Z.pow_succ_r in Hn by lia.
      assert (0 < 2 ^ (- e)) by (apply Z.pow_pos_nonneg; lia).
      set (P := 2 ^ (- e)) in *.
      destruct (Z.le_gt_cases (2 * P * 7036874417766400)
                              (200 * Z.pos m + P)) as [Hge|Hlt]; [|lia].
      apply Z.div_le_lower_bound in Hge; lia. }
  split; [done|]. split; [done|]. by apply toFixed2_finite.
Qed.

(** C4 (as amended). For a Ledger whose unrounded sum is a non-negative
    amount below [2^46]: the subtotal of the Bill is that sum formatted to
    two decimals; the number the tax is computed from is the sum rounded to
    two decimals, read back from the formatted text; the tax and the grand
    total are computed from this rounded number and formatted each on its
    own. *)
Theorem bill_is_computed_from_rounded_subtotal l table n :
  cents (unrounded_total l) = Some n →
  n < exact_cents_bound →
  subtotal (make_bill GST_RATE l table) = calculateSubtotal l
  ∧ subtotal (make_bill GST_RATE l table) = money_text false n
  ∧ subtotalNum l = round2 (unrounded_total l)
  ∧ gstAmount (make_bill GST_RATE l table)
    = formatPrice (mul (round2 (unrounded_total l)) GST_RATE)
  ∧ grandTotal (make_bill GST_RATE l table)
    = formatPrice (add (round2 (unrounded_total l))
                       (mul (round2 (unrounded_total l)) GST_RATE)).
Proof.
  intros Hcents Hn.
  destruct (cents_formatted _ _ Hcents Hn) as (Hnn & Hbelow & Hfmt).
  assert (subtotalNum l = round2 (unrounded_total l)) as Hnum.
  { unfold subtotalNum, calculateSubtotal. by apply parse_format. }
  assert (calculateSubtotal l = money_text false n) as Htext by exact Hfmt.
  unfold make_bill; simpl. unfold grandTotalNum, gstAmountNum.
  rewrite <- Hnum. repeat split; try done.
  - unfold subtotalNum. rewrite Htext. by apply format_parse.
  - unfold subtotalNum. rewrite Htext. apply format_parse; [lia|done].
Qed.

End Bill.

Lemma bill_is_computed_from_rounded_subtotal_witness :
  cents (unrounded_total Sample.two_burgers) = Some 20000
  ∧ subtotal (make_bill Sample.rate_5_percent Sample.two_burgers "7")
    = "₹200.00"%string
  ∧ gstAmount (make_bill Sample.rate_5_percent Sample.two_burgers "7")
    = "₹10.00"%string
  ∧ grandTotal (make_bill Sample.rate_5_percent Sample.two_burgers "7")
    = "₹210.00"%string.
Proof.
  split; [reflexivity|].
  destruct (bill_is_computed_from_rounded_subtotal Sample.rate_5_percent
              Sample.two_burgers "7" 20000)
    as (_ & Hsub & _ & Hgst & Hgrand); [reflexivity|by vm_compute|].
  rewrite Hsub, Hgst, Hgrand. repeat split; vm_compute; reflexivity.
Defined.

(** C4 (as stated) fails at fries and a coke under a rate of 5%: the number
    the tax is computed from is not the unrounded sum but the sum rounded to
    two decimals, so the tax differs from the tax on the unrounded sum; and
    the formatted grand total is not the formatted subtotal plus the
    formatted tax. *)
Lemma bill_of_drift_ledger :
  (calculateSubtotal Sample.drift_ledger = "₹0.30"%string
   ∧ unrounded_total Sample.drift_ledger
     = S754_finite false 5404319552844596 (-54)
   ∧ subtotalNum Sample.drift_ledger
     = S754_finite false 5404319552844595 (-54))
  ∧ (make_bill Sample.rate_5_percent Sample.drift_ledger "7"
     = {| items := Sample.drift_ledger; subtotal := "₹0.30";
          gstAmount := "₹0.01"; grandTotal := "₹0.32";
          bill_tableNumber := "7" |}
     ∧ formatPrice (mul (unrounded_total Sample.drift_ledger)
                        Sample.rate_5_percent) = "₹0.02"%string)
  ∧ ¬ computed_from_unrounded_sum Sample.rate_5_percent Sample.drift_ledger
        (make_bill Sample.rate_5_percent Sample.drift_ledger "7")
  ∧ ¬ grand_total_adds_up
        (make_bill Sample.rate_5_percent Sample.drift_ledger "7").
Proof.
  split; [repeat split; vm_compute; reflexivity|].
  split; [split; vm_compute; reflexivity|].
  split.
  - intros [Hgst _]. vm_compute in Hgst. discriminate Hgst.
  - unfold grand_total_adds_up. vm_compute. discriminate.
Qed.

(** At a rate of 18% a single line at 1.25 gives 1.25 / 0.22 / 1.48. *)
Example bill_at_18_percent :
  make_bill (Decimal.parseFloat "0.18")
    [Sample.line (Sample.item "m4" "Tea" "₹1.25") 1 None] "7"
  = {| items := [Sample.line (Sample.item "m4" "Tea" "₹1.25") 1 None];
       subtotal := "₹1.25"; gstAmount := "₹0.22"; grandTotal := "₹1.48";
       bill_tableNumber := "7" |}.
Proof. vm_compute. reflexivity. Qed.

(* ===================================================================== *)
(** ** Checkout and submission *)
(* ===================================================================== *)

(** The two halves of the confirm-order handler, by short names. *)
Local Abbreviation confirm := handleConfirmOrderAndGoToFinalConfirmation.
Local Abbreviation settle := resumeConfirmOrderAndGoToFinalConfirmation.

Section Submission.

Variable GST_RATE : number.

(** C10. With an empty Ledger the checkout step returns [false] and leaves
    the state as it was: no Bill snapshot is created and the page does not
    change. *)
Theorem checkout_of_empty_ledger st :
  orderItems st = [] →
  handleCheckoutAndGoToBill GST_RATE st = (st, false).
Proof. intros Hempty. unfold handleCheckoutAndGoToBill. by rewrite Hempty. Qed.

Lemma formatPrice_not_a_number x :
  Decimal.Number (formatPrice x) = S754_nan.
Proof. apply Number_rupee. Qed.

Lemma checkout_bill_invalid l table :
  bill_valid (Some (make_bill GST_RATE l table)) = false.
Proof.
  unfold bill_valid, make_bill. cbn [items subtotal gstAmount grandTotal].
  rewrite !formatPrice_not_a_number. cbn [isNaN negb].
  by rewrite !andb_false_r.
Qed.

(** C1 (what the code does). Every Bill snapshot the checkout step builds is
    judged invalid by the confirm-order flow: [Number] turns its
    currency-prefixed money fields into [NaN]. The flow then performs no
    remote write, keeps the Ledger, and moves to the confirmation page with
    a warning. Only a write that was made and succeeded clears the Ledger
    and moves to the confirmation page. *)
Theorem checkout_bill_is_judged_invalid :
  (∀ l table, bill_valid (Some (make_bill GST_RATE l table)) = false)
  ∧ (∀ now page l table,
       confirm now
         {| currentPage := page; orderItems := l;
            currentBillData := Some (make_bill GST_RATE l table);
            tableNumber := table; isSubmitting := false |}
       = ({| currentPage := finalConfirmation; orderItems := l;
             currentBillData := Some (make_bill GST_RATE l table);
             tableNumber := table; isSubmitting := false |},
          [Warn skipped_warning]))
  ∧ (∀ st, settle true st
           = ({| currentPage := finalConfirmation; orderItems := [];
                 currentBillData := currentBillData st;
                 tableNumber := tableNumber st; isSubmitting := false |}, [])).
Proof.
  assert (∀ l table, bill_valid (Some (make_bill GST_RATE l table)) = false)
    as Hinvalid.
  { intros l table. unfold bill_valid, make_bill; simpl.
    rewrite formatPrice_not_a_number. simpl. by rewrite andb_false_r. }
  split; [done|]. split; [|done]. intros now page l table.
  unfold handleConfirmOrderAndGoToFinalConfirmation.
  cbn [isSubmitting currentBillData].
  by rewrite Hinvalid.
Qed.

End Submission.

(** C1 at a Ledger of two burgers: checkout succeeds, the snapshot carries
    the three money strings, and confirming it writes nothing. *)
Example confirm_after_checkout_writes_nothing :
  let st := Sample.state [Sample.line Sample.burger 2 None] None false in
  let st' := (handleCheckoutAndGoToBill Sample.rate_5_percent st).1 in
  (subtotal <$> currentBillData st') = Some "₹200.00"%string
  ∧ (gstAmount <$> currentBillData st') = Some "₹10.00"%string
  ∧ (grandTotal <$> currentBillData st') = Some "₹210.00"%string
  ∧ Decimal.Number "₹200.00" = S754_nan
  ∧ remote_writes (confirm "2026-01-01T00:00:00.000Z" st').2 = []
  ∧ currentPage (confirm "2026-01-01T00:00:00.000Z" st').1
    = finalConfirmation
  ∧ orderItems (confirm "2026-01-01T00:00:00.000Z" st').1
    = [Sample.line Sample.burger 2 None].
Proof. vm_compute. repeat split. Qed.



(* ===================================================================== *)
(** ** Reconciliation: additions and removals *)
(* ===================================================================== *)

Section Reconciliation.

Variable toLowerCase : string → string.
Variable activeMenuItems : list MenuItem.

Local Abbreviation find_item := (find_menu_item toLowerCase activeMenuItems).
Local Abbreviation step_add := (add_step toLowerCase activeMenuItems).
Local Abbreviation step_remove := (remove_step toLowerCase activeMenuItems).
Local Abbreviation multi_order := (handleMultiItemOrder toLowerCase activeMenuItems).
Local Abbreviation multi_removal := (handleMultiItemRemoval toLowerCase activeMenuItems).


Lemma add_to_order_distinct m q n w :
  distinct_lines w → distinct_lines (add_to_order m q n w).
Proof.
  intros Hw. unfold add_to_order, findIndex.
  destruct (list_find (same_line (mi_id m) n) w) as [[i x]|] eqn:Hexact; simpl.
  { by apply distinct_lines_alter. }
  assert (distinct_lines (w ++ [new_line m q n])) as Hpush.
  { apply distinct_lines_push; [done|]. by apply find_none_key_fresh. }
  destruct (decide (n ≠ EmptyString)) as [Hn|]; [|done].
  destruct (list_find (same_line (mi_id m) EmptyString) w) as [[p y]|]; simpl; [|done].
  destruct (list_find (same_line (mi_id m) n) (delete p w)) as [[j z]|] eqn:Hin; simpl.
  - by apply distinct_lines_alter, distinct_lines_delete.
  - apply distinct_lines_push; [by apply distinct_lines_delete|].
    by apply find_none_key_fresh.
Qed.

Lemma add_step_distinct st order :
  distinct_lines (add_workingOrder st) →
  distinct_lines (add_workingOrder (step_add st order)).
Proof.
  intros Hst. unfold add_step.
  destruct (find_item (itemName order)); simpl; [|done].
  by apply add_to_order_distinct.
Qed.

Lemma add_loop_distinct orders st :
  distinct_lines (add_workingOrder st) →
  distinct_lines (add_workingOrder (fold_left step_add orders st)).
Proof.
  revert st. induction orders as [|o orders IH]; intros st Hst; simpl; [done|].
  by apply IH, add_step_distinct.
Qed.

(** C2. The batch-additions reducer and the single-item add reducer both
    keep the Ledger free of two lines with equal (id, normalized notes). *)
Theorem additions_keep_lines_distinct :
  (∀ orders sink prevOrder,
      distinct_lines prevOrder →
      distinct_lines (multi_order orders sink prevOrder).1)
  ∧ (∀ itemToAdd qty notes prevOrder,
      distinct_lines prevOrder →
      distinct_lines (handleAddItemToOrder itemToAdd qty notes prevOrder)).
Proof.
  split.
  - intros orders sink prevOrder Hprev. unfold handleMultiItemOrder; simpl.
    by apply add_loop_distinct.
  - intros itemToAdd qty notes prevOrder Hprev.
    unfold handleAddItemToOrder, findIndex.
    destruct (list_find _ prevOrder) as [[i x]|] eqn:Hfind; simpl.
    + by apply distinct_lines_alter.
    + apply distinct_lines_push; [done|]. by apply find_none_key_fresh.
Qed.

Lemma transform_add_to_order m q n w p plain :
  n ≠ EmptyString →
  list_find (same_line (mi_id m) n) w = None →
  list_find (same_line (mi_id m) EmptyString) w = Some (p, plain) →
  add_to_order m q n w = delete p w ++ [new_line m q n].
Proof.
  intros Hn Hexact Hplain. unfold add_to_order, findIndex.
  rewrite Hexact, Hplain; simpl.
  destruct (decide (n ≠ EmptyString)); [|done].
  by rewrite (find_none_delete _ _ _ _ Hexact).
Qed.

Lemma distinct_lines_delete_key (w : list OrderItem) p x :
  distinct_lines w → w !! p = Some x → line_key x ∉ line_key <$> delete p w.
Proof.
  unfold distinct_lines. intros Hw Hp.
  rewrite <- (take_drop_middle w p x Hp) in Hw.
  rewrite delete_take_drop.
  rewrite fmap_app in *. simpl in Hw.
  apply NoDup_app in Hw as (_ & Hw1 & Hw2). apply NoDup_cons in Hw2 as [Hw2 _].
  intros [Hin|Hin]%elem_of_app; [|done].
  apply (Hw1 _ Hin). left.
Qed.

Lemma batch_then_one orders order sink prevOrder :
  (handleMultiItemOrder toLowerCase activeMenuItems
     (orders ++ [order]) sink prevOrder).1
  = add_workingOrder
      (step_add
         {| add_workingOrder :=
              (handleMultiItemOrder toLowerCase activeMenuItems
                 orders sink prevOrder).1;
            add_itemsActuallyProcessed := false;
            add_notFoundItems := [] |}
         order).
Proof.
  unfold handleMultiItemOrder. cbn [fst]. rewrite fold_left_app. simpl.
  unfold add_step. by destruct (find_item (itemName order)).
Qed.

(** C3. When the last request of a batch has non-empty notes and finds, in
    the Ledger the requests before it have produced, no line with its id
    and notes but a plain line of its id, the additions reducer removes that
    plain line and appends a line with the requested notes and exactly the
    requested quantity: the plain line's quantity is not carried over. In a
    Ledger of distinct lines no plain line of the id is left, and the new
    line is the one with the id and notes. *)
Theorem customization_transform_rule orders order sink prevOrder m p plain :
  let w := (handleMultiItemOrder toLowerCase activeMenuItems
              orders sink prevOrder).1 in
  let line :=
    {| oi_item := m; quantity := req_quantity order;
       customizationNotes := Some (norm_notes (req_notes order)) |} in
  find_item (itemName order) = Some m →
  norm_notes (req_notes order) ≠ EmptyString →
  list_find (same_line (mi_id m) (norm_notes (req_notes order))) w = None →
  list_find (same_line (mi_id m) EmptyString) w = Some (p, plain) →
  (handleMultiItemOrder toLowerCase activeMenuItems
     (orders ++ [order]) sink prevOrder).1
    = delete p w ++ [line]
  ∧ (distinct_lines prevOrder →
     list_find (same_line (mi_id m) EmptyString) (delete p w ++ [line]) = None
     ∧ list_find (same_line (mi_id m) (norm_notes (req_notes order)))
                 (delete p w ++ [line])
       = Some (length (delete p w), line)).
Proof.
  intros w line Hm Hn Hexact Hplain.
  assert (list_find (same_line (mi_id m) (norm_notes (req_notes order)))
                    (delete p w) = None) as Hgone
    by (by apply find_none_delete).
  split.
  { rewrite batch_then_one. unfold add_step. rewrite Hm. cbn [add_workingOrder].
    fold w. by rewrite (transform_add_to_order _ _ _ _ _ _ Hn Hexact Hplain). }
  intros Hprev.
  assert (distinct_lines w) as Hdist.
  { unfold w, handleMultiItemOrder. cbn [fst]. by apply add_loop_distinct. }
  split.
  - apply list_find_None, Forall_app. split.
    + apply list_find_Some in Hplain as (Hp & Hsame & _).
      apply Forall_forall. intros x Hx Hx'.
      apply (distinct_lines_delete_key _ _ _ Hdist Hp).
      apply same_line_key in Hsame, Hx'. rewrite Hsame, <- Hx'.
      by apply list_elem_of_fmap_2.
    + constructor; [|constructor]. intros [_ Hnotes]. simpl in Hnotes. done.
  - apply list_find_Some. split; [|split].
    + rewrite lookup_app_r by done. by rewrite Nat.sub_diag.
    + done.
    + intros j y Hj Hlt. rewrite lookup_app_l in Hj by done.
      apply list_find_None in Hgone. rewrite Forall_forall in Hgone.
      apply Hgone. by eapply list_elem_of_lookup_2.
Qed.

(** *** Removals *)

Lemma remove_from_order_positive m r n w w' :
  positive_lines w → remove_from_order m r n w = Some w' → positive_lines w'.
Proof.
  unfold remove_from_order, remove_at_line, positive_lines. intros Hw Hrm.
  destruct (list_find _ w) as [[i x]|] eqn:Hfind; [|done].
  apply list_find_Some in Hfind as (Hi & _ & _).
  destruct (Z.geb_spec r (quantity x)) as [Hge|Hlt]; simplify_eq.
  - by apply Forall_delete.
  - rewrite (alter_lookup_insert _ _ _ _ Hi). apply Forall_insert; [done|].
    simpl. by apply minus_positive.
Qed.

Lemma remove_step_positive st removal :
  positive_lines (rm_workingOrder st) →
  positive_lines (rm_workingOrder (step_remove st removal)).
Proof.
  intros Hst. unfold remove_step.
  destruct (find_item (itemName removal)) as [m|]; simpl; [|done].
  destruct (remove_from_order _ _ _ _) as [w'|] eqn:Hrm; simpl; [|done].
  by eapply remove_from_order_positive.
Qed.

Lemma remove_loop_positive removals st :
  positive_lines (rm_workingOrder st) →
  positive_lines (rm_workingOrder (fold_left step_remove removals st)).
Proof.
  revert st. induction removals as [|r rs IH]; intros st Hst; simpl; [done|].
  by apply IH, remove_step_positive.
Qed.

Lemma removals_then_one removals removal sink prevOrder :
  (handleMultiItemRemoval toLowerCase activeMenuItems
     (removals ++ [removal]) sink prevOrder).1
  = rm_workingOrder
      (step_remove
         {| rm_workingOrder :=
              (handleMultiItemRemoval toLowerCase activeMenuItems
                 removals sink prevOrder).1;
            rm_itemsActuallyProcessed := false;
            rm_notFoundOrNotInOrder := [] |}
         removal).
Proof.
  unfold handleMultiItemRemoval. cbn [fst]. rewrite fold_left_app. simpl.
  unfold remove_step. destruct (find_item (itemName removal)); [|done].
  cbn [rm_workingOrder]. by destruct (remove_from_order _ _ _ _).
Qed.

(** C5 (as amended). When the last request of a batch of removals resolves
    to a catalog item and finds its line in the Ledger the requests before
    it have left, the removals reducer deletes the line if the requested
    quantity reaches the line's; otherwise it replaces the line's quantity
    by the binary64 difference of the two, which is at least 1, and which is
    the line's quantity minus exactly the requested quantity when both are
    finite and that difference is below [2^53]. A batch of removals keeps
    every quantity of the Ledger positive. *)
Theorem removal_deletes_or_decrements :
  (∀ removals removal sink prevOrder m i line,
      let w := (handleMultiItemRemoval toLowerCase activeMenuItems
                  removals sink prevOrder).1 in
      find_item (itemName removal) = Some m →
      list_find (same_line (mi_id m) (norm_notes (req_notes removal))) w
        = Some (i, line) →
      (quantity line ≤ req_quantity removal →
       (handleMultiItemRemoval toLowerCase activeMenuItems
          (removals ++ [removal]) sink prevOrder).1
         = delete i w)
      ∧ (req_quantity removal < quantity line →
         (handleMultiItemRemoval toLowerCase activeMenuItems
            (removals ++ [removal]) sink prevOrder).1
           = <[i := set_quantity
                      (minus (quantity line) (req_quantity removal)) line]> w
         ∧ 1 ≤ minus (quantity line) (req_quantity removal)
         ∧ (infinite (quantity line) = false →
            infinite (req_quantity removal) = false →
            quantity line - req_quantity removal < 2 ^ 53 →
            minus (quantity line) (req_quantity removal)
            = quantity line - req_quantity removal)))
  ∧ (∀ removals sink prevOrder,
      positive_lines prevOrder →
      positive_lines
        (handleMultiItemRemoval toLowerCase activeMenuItems
           removals sink prevOrder).1).
Proof.
  split.
  - intros removals removal sink prevOrder m i line w Hm Hfind.
    rewrite removals_then_one. fold w.
    unfold remove_step, remove_from_order, remove_at_line.
    rewrite Hm. cbn [rm_workingOrder]. rewrite Hfind. cbn [rm_workingOrder].
    apply list_find_Some in Hfind as (Hi & _ & _).
    split; intros Hq.
    + destruct (Z.geb_spec (req_quantity removal) (quantity line)); [done|lia].
    + destruct (Z.geb_spec (req_quantity removal) (quantity line)); [lia|].
      split; [by rewrite (alter_lookup_insert _ _ _ _ Hi)|].
      split.
      * pose proof (minus_positive _ _ Hq). lia.
      * intros Hline Hreq Hsmall. apply minus_exact_finite; [done..|lia].
  - intros removals sink prevOrder Hprev. unfold handleMultiItemRemoval; simpl.
    by apply remove_loop_positive.
Qed.

(** *** Unresolved names *)



End Reconciliation.

(* ===================================================================== *)
(** ** Additions undone by removals *)
(* ===================================================================== *)

Section Inverse.

Variable toLowerCase : string → string.
Variable activeMenuItems : list MenuItem.

Implicit Types (W L N : list OrderItem) (k : string * string).
Implicit Types (P : list (MenuItem * Z * string)).

Lemma add_to_order_keyed m q n W :
  distinct_lines W → transform_triggers m n W = false →
  add_to_order m q n W
  = if decide ((mi_id m, n) ∈ line_key <$> W)
    then upd (mi_id m, n) (λ oi, set_quantity (plus (quantity oi) q) oi) <$> W
    else W ++ [new_line m q n].
Proof.
  intros Hd Ht. unfold add_to_order, transform_triggers, findIndex in *.
  destruct (list_find (same_line (mi_id m) n) W) as [[i x]|] eqn:Hexact; simpl.
  - apply find_some_key in Hexact as [Hi Hx]. rewrite decide_True.
    + by rewrite (alter_keyed _ _ _ _ Hd Hi), Hx.
    + rewrite <- Hx. apply list_elem_of_fmap_2. by eapply list_elem_of_lookup_2.
  - destruct (decide ((mi_id m, n) ∈ line_key <$> W)) as [Hin|_];
      [by apply find_none_iff in Hexact|].
    destruct (decide (n ≠ EmptyString)) as [Hn|]; [|done].
    destruct (list_find (same_line (mi_id m) EmptyString) W) as [[p y]|];
      simpl; [|done].
    apply andb_false_iff in Ht as [[Ht|Ht]%andb_false_iff|Ht].
    + by apply bool_decide_eq_false in Ht.
    + by cbn in Ht.
    + by cbn in Ht.
Qed.

Lemma remove_from_order_keyed m q n W i x :
  distinct_lines W →
  list_find (same_line (mi_id m) n) W = Some (i, x) →
  remove_from_order m q n W
  = Some (if q >=? quantity x
          then filter (λ y, line_key y ≠ (mi_id m, n)) W
          else upd (mi_id m, n)
                   (λ oi, set_quantity (minus (quantity oi) q) oi) <$> W).
Proof.
  intros Hd Hfind. unfold remove_from_order, remove_at_line. rewrite Hfind.
  apply find_some_key in Hfind as [Hi Hx]. rewrite <- Hx.
  destruct (q >=? quantity x).
  - by rewrite (delete_keyed _ _ _ Hd Hi).
  - by rewrite (alter_keyed _ _ _ _ Hd Hi).
Qed.

Lemma bump_add P m q n oi :
  upd (mi_id m, n) (λ oi, set_quantity (quantity oi + q) oi) (bump P oi)
  = bump (P ++ [(m, q, n)]) oi.
Proof.
  unfold upd, bump. rewrite pending_sum_app, line_key_set_quantity.
  unfold resolved_key; simpl.
  destruct (decide (line_key oi = _)), (decide (_ = line_key oi));
    try congruence; unfold set_quantity; simpl; f_equal; lia.
Qed.

Lemma bump_remove P m q n oi :
  upd (mi_id m, n) (λ oi, set_quantity (quantity oi - q) oi)
      (bump ((m, q, n) :: P) oi)
  = bump P oi.
Proof.
  unfold upd, bump. rewrite line_key_set_quantity. simpl.
  unfold resolved_key; simpl.
  destruct (decide (line_key oi = _)), (decide (_ = line_key oi));
    try congruence; unfold set_quantity; simpl; f_equal; lia.
Qed.

Lemma bump_other P r oi :
  resolved_key r ≠ line_key oi → bump (r :: P) oi = bump P oi.
Proof. intros Hk. unfold bump. simpl. by rewrite decide_False. Qed.

Lemma bump_other_app P r oi :
  resolved_key r ≠ line_key oi → bump (P ++ [r]) oi = bump P oi.
Proof.
  intros Hk. unfold bump. rewrite pending_sum_app, decide_False by done.
  by rewrite Z.add_0_r.
Qed.

(** *** Quantities in the exact range *)

Lemma pending_sum_prefix P P' k :
  Forall (λ r, 0 < r.1.2) P' → pending_sum P k ≤ pending_sum (P ++ P') k.
Proof.
  intros HP'. induction P as [|r P IH]; simpl.
  - by apply pending_sum_nonneg.
  - lia.
Qed.

Lemma pending_sum_suffix r P k : 0 < r.1.2 → pending_sum P k ≤ pending_sum (r :: P) k.
Proof. intros Hr. simpl. destruct (decide _); lia. Qed.

Lemma within_exact_range_prefix L P P' :
  Forall (λ r, 0 < r.1.2) P' →
  within_exact_range L (P ++ P') → within_exact_range L P.
Proof.
  intros HP' [HL HR]. split.
  - eapply Forall_impl; [exact HL|]. intros oi Hoi. simpl in *.
    pose proof (pending_sum_prefix P P' (line_key oi) HP'). lia.
  - apply Forall_app in HR as [HR _].
    eapply Forall_impl; [exact HR|]. intros r Hr. simpl in *.
    pose proof (pending_sum_prefix P P' (resolved_key r) HP'). lia.
Qed.

Lemma within_exact_range_suffix L r P :
  0 < r.1.2 → within_exact_range L (r :: P) → within_exact_range L P.
Proof.
  intros Hr [HL HR]. split.
  - eapply Forall_impl; [exact HL|]. intros oi Hoi. cbv beta in *.
    pose proof (pending_sum_suffix r P (line_key oi) Hr). lia.
  - apply Forall_cons in HR as [_ HR].
    eapply Forall_impl; [exact HR|]. intros r' Hr'. cbv beta in *.
    pose proof (pending_sum_suffix r P (resolved_key r') Hr). lia.
Qed.

(** Where [W] accounts for the pending requests [R] and the quantities
    stay in the exact range, every line of [W] has a positive quantity
    below [2^53]. *)
Lemma accounted_range L R W x :
  positive_lines L → Forall (λ r, 0 < r.1.2) R →
  within_exact_range L R → accounted L R W → x ∈ W →
  0 < quantity x < 2 ^ 53.
Proof.
  intros HLpos HR [HbL HbR] (N & -> & _ & HNk & Hcov) Hx.
  apply elem_of_app in Hx as [(oi & -> & Hoi)%list_elem_of_fmap|Hx].
  - unfold positive_lines in HLpos. rewrite Forall_forall in HLpos, HbL.
    specialize (HLpos oi Hoi). specialize (HbL oi Hoi).
    pose proof (pending_sum_nonneg R (line_key oi) HR).
    unfold bump. simpl. lia.
  - rewrite Forall_forall in HNk. destruct (HNk x Hx) as (Hfresh & Hsum & Hpos).
    split; [done|]. rewrite Hsum.
    destruct (decide (pending_sum R (line_key x) = 0)) as [->|Hne]; [done|].
    assert (∃ r, r ∈ R ∧ resolved_key r = line_key x) as (r & Hr & Hk).
    { clear -Hne. induction R as [|r R IH]; [done|]. simpl in Hne.
      destruct (decide (resolved_key r = line_key x)) as [Hk|Hk].
      - exists r. split; [left|done].
      - destruct IH as (r' & Hr' & Hk'); [lia|]. exists r'. split; [by right|done]. }
    rewrite Forall_forall in HbR. specialize (HbR r Hr). by rewrite Hk in HbR.
Qed.

Lemma accounted_add L P W m q n :
  distinct_lines L → positive_lines L → Forall (λ r, 0 < r.1.2) P → 0 < q →
  within_exact_range L (P ++ [(m, q, n)]) →
  accounted L P W →
  transform_triggers m n W = false →
  accounted L (P ++ [(m, q, n)]) (add_to_order m q n W).
Proof.
  intros HL HLpos HP Hq Hb Hacc0 Ht.
  pose proof (accounted_distinct _ _ _ HL Hacc0) as HW.
  rewrite add_to_order_keyed by done.
  assert (upd (mi_id m, n) (λ oi, set_quantity (plus (quantity oi) q) oi) <$> W
          = upd (mi_id m, n) (λ oi, set_quantity (quantity oi + q) oi) <$> W)
    as Hexact.
  { apply list_fmap_ext. intros i x Hx. unfold upd.
    destruct (decide (line_key x = (mi_id m, n))) as [Hk|Hk]; [|done].
    f_equal. apply plus_exact.
    apply list_elem_of_lookup_2 in Hx.
    destruct Hacc0 as (N & -> & _ & HNk & _). destruct Hb as [HbL HbR].
    apply elem_of_app in Hx as [(oi & -> & Hoi)%list_elem_of_fmap|Hx].
    - unfold positive_lines in HLpos. rewrite Forall_forall in HLpos, HbL.
      specialize (HLpos oi Hoi). specialize (HbL oi Hoi).
      rewrite line_key_bump in Hk. rewrite pending_sum_app in HbL.
      cbn [fst snd] in HbL. unfold resolved_key in HbL at 1. cbn [fst snd] in HbL.
      rewrite decide_True in HbL by done.
      pose proof (pending_sum_nonneg P (line_key oi) HP).
      unfold bump. simpl. lia.
    - rewrite Forall_forall in HNk. destruct (HNk x Hx) as (_ & Hsum & Hpos).
      apply Forall_app in HbR as [_ HbR]. apply Forall_cons in HbR as [HbR _].
      unfold resolved_key in HbR at 1. cbn [fst snd] in HbR.
      rewrite pending_sum_app in HbR.
      unfold resolved_key in HbR at 1. cbn [fst snd] in HbR.
      rewrite decide_True in HbR by done. rewrite <- Hk, <- Hsum in HbR. lia. }
  destruct Hacc0 as (N & -> & HN & HNk & Hcov).
  rewrite fmap_app, keys_bump.
  destruct (decide (_ ∈ _)) as [Hin|Hout].
  - rewrite Hexact.
    exists (upd (mi_id m, n) (λ oi, set_quantity (quantity oi + q) oi) <$> N).
    rewrite keys_upd by done. split; [|split; [done|split]].
    + rewrite fmap_app. f_equal. rewrite <- list_fmap_compose.
      apply list_fmap_ext. intros i x _. apply bump_add.
    + apply Forall_fmap. eapply Forall_impl; [exact HNk|].
      intros x (Hfresh & Hsum & Hpos). simpl.
      unfold upd. destruct (decide (line_key x = _)) as [Hk|Hk]; simpl.
      * split; [done|]. rewrite pending_sum_app, line_key_set_quantity.
        unfold resolved_key; simpl. rewrite decide_True by done. lia.
      * split; [done|]. rewrite pending_sum_app.
        unfold resolved_key; simpl. rewrite decide_False by done. lia.
    + apply Forall_app. split; [done|]. by constructor.
  - apply not_elem_of_app in Hout as [HoutL HoutN].
    exists (N ++ [new_line m q n]). split; [|split; [|split]].
    + rewrite app_assoc. f_equal. f_equal. apply list_fmap_ext.
      intros i x Hx. symmetry. apply bump_other_app.
      unfold resolved_key; simpl. intros Hk. apply HoutL. rewrite Hk.
      apply list_elem_of_fmap_2. by eapply list_elem_of_lookup_2.
    + rewrite fmap_app. apply NoDup_app. split; [done|].
      split; [|apply NoDup_singleton].
      intros k Hk ->%list_elem_of_singleton. done.
    + apply Forall_app. split.
      * apply Forall_forall. intros x Hx.
        destruct (proj1 (Forall_forall _ _) HNk x Hx) as (Hfresh & Hsum & Hpos).
        split; [done|split; [|done]].
        rewrite pending_sum_app, decide_False; [lia|].
        unfold resolved_key; simpl. intros Hk. apply HoutN. rewrite Hk.
        by apply list_elem_of_fmap_2.
      * constructor; [|constructor]. simpl. split; [done|]. split; [|done].
        rewrite pending_sum_app. unfold resolved_key at 1; simpl.
        rewrite decide_True by done.
        rewrite pending_sum_absent; [lia|].
        eapply Forall_impl; [exact Hcov|]. intros r Hr Hk. simpl in Hr.
        rewrite Hk in Hr. apply elem_of_app in Hr as [Hr|Hr]; done.
    + apply Forall_app. split.
      * eapply Forall_impl; [exact Hcov|]. intros r Hr. simpl in *.
        rewrite fmap_app. rewrite !elem_of_app in *. tauto.
      * constructor; [|constructor]. unfold resolved_key; simpl.
        rewrite fmap_app. rewrite !elem_of_app. right. right. simpl. left.
Qed.

Lemma accounted_remove L P W m q n :
  distinct_lines L → positive_lines L →
  Forall (λ r, 0 < r.1.2) ((m, q, n) :: P) →
  within_exact_range L ((m, q, n) :: P) →
  accounted L ((m, q, n) :: P) W →
  ∃ W', remove_from_order m q n W = Some W' ∧ accounted L P W'.
Proof.
  intros HL HLpos HP Hb Hacc.
  pose proof (accounted_distinct _ _ _ HL Hacc) as HW.
  assert (upd (mi_id m, n) (λ oi, set_quantity (minus (quantity oi) q) oi) <$> W
          = upd (mi_id m, n) (λ oi, set_quantity (quantity oi - q) oi) <$> W)
    as Hexact.
  { apply list_fmap_ext. intros i x Hx. unfold upd.
    destruct (decide (line_key x = (mi_id m, n))) as [Hk|Hk]; [|done].
    f_equal. apply minus_exact.
    apply list_elem_of_lookup_2 in Hx.
    pose proof (accounted_range _ _ _ _ HLpos HP Hb Hacc Hx).
    destruct Hb as [_ HbR]. apply Forall_cons in HbR as [HbR _].
    cbn [pending_sum] in HbR. rewrite decide_True in HbR by done.
    apply Forall_cons in HP as [Hq HP]. cbn [fst snd] in Hq, HbR.
    pose proof (pending_sum_nonneg P (resolved_key (m, q, n)) HP). lia. }
  apply Forall_cons in HP as [Hq HP]. simpl in Hq.
  destruct Hacc as (N & -> & HN & HNk & Hcov).
  apply Forall_cons in Hcov as [Hk Hcov]. unfold resolved_key in Hk; simpl in Hk.
  destruct (key_in_find (mi_id m) n (((bump ((m, q, n) :: P)) <$> L) ++ N))
    as (i & x & Hfind).
  { by rewrite fmap_app, keys_bump. }
  rewrite (remove_from_order_keyed _ _ _ _ _ _ HW Hfind). rewrite Hexact.
  eexists; split; [done|].
  apply find_some_key in Hfind as [Hi Hx].
  apply list_elem_of_lookup_2 in Hi.
  pose proof (pending_sum_nonneg P (mi_id m, n) HP) as Hnn.
  apply elem_of_app in Hi as HxL_or_N.
  assert (quantity x = quantity x) as _ by done.
  assert (x ∈ N → quantity x = q + pending_sum P (mi_id m, n)) as HxNq.
  { intros HxN. destruct (proj1 (Forall_forall _ _) HNk x HxN) as (_ & Hsum & _).
    rewrite Hsum, Hx. simpl. unfold resolved_key; simpl.
    by rewrite decide_True. }
  assert (x ∈ bump ((m, q, n) :: P) <$> L → (mi_id m, n) ∈ line_key <$> L
          ∧ q < quantity x) as HxLq.
  { intros (oi & -> & Hoi)%list_elem_of_fmap. rewrite line_key_bump in Hx.
    split; [rewrite <- Hx; by apply list_elem_of_fmap_2|].
    unfold positive_lines in HLpos. rewrite Forall_forall in HLpos.
    specialize (HLpos oi Hoi). unfold bump; simpl. rewrite Hx.
    unfold resolved_key; simpl. rewrite decide_True by done. lia. }
  assert (∀ y, y ∈ N → line_key y ≠ (mi_id m, n) →
               quantity y = pending_sum P (line_key y)) as Hothers.
  { intros y Hy Hky.
    destruct (proj1 (Forall_forall _ _) HNk y Hy) as (_ & Hsum & _).
    rewrite Hsum. simpl. rewrite decide_False; [lia|].
    unfold resolved_key; simpl. congruence. }
  destruct (Z.geb_spec q (quantity x)) as [Hge|Hlt].
  - (* the line is deleted: it is a line of [N] and [P] holds no more for it *)
    destruct HxL_or_N as [HxL|HxN]; [apply HxLq in HxL; lia|].
    assert (pending_sum P (mi_id m, n) = 0) as Hzero by (apply HxNq in HxN; lia).
    assert ((mi_id m, n) ∉ line_key <$> L) as HkL.
    { destruct (proj1 (Forall_forall _ _) HNk x HxN) as (Hfresh & _).
      by rewrite Hx in Hfresh. }
    exists (filter (λ y, line_key y ≠ (mi_id m, n)) N).
    split; [|split; [|split]].
    + rewrite filter_app. f_equal.
      * rewrite filter_all.
        -- apply list_fmap_ext. intros j oi Hoi. apply bump_other.
           unfold resolved_key; simpl. intros Hk'. apply HkL. rewrite Hk'.
           apply list_elem_of_fmap_2. by eapply list_elem_of_lookup_2.
        -- apply Forall_fmap, Forall_forall. intros oi Hoi Hk'.
           assert (line_key oi = (mi_id m, n)) as Hk'' by exact Hk'.
           apply HkL. rewrite <- Hk''. by apply list_elem_of_fmap_2.
    + eapply sublist_NoDup; [exact HN|]. apply fmap_sublist, sublist_filter.
    + apply Forall_forall. intros y [Hky Hy]%list_elem_of_filter.
      destruct (proj1 (Forall_forall _ _) HNk y Hy) as (Hfresh & _ & Hpos).
      split; [done|]. split; [|done]. by apply Hothers.
    + apply Forall_forall. intros r Hr.
      pose proof (proj1 (Forall_forall _ _) Hcov r Hr) as Hrk. simpl in Hrk.
      apply elem_of_app in Hrk as [HrL|HrN]; apply elem_of_app; [by left|right].
      apply list_elem_of_fmap in HrN as (y & Hy & HyN). rewrite Hy.
      apply list_elem_of_fmap_2, list_elem_of_filter. split; [|done].
      intros Hky.
      pose proof (pending_sum_present P (mi_id m, n) r HP Hr) as Hpres.
      rewrite Hy, Hky in Hpres. specialize (Hpres eq_refl). lia.
  - (* the line is decremented *)
    exists (upd (mi_id m, n) (λ oi, set_quantity (quantity oi - q) oi) <$> N).
    rewrite keys_upd by done. split; [|split; [done|split; [|done]]].
    + rewrite fmap_app. f_equal. rewrite <- list_fmap_compose.
      apply list_fmap_ext. intros j oi _. apply bump_remove.
    + apply Forall_fmap, Forall_forall. intros y Hy. simpl.
      destruct (proj1 (Forall_forall _ _) HNk y Hy) as (Hfresh & Hsum & Hpos).
      unfold upd. destruct (decide (line_key y = _)) as [Hky|Hky].
      * rewrite line_key_set_quantity. split; [done|]. simpl.
        destruct HxL_or_N as [HxL|HxN].
        -- apply HxLq in HxL as [HkL _]. by rewrite Hky in Hfresh.
        -- apply HxNq in HxN. rewrite Hsum, Hky. simpl.
           unfold resolved_key; simpl. rewrite decide_True by done. lia.
      * split; [done|]. split; [|done]. by apply Hothers.
Qed.

Local Abbreviation find_item := (find_menu_item toLowerCase activeMenuItems).
Local Abbreviation step_add := (add_step toLowerCase activeMenuItems).
Local Abbreviation step_remove := (remove_step toLowerCase activeMenuItems).
Local Abbreviation multi_order := (handleMultiItemOrder toLowerCase activeMenuItems).
Local Abbreviation multi_removal := (handleMultiItemRemoval toLowerCase activeMenuItems).
Local Abbreviation no_transform := (transform_free toLowerCase activeMenuItems).
Local Abbreviation resolved_of := (resolved toLowerCase activeMenuItems).

Lemma resolved_positive orders :
  Forall (λ order, 0 < req_quantity order) orders →
  Forall (λ r, 0 < r.1.2) (resolved_of orders).
Proof.
  induction 1 as [|o orders Ho _ IH]; simpl; [constructor|].
  unfold resolved in *. simpl.
  destruct (find_item (itemName o)); simpl; [by constructor|done].
Qed.

Lemma resolved_cons_eq o orders :
  resolved_of (o :: orders)
  = match find_item (itemName o) with
    | Some m => (m, req_quantity o, norm_notes (req_notes o)) :: resolved_of orders
    | None => resolved_of orders
    end.
Proof. unfold resolved. simpl. by destruct (find_item (itemName o)). Qed.

Lemma add_loop_accounted L orders st P :
  distinct_lines L → positive_lines L →
  Forall (λ order, 0 < req_quantity order) orders →
  Forall (λ r, 0 < r.1.2) P →
  within_exact_range L (P ++ resolved_of orders) →
  accounted L P (add_workingOrder st) →
  no_transform orders (add_workingOrder st) = true →
  accounted L (P ++ resolved_of orders)
            (add_workingOrder (fold_left step_add orders st)).
Proof.
  intros HL HLpos Hpos. revert st P.
  induction Hpos as [|o orders Ho Hpos IH]; intros st P HP Hb Hacc Hfree.
  { simpl. by rewrite app_nil_r. }
  cbn [fold_left]. cbn [transform_free] in Hfree.
  rewrite resolved_cons_eq in *. unfold add_step at 2.
  destruct (find_item (itemName o)) as [m|]; cbn [add_workingOrder].
  - apply andb_true_iff in Hfree as [Hnot Hfree].
    apply negb_true_iff in Hnot.
    rewrite cons_middle, app_assoc in *.
    apply IH; cbn [add_workingOrder]; [|done| |done].
    + apply Forall_app. split; [done|]. by constructor.
    + apply accounted_add; try done.
      eapply within_exact_range_prefix; [|exact Hb].
      by apply resolved_positive.
  - by apply IH.
Qed.

Lemma remove_loop_accounted L orders st P :
  distinct_lines L → positive_lines L →
  Forall (λ r, 0 < r.1.2) (resolved_of orders ++ P) →
  within_exact_range L (resolved_of orders ++ P) →
  accounted L (resolved_of orders ++ P) (rm_workingOrder st) →
  accounted L P (rm_workingOrder (fold_left step_remove orders st)).
Proof.
  intros HL HLpos. revert st.
  induction orders as [|o orders IH]; intros st HP Hb Hacc; [done|].
  cbn [fold_left]. rewrite resolved_cons_eq in *. unfold remove_step at 2.
  destruct (find_item (itemName o)) as [m|].
  - rewrite <- app_comm_cons in *.
    destruct (accounted_remove _ _ _ _ _ _ HL HLpos HP Hb Hacc)
      as (W' & -> & Hacc').
    apply Forall_cons in HP as [Hq HP].
    apply IH; [done| |done].
    by eapply within_exact_range_suffix.
  - by apply IH.
Qed.

(** C6 (as amended). On a Ledger with distinct lines and positive
    quantities, a batch of additions with positive quantities in which no
    request triggers the customization-transform rule, followed by the same
    requests as removals, gives back the Ledger (the same lines, in the same
    order), provided the quantities stay in the exact range: for every line
    its quantity plus all that the batch requests for it, and for every line
    the batch creates all that the batch requests for it, are below
    [2^53]. *)
Theorem additions_then_inverse_removals orders sink sink' prevOrder :
  distinct_lines prevOrder →
  positive_lines prevOrder →
  Forall (λ order, 0 < req_quantity order) orders →
  transform_free toLowerCase activeMenuItems orders prevOrder = true →
  within_exact_range prevOrder (resolved toLowerCase activeMenuItems orders) →
  (handleMultiItemRemoval toLowerCase activeMenuItems orders sink'
     (handleMultiItemOrder toLowerCase activeMenuItems
        orders sink prevOrder).1).1
  = prevOrder.
Proof.
  intros HL HLpos Hpos Hfree Hb.
  unfold handleMultiItemRemoval, handleMultiItemOrder.
  cbn [fst]. apply accounted_end.
  apply remove_loop_accounted; cbn [rm_workingOrder]; try done.
  - rewrite app_nil_r. by apply resolved_positive.
  - by rewrite app_nil_r.
  - rewrite app_nil_r.
    apply (add_loop_accounted prevOrder orders _ []); cbn [add_workingOrder];
      try done.
    apply accounted_start.
Qed.

End Inverse.

Lemma additions_then_inverse_removals_witness :
  (handleMultiItemOrder Sample.lower Sample.menu Sample.batch true
     [Sample.line Sample.burger 3 None]).1
  = [Sample.line Sample.burger 6 None;
     Sample.line Sample.fries 1 (Some "extra salt")]
  ∧ (handleMultiItemRemoval Sample.lower Sample.menu Sample.batch true
       (handleMultiItemOrder Sample.lower Sample.menu Sample.batch true
          [Sample.line Sample.burger 3 None]).1).1
    = [Sample.line Sample.burger 3 None].
Proof.
  split; [reflexivity|].
  apply additions_then_inverse_removals.
  - unfold distinct_lines. apply (bool_decide_unpack _). vm_compute. exact I.
  - repeat constructor.
  - repeat constructor.
  - reflexivity.
  - split; repeat constructor.
Defined.

(** The claim without the proviso, at a burger line of quantity [2^53]:
    adding one burger leaves [2^53], the even neighbour of [2^53 + 1], and
    removing one burger then leaves [2^53 - 1]. The batch is one request of
    quantity 1 that triggers no transform, the Ledger has distinct lines and
    positive quantities. *)
Lemma inverse_removals_lose_a_unit :
  (handleMultiItemOrder Sample.lower Sample.menu
     [Sample.request "burger" 1 None] true
     [Sample.line Sample.burger (2 ^ 53) None]).1
  = [Sample.line Sample.burger (2 ^ 53) None]
  ∧ (handleMultiItemRemoval Sample.lower Sample.menu
       [Sample.request "burger" 1 None] true
       (handleMultiItemOrder Sample.lower Sample.menu
          [Sample.request "burger" 1 None] true
          [Sample.line Sample.burger (2 ^ 53) None]).1).1
    = [Sample.line Sample.burger (2 ^ 53 - 1) None]
  ∧ (Sample.line Sample.burger (2 ^ 53) None
     ∉ (handleMultiItemRemoval Sample.lower Sample.menu
          [Sample.request "burger" 1 None] true
          (handleMultiItemOrder Sample.lower Sample.menu
             [Sample.request "burger" 1 None] true
             [Sample.line Sample.burger (2 ^ 53) None]).1).1)
  ∧ transform_free Sample.lower Sample.menu
      [Sample.request "burger" 1 None]
      [Sample.line Sample.burger (2 ^ 53) None] = true.
Proof.
  assert ((handleMultiItemRemoval Sample.lower Sample.menu
             [Sample.request "burger" 1 None] true
             (handleMultiItemOrder Sample.lower Sample.menu
                [Sample.request "burger" 1 None] true
                [Sample.line Sample.burger (2 ^ 53) None]).1).1
          = [Sample.line Sample.burger (2 ^ 53 - 1) None]) as Hback
    by (vm_compute; reflexivity).
  split; [vm_compute; reflexivity|]. split; [exact Hback|].
  split; [|vm_compute; reflexivity].
  rewrite Hback. intros Hin%list_elem_of_singleton. discriminate Hin.
Qed.

(* ===================================================================== *)
(** ** The theorems at the sample session *)
(* ===================================================================== *)

Lemma additions_keep_lines_distinct_witness :
  distinct_lines [Sample.line Sample.burger 3 None]
  ∧ distinct_lines
      (handleMultiItemOrder Sample.lower Sample.menu
         [Sample.request "Burger" 1 (Some "no onion");
          Sample.request "burger" 2 None;
          Sample.request "Burger" 1 (Some "no onion")]
         true [Sample.line Sample.burger 3 None]).1
  ∧ distinct_lines
      (handleAddItemToOrder Sample.burger (Some 2) (Some "")
         [Sample.line Sample.burger 3 None]).
Proof.
  assert (distinct_lines [Sample.line Sample.burger 3 None]) as Hd.
  { unfold distinct_lines. apply (bool_decide_unpack _). vm_compute. exact I. }
  split; [exact Hd|]. split.
  - apply (proj1 (additions_keep_lines_distinct Sample.lower Sample.menu)), Hd.
  - apply (proj2 (additions_keep_lines_distinct Sample.lower Sample.menu)), Hd.
Defined.

(** A plain burger line of quantity 3 and a request for one burger without
    onion: one customized line of quantity 1 is left, not 4. *)
Example transform_discards_plain_quantity :
  handleMultiItemOrder Sample.lower Sample.menu
    [Sample.request "Burger" 1 (Some "no onion")] true
    [Sample.line Sample.burger 3 None]
  = ([Sample.line Sample.burger 1 (Some "no onion")], []).
Proof. reflexivity. Qed.

Lemma customization_transform_rule_witness :
  (handleMultiItemOrder Sample.lower Sample.menu
     ([Sample.request "fries" 1 None]
      ++ [Sample.request "Burger" 2 (Some "no onion")])
     true [Sample.line Sample.burger 3 None]).1
  = [Sample.line Sample.fries 1 (Some "");
     Sample.line Sample.burger 2 (Some "no onion")].
Proof.
  apply (customization_transform_rule Sample.lower Sample.menu
           [Sample.request "fries" 1 None]
           (Sample.request "Burger" 2 (Some "no onion")) true
           [Sample.line Sample.burger 3 None] Sample.burger 0%nat
           (Sample.line Sample.burger 3 None));
    [reflexivity|discriminate|reflexivity|reflexivity].
Defined.

Lemma removal_deletes_or_decrements_witness :
  (handleMultiItemRemoval Sample.lower Sample.menu
     ([Sample.request "fries" 1 None] ++ [Sample.request "burger" 5 None])
     true
     [Sample.line Sample.burger 3 None; Sample.line Sample.fries 2 None]).1
  = [Sample.line Sample.fries 1 None]
  ∧ (handleMultiItemRemoval Sample.lower Sample.menu
       ([Sample.request "fries" 1 None] ++ [Sample.request "burger" 1 None])
       true
       [Sample.line Sample.burger 3 None; Sample.line Sample.fries 2 None]).1
    = [Sample.line Sample.burger 2 None; Sample.line Sample.fries 1 None].
Proof.
  split.
  - apply (proj1 (proj1 (removal_deletes_or_decrements Sample.lower Sample.menu)
             [Sample.request "fries" 1 None] (Sample.request "burger" 5 None)
             true
             [Sample.line Sample.burger 3 None; Sample.line Sample.fries 2 None]
             Sample.burger 0%nat (Sample.line Sample.burger 3 None)
             eq_refl eq_refl)).
    simpl. lia.
  - apply (proj2 (proj1 (removal_deletes_or_decrements Sample.lower Sample.menu)
             [Sample.request "fries" 1 None] (Sample.request "burger" 1 None)
             true
             [Sample.line Sample.burger 3 None; Sample.line Sample.fries 2 None]
             Sample.burger 0%nat (Sample.line Sample.burger 3 None)
             eq_refl eq_refl)).
    simpl. lia.
Defined.

(** The claim without the proviso, at a burger line of quantity [2^53 + 2]
    and a request to remove one burger: the line is left with [2^53], two
    less, since [2^53 + 1] is no binary64 value. *)
Lemma removal_is_rounded :
  (handleMultiItemRemoval Sample.lower Sample.menu
     [Sample.request "burger" 1 None] true
     [Sample.line Sample.burger (2 ^ 53 + 2) None]).1
  = [Sample.line Sample.burger (2 ^ 53) None]
  ∧ 2 ^ 53 ≠ 2 ^ 53 + 2 - 1.
Proof. split; [vm_compute; reflexivity|lia]. Qed.


Lemma checkout_of_empty_ledger_witness :
  handleCheckoutAndGoToBill Sample.rate_5_percent (Sample.state [] None false)
  = (Sample.state [] None false, false).
Proof. apply checkout_of_empty_ledger. reflexivity. Defined.

(* ===================================================================== *)
(** ** Further properties of the Ledger reducers *)
(* ===================================================================== *)

Section LedgerEdits.

Implicit Types (l w : list OrderItem) (oi : OrderItem).

Lemma distinct_lines_filter (Q : OrderItem → Prop) `{∀ x, Decision (Q x)} l :
  distinct_lines l → distinct_lines (filter Q l).
Proof.
  unfold distinct_lines. intros Hl.
  eapply sublist_NoDup; [exact Hl|]. apply fmap_sublist, sublist_filter.
Qed.

Lemma positive_lines_filter (Q : OrderItem → Prop) `{∀ x, Decision (Q x)} l :
  positive_lines l → positive_lines (filter Q l).
Proof.
  unfold positive_lines. rewrite !Forall_forall.
  intros Hl x [_ Hx]%list_elem_of_filter. auto.
Qed.

(** X1. The two Ledger invariants survive a quantity update, whatever the new
    quantity is. *)
Theorem update_quantity_keeps_invariants id q notes l :
  distinct_lines l → positive_lines l →
  distinct_lines (handleUpdateOrderItemQuantity id q notes l)
  ∧ positive_lines (handleUpdateOrderItemQuantity id q notes l).
Proof.
  intros Hd Hp. unfold handleUpdateOrderItemQuantity.
  destruct (Z.leb_spec q 0) as [Hq|Hq].
  - split; [by apply distinct_lines_filter | by apply positive_lines_filter].
  - split.
    + unfold distinct_lines in *. rewrite <- list_fmap_compose.
      erewrite list_fmap_ext; [exact Hd|].
      intros i x _. simpl. by destruct (decide _).
    + unfold positive_lines in *. apply Forall_fmap.
      eapply Forall_impl; [exact Hp|]. intros x Hx. simpl.
      simpl in Hx. destruct (decide _); simpl; lia.
Qed.

(** X2. A quantity of zero or less removes the line: the update is then the
    removal handler, and no line with the id and notes is left. *)
Theorem update_to_nothing_is_removal id q notes l :
  q ≤ 0 →
  handleUpdateOrderItemQuantity id q notes l = handleRemoveOrderItem id notes l
  ∧ list_find (same_line id (norm_notes notes))
              (handleUpdateOrderItemQuantity id q notes l) = None.
Proof.
  intros Hq. unfold handleUpdateOrderItemQuantity, handleRemoveOrderItem.
  assert ((q <=? 0) = true) as -> by (by apply Z.leb_le).
  split; [done|]. apply list_find_None, Forall_forall.
  by intros x [Hx _]%list_elem_of_filter.
Qed.

(** X3. A positive quantity is written into the one line with the id and notes
    and nothing else changes; without such a line the Ledger is as it was. *)
Theorem update_sets_one_line id q notes l :
  0 < q → distinct_lines l →
  match list_find (same_line id (norm_notes notes)) l with
  | Some (i, line) =>
      handleUpdateOrderItemQuantity id q notes l
      = <[i := set_quantity q line]> l
  | None => handleUpdateOrderItemQuantity id q notes l = l
  end.
Proof.
  intros Hq Hd. unfold handleUpdateOrderItemQuantity.
  assert ((q <=? 0) = false) as -> by (by apply Z.leb_gt).
  destruct (list_find _ l) as [[i line]|] eqn:Hfind.
  - apply find_some_key in Hfind as [Hi Hk].
    rewrite <- (alter_lookup_insert (set_quantity q) l i line Hi).
    rewrite (alter_keyed _ _ _ _ Hd Hi). apply list_fmap_ext.
    intros j x _. unfold upd. rewrite Hk.
    destruct (decide (same_line _ _ x)) as [Hs|Hs], (decide (line_key x = _))
      as [Hx|Hx]; try done.
    + by apply same_line_key in Hs.
    + by apply same_line_key in Hx.
  - rewrite <- (list_fmap_id l) at 2. apply list_fmap_ext.
    intros j x Hx. rewrite decide_False; [done|].
    apply list_find_None in Hfind. rewrite Forall_forall in Hfind.
    apply Hfind. by eapply list_elem_of_lookup_2.
Qed.

(** X4. Removing a line never touches the others, and removing twice is removing
    once. *)
Theorem remove_item_is_idempotent id notes l :
  handleRemoveOrderItem id notes (handleRemoveOrderItem id notes l)
  = handleRemoveOrderItem id notes l
  ∧ (∀ oi, oi ∈ handleRemoveOrderItem id notes l
           ↔ oi ∈ l ∧ line_key oi ≠ (id, norm_notes notes)).
Proof.
  unfold handleRemoveOrderItem. split.
  - apply filter_all, Forall_forall. by intros x [Hx _]%list_elem_of_filter.
  - intros oi. rewrite list_elem_of_filter, same_line_key. tauto.
Qed.

(** X5. Adding an item that has no line yet and removing it again gives the
    Ledger back. *)
Theorem add_then_remove_item m qty notes l :
  list_find (same_line (mi_id m) (norm_notes notes)) l = None →
  handleRemoveOrderItem (mi_id m) notes (handleAddItemToOrder m qty notes l) = l.
Proof.
  intros Hnone. unfold handleAddItemToOrder, handleRemoveOrderItem, findIndex.
  rewrite Hnone. simpl. rewrite filter_app, filter_all.
  - rewrite filter_cons_False, filter_nil, app_nil_r; [done|].
    intros Hne. by apply Hne.
  - apply list_find_None in Hnone. exact Hnone.
Qed.

End LedgerEdits.

(* ===================================================================== *)
(** ** Further properties of the batch reducers *)
(* ===================================================================== *)

Section Batches.

Variable toLowerCase : string → string.
Variable activeMenuItems : list MenuItem.

Local Abbreviation lookup_item := (find_menu_item toLowerCase activeMenuItems).
Local Abbreviation add_one := (add_step toLowerCase activeMenuItems).
Local Abbreviation remove_one := (remove_step toLowerCase activeMenuItems).
Local Abbreviation batch_add := (handleMultiItemOrder toLowerCase activeMenuItems).
Local Abbreviation batch_remove := (handleMultiItemRemoval toLowerCase activeMenuItems).
Local Abbreviation resolved_in := (resolved toLowerCase activeMenuItems).

Implicit Types (w : list OrderItem) (oi : OrderItem) (n : string).

(** *** Quantities stay positive under additions *)

Lemma add_to_order_positive m q n w :
  0 < q → positive_lines w → positive_lines (add_to_order m q n w).
Proof.
  unfold positive_lines. intros Hq Hw.
  assert (∀ i v, Forall (λ oi, 0 < quantity oi) v →
            Forall (λ oi, 0 < quantity oi)
                   (alter (λ oi, set_quantity (plus (quantity oi) q) oi) i v))
    as Halt.
  { intros i v Hv. apply Forall_alter_pres; [|done]. intros x Hx. simpl in *.
    apply plus_positive. lia. }
  assert (∀ v, Forall (λ oi, 0 < quantity oi) v →
            Forall (λ oi, 0 < quantity oi) (v ++ [new_line m q n])) as Hpush.
  { intros v Hv. apply Forall_app. split; [done|]. by constructor. }
  unfold add_to_order.
  destruct (findIndex (same_line (mi_id m) n) w); [by apply Halt|].
  destruct (decide _); [|by apply Hpush].
  destruct (findIndex (same_line (mi_id m) EmptyString) w); [|by apply Hpush].
  destruct (findIndex _ (delete _ w)).
  - by apply Halt, Forall_delete.
  - by apply Hpush, Forall_delete.
Qed.

(** X6. A batch of additions whose quantities are all positive keeps every
    quantity of the Ledger positive. *)
Theorem additions_keep_quantities_positive orders sink prevOrder :
  Forall (λ order, 0 < req_quantity order) orders →
  positive_lines prevOrder →
  positive_lines (batch_add orders sink prevOrder).1.
Proof.
  intros Hq Hprev. unfold handleMultiItemOrder; simpl.
  set (st := {| add_workingOrder := prevOrder |}).
  assert (positive_lines (add_workingOrder st)) as Hst by done.
  clearbody st. revert st Hst.
  induction Hq as [|o orders Ho _ IH]; intros st Hst; simpl; [done|].
  apply IH. unfold add_step. destruct (lookup_item (itemName o)); simpl; [|done].
  by apply add_to_order_positive.
Qed.

(** *** Removals keep the lines distinct *)

Lemma remove_from_order_distinct m r n w w' :
  distinct_lines w → remove_from_order m r n w = Some w' → distinct_lines w'.
Proof.
  unfold remove_from_order, remove_at_line. intros Hw Hrm.
  destruct (list_find _ w) as [[i x]|]; [|done].
  destruct (_ >=? _); simplify_eq.
  - by apply distinct_lines_delete.
  - by apply distinct_lines_alter.
Qed.

(** X7. A batch of removals keeps the Ledger free of two lines with equal
    (id, normalized notes). *)
Theorem removals_keep_lines_distinct removals sink prevOrder :
  distinct_lines prevOrder →
  distinct_lines (batch_remove removals sink prevOrder).1.
Proof.
  intros Hprev. unfold handleMultiItemRemoval; simpl.
  set (st := {| rm_workingOrder := prevOrder |}).
  assert (distinct_lines (rm_workingOrder st)) as Hst by done.
  clearbody st. revert st Hst.
  induction removals as [|r rs IH]; intros st Hst; simpl; [done|].
  apply IH. unfold remove_step.
  destruct (lookup_item (itemName r)); simpl; [|done].
  destruct (remove_from_order _ _ _ _) eqn:Hrm; simpl; [|done].
  by eapply remove_from_order_distinct.
Qed.

(** *** The messages of a batch *)



Lemma remove_loop_flags removals st :
  let st' := fold_left remove_one removals st in
  (rm_itemsActuallyProcessed st = true → rm_itemsActuallyProcessed st' = true)
  ∧ (rm_notFoundOrNotInOrder st ≠ [] → rm_notFoundOrNotInOrder st' ≠ [])
  ∧ (removals ≠ [] →
     rm_itemsActuallyProcessed st' = true ∨ rm_notFoundOrNotInOrder st' ≠ []).
Proof.
  revert st. induction removals as [|r rs IH]; intros st; simpl; [done|].
  destruct (IH (remove_one st r)) as (Hp & Hn & _). simpl in Hp, Hn.
  assert (rm_itemsActuallyProcessed st = true →
          rm_itemsActuallyProcessed (remove_one st r) = true) as Hp1.
  { unfold remove_step. destruct (lookup_item _); [|done].
    by destruct (remove_from_order _ _ _ _). }
  assert (rm_itemsActuallyProcessed (remove_one st r) = true
          ∨ rm_notFoundOrNotInOrder (remove_one st r) ≠ []) as Hone.
  { unfold remove_step. destruct (lookup_item _); simpl.
    - destruct (remove_from_order _ _ _ _); simpl; [by left|].
      right. by destruct (rm_notFoundOrNotInOrder st).
    - right. by destruct (rm_notFoundOrNotInOrder st). }
  assert (rm_notFoundOrNotInOrder st ≠ [] →
          rm_notFoundOrNotInOrder (remove_one st r) ≠ []) as Hn1.
  { unfold remove_step. destruct (lookup_item _); simpl.
    - destruct (remove_from_order _ _ _ _); simpl; [done|].
      by destruct (rm_notFoundOrNotInOrder st).
    - by destruct (rm_notFoundOrNotInOrder st). }
  split; [auto|]. split; [auto|]. intros _. destruct Hone; auto.
Qed.

(** X9. The removals reducer passes at most one message to the sink, the list
    of the requests it could not process; its generic message is never
    passed. *)
Theorem removals_report_at_most_once removals sink prevOrder :
  (batch_remove removals sink prevOrder).2 = []
  ∨ ∃ missing, missing ≠ []
      ∧ (batch_remove removals sink prevOrder).2 = [could_not_process missing].
Proof.
  unfold handleMultiItemRemoval. cbn [snd].
  destruct sink; [|by left].
  set (st' := fold_left _ _ _).
  destruct (decide (rm_notFoundOrNotInOrder st' = [])) as [Hu|Hu].
  - left. rewrite (bool_decide_eq_false_2 (_ ≠ [])) by (intros H; by apply H).
    rewrite (bool_decide_eq_true_2 (_ = [])) by done. simpl.
    destruct (rm_itemsActuallyProcessed st') eqn:Hp; [done|]. simpl.
    destruct (decide (removals = [])) as [->|Hne]; [done|].
    destruct (remove_loop_flags removals
                {| rm_workingOrder := prevOrder;
                   rm_itemsActuallyProcessed := false;
                   rm_notFoundOrNotInOrder := [] |}) as (_ & _ & Hsome).
    destruct (Hsome Hne) as [H|H]; fold st' in H; [congruence|done].
  - right. exists (rm_notFoundOrNotInOrder st'). split; [done|].
    rewrite (bool_decide_eq_true_2 (_ ≠ [])) by done.
    rewrite (bool_decide_eq_false_2 (_ = [])) by done.
    by rewrite andb_false_r, app_nil_r.
Qed.

(** *** The size of the Ledger *)

Lemma add_to_order_length m q n w :
  (length w ≤ length (add_to_order m q n w) ≤ length w + 1)%nat.
Proof.
  unfold add_to_order, findIndex.
  destruct (list_find (same_line (mi_id m) n) w) as [[i x]|] eqn:Hexact; simpl.
  { rewrite length_alter. lia. }
  destruct (decide _); [|rewrite List.length_app; simpl; lia].
  destruct (list_find (same_line (mi_id m) EmptyString) w) as [[p y]|] eqn:Hp;
    simpl; [|rewrite List.length_app; simpl; lia].
  rewrite (find_none_delete _ _ _ p Hexact). simpl.
  apply list_find_Some in Hp as (Hp & _).
  apply lookup_lt_Some in Hp.
  rewrite List.length_app, length_delete by (by apply lookup_lt_is_Some_2).
  simpl. lia.
Qed.

(** X10. A batch of additions never shortens the Ledger and adds at most one
    line per request. *)
Theorem additions_never_shorten orders sink prevOrder :
  (length prevOrder
   ≤ length (handleMultiItemOrder toLowerCase activeMenuItems
               orders sink prevOrder).1
   ≤ length prevOrder + length orders)%nat.
Proof.
  unfold handleMultiItemOrder; cbn [fst].
  set (st := {| add_workingOrder := prevOrder |}).
  change prevOrder with (add_workingOrder st). clearbody st. revert st.
  induction orders as [|o orders IH]; intros st; simpl; [lia|].
  specialize (IH (add_one st o)).
  assert (length (add_workingOrder st)
          ≤ length (add_workingOrder (add_one st o))
          ≤ length (add_workingOrder st) + 1)%nat; [|lia].
  unfold add_step. destruct (lookup_item _); simpl; [|lia].
  apply add_to_order_length.
Qed.

(** X11. A batch of removals never lengthens the Ledger and deletes at most one
    line per request. *)
Theorem removals_never_lengthen removals sink prevOrder :
  (length prevOrder - length removals
   ≤ length (handleMultiItemRemoval toLowerCase activeMenuItems
               removals sink prevOrder).1
   ≤ length prevOrder)%nat.
Proof.
  unfold handleMultiItemRemoval; cbn [fst].
  set (st := {| rm_workingOrder := prevOrder |}).
  change prevOrder with (rm_workingOrder st). clearbody st. revert st.
  induction removals as [|r rs IH]; intros st; simpl; [lia|].
  specialize (IH (remove_one st r)).
  assert (length (rm_workingOrder st) - 1
          ≤ length (rm_workingOrder (remove_one st r))
          ≤ length (rm_workingOrder st))%nat; [|lia].
  unfold remove_step. destruct (lookup_item _); simpl; [|lia].
  unfold remove_from_order, remove_at_line.
  destruct (list_find _ _) as [[i x]|] eqn:Hfind; simpl; [|lia].
  apply list_find_Some in Hfind as (Hi & _). apply lookup_lt_Some in Hi.
  destruct (_ >=? _).
  - rewrite length_delete by (by apply lookup_lt_is_Some_2). lia.
  - rewrite length_alter. lia.
Qed.

(** *** Lines of other items *)

Lemma resolved_cons o orders :
  resolved_in (o :: orders)
  = match lookup_item (itemName o) with
    | Some m => (m, req_quantity o, norm_notes (req_notes o)) :: resolved_in orders
    | None => resolved_in orders
    end.
Proof. unfold resolved. simpl. by destruct (lookup_item (itemName o)). Qed.

Lemma elem_of_alter_other (f : OrderItem → OrderItem) i w x oi :
  w !! i = Some x → oi ≠ x → oi ∈ w → oi ∈ alter f i w.
Proof.
  intros Hi Hne [j Hj]%list_elem_of_lookup.
  apply list_elem_of_lookup. exists j.
  rewrite list_lookup_alter_ne; [done|]. intros ->. congruence.
Qed.

Lemma elem_of_delete_other i w x oi :
  w !! i = Some x → oi ≠ x → oi ∈ w → oi ∈ delete i w.
Proof.
  intros Hi Hne Hin.
  rewrite <- (take_drop_middle w i x Hi) in Hin.
  rewrite delete_take_drop.
  rewrite elem_of_app, elem_of_cons in Hin. rewrite elem_of_app. tauto.
Qed.

Lemma add_to_order_other m q n w oi :
  oi_id oi ≠ mi_id m → oi ∈ w → oi ∈ add_to_order m q n w.
Proof.
  intros Hid Hin. unfold add_to_order, findIndex.
  assert (∀ k v i x, list_find (same_line (mi_id m) k) v = Some (i, x) →
            v !! i = Some x ∧ oi ≠ x) as Hfound.
  { intros k v i x (Hi & [Hx _] & _)%list_find_Some. split; [done|].
    intros ->. done. }
  destruct (list_find (same_line (mi_id m) n) w) as [[i x]|] eqn:Hexact; simpl.
  { destruct (Hfound _ _ _ _ Hexact). by eapply elem_of_alter_other. }
  destruct (decide _); [|apply elem_of_app; by left].
  destruct (list_find (same_line (mi_id m) EmptyString) w) as [[p y]|] eqn:Hp;
    simpl; [|apply elem_of_app; by left].
  destruct (Hfound _ _ _ _ Hp).
  assert (oi ∈ delete p w) as Hdel by (by eapply elem_of_delete_other).
  destruct (list_find _ (delete p w)) as [[j z]|] eqn:Hj; simpl.
  - destruct (Hfound _ _ _ _ Hj). by eapply elem_of_alter_other.
  - apply elem_of_app; by left.
Qed.

(** X12. A batch of additions leaves alone every line whose item no request of
    the batch resolves to. *)
Theorem additions_leave_other_items orders sink prevOrder oi :
  oi ∈ prevOrder →
  (∀ r, r ∈ resolved_in orders → mi_id r.1.1 ≠ oi_id oi) →
  oi ∈ (batch_add orders sink prevOrder).1.
Proof.
  intros Hin Hother. unfold handleMultiItemOrder; cbn [fst].
  set (st := {| add_workingOrder := prevOrder |}).
  change prevOrder with (add_workingOrder st) in Hin. clearbody st.
  revert st Hin. induction orders as [|o orders IH]; intros st Hin; simpl; [done|].
  rewrite resolved_cons in Hother. unfold add_step.
  destruct (lookup_item (itemName o)) as [m|]; simpl; apply IH; try done.
  - intros r Hr. apply Hother. by right.
  - apply add_to_order_other; [|done].
    intros Heq. eapply (Hother (m, req_quantity o, norm_notes (req_notes o))); [|done].
    by left.
Qed.

(** X13. A batch of removals leaves alone every line whose item no request of
    the batch resolves to. *)
Theorem removals_leave_other_items removals sink prevOrder oi :
  oi ∈ prevOrder →
  (∀ r, r ∈ resolved_in removals → mi_id r.1.1 ≠ oi_id oi) →
  oi ∈ (batch_remove removals sink prevOrder).1.
Proof.
  intros Hin Hother. unfold handleMultiItemRemoval; cbn [fst].
  set (st := {| rm_workingOrder := prevOrder |}).
  change prevOrder with (rm_workingOrder st) in Hin. clearbody st.
  revert st Hin. induction removals as [|o orders IH]; intros st Hin; simpl; [done|].
  rewrite resolved_cons in Hother. unfold remove_step.
  destruct (lookup_item (itemName o)) as [m|]; simpl; apply IH; try done.
  - intros r Hr. apply Hother. by right.
  - assert (oi_id oi ≠ mi_id m) as Hid.
    { intros Heq.
      eapply (Hother (m, req_quantity o, norm_notes (req_notes o))); [|done].
      by left. }
    unfold remove_from_order, remove_at_line.
    destruct (list_find _ _) as [[i x]|] eqn:Hfind; simpl; [|done].
    apply list_find_Some in Hfind as (Hi & [Hx _] & _).
    assert (oi ≠ x) by (intros ->; done).
    destruct (_ >=? _).
    + by eapply elem_of_delete_other.
    + by eapply elem_of_alter_other.
Qed.

(** *** Removals that find nothing *)


(** *** A removal that takes a whole line *)

(** X15. On a Ledger with distinct lines, a batch removal that asks for at least
    the quantity of the line it finds gives the Ledger of the remove-line
    handler. *)
Theorem whole_line_removal_agrees removal m i line sink prevOrder :
  distinct_lines prevOrder →
  lookup_item (itemName removal) = Some m →
  list_find (same_line (mi_id m) (norm_notes (req_notes removal))) prevOrder
    = Some (i, line) →
  quantity line ≤ req_quantity removal →
  (batch_remove [removal] sink prevOrder).1
  = handleRemoveOrderItem (mi_id m) (req_notes removal) prevOrder.
Proof.
  intros Hd Hm Hfind Hq. unfold handleMultiItemRemoval.
  cbn [fst fold_left]. unfold remove_step. rewrite Hm.
  unfold remove_from_order. cbn [rm_workingOrder]. rewrite Hfind.
  unfold remove_at_line. cbn [rm_workingOrder].
  assert ((req_quantity removal >=? quantity line) = true) as ->
    by (apply Z.geb_le; lia).
  apply find_some_key in Hfind as [Hi Hk].
  rewrite (delete_keyed _ _ _ Hd Hi), Hk. unfold handleRemoveOrderItem.
  apply list_filter_iff. intros x. by rewrite same_line_key.
Qed.

(** *** The single add and a batch of one *)

(** X16. Adding one item through the batch reducer gives the same Ledger as the
    single add, provided the request resolves to the item, the customization
    rule is not triggered, and the line exists already or notes are given. *)
Theorem single_add_agrees_with_batch order m sink prevOrder :
  lookup_item (itemName order) = Some m →
  transform_triggers m (norm_notes (req_notes order)) prevOrder = false →
  is_Some (req_notes order)
  ∨ is_Some (list_find (same_line (mi_id m) (norm_notes (req_notes order)))
                       prevOrder) →
  (batch_add [order] sink prevOrder).1
  = handleAddItemToOrder m (Some (req_quantity order)) (req_notes order)
                         prevOrder.
Proof.
  intros Hm Hfree Hnotes.
  unfold handleMultiItemOrder, handleAddItemToOrder; simpl.
  unfold add_step. rewrite Hm; simpl.
  unfold transform_triggers in Hfree. unfold add_to_order, findIndex in *.
  destruct (list_find (same_line (mi_id m) (norm_notes (req_notes order)))
                      prevOrder) as [[i x]|] eqn:Hexact; simpl; [done|].
  destruct Hnotes as [[s Hs]|[? ?]]; [|done].
  assert (new_line m (req_quantity order) (norm_notes (req_notes order))
          = {| oi_item := m; quantity := req_quantity order;
               customizationNotes := req_notes order |}) as ->.
  { unfold new_line. by rewrite Hs. }
  destruct (decide _) as [Hn|Hn]; [|done].
  destruct (list_find (same_line (mi_id m) EmptyString) prevOrder)
    as [[p y]|] eqn:Hp; simpl; [|done].
  exfalso. rewrite (bool_decide_eq_true_2 _ Hn) in Hfree.
  cbn [fmap option_fmap option_map fst] in Hfree.
  rewrite (bool_decide_eq_false_2 (is_Some None)) in Hfree
    by (by intros [? ?]).
  rewrite (bool_decide_eq_true_2 (is_Some (Some p))) in Hfree by eauto.
  done.
Qed.

End Batches.

(* ===================================================================== *)
(** ** Further properties of checkout and submission *)
(* ===================================================================== *)

Section SubmissionCycle.

Variable GST_RATE : number.

Local Abbreviation checkout := (handleCheckoutAndGoToBill GST_RATE).


(** X19. Checking out twice in a row gives the state and the result of checking
    out once. *)
Theorem checkout_is_idempotent st :
  handleCheckoutAndGoToBill GST_RATE (handleCheckoutAndGoToBill GST_RATE st).1
  = handleCheckoutAndGoToBill GST_RATE st.
Proof.
  unfold handleCheckoutAndGoToBill.
  destruct (orderItems st) as [|oi l] eqn:Hl; simpl; [by rewrite Hl|].
  by rewrite Hl.
Qed.

(** X20. An order that is checked out and then confirmed is not written, and
    starting a new order afterwards discards it: the application is back in
    its initial state and nothing was sent. *)
Theorem checked_out_order_is_discarded now st :
  isSubmitting st = false → orderItems st ≠ [] →
  remote_writes (confirm now (checkout st).1).2 = []
  ∧ orderItems (confirm now (checkout st).1).1 = orderItems st
  ∧ handleStartNewOrderFromFinalConfirmation
      (confirm now (checkout st).1).1
    = initialState.
Proof.
  intros Hidle Hitems. unfold handleCheckoutAndGoToBill.
  destruct (orderItems st) as [|oi l] eqn:Hl; [done|]. cbn [fst].
  unfold handleConfirmOrderAndGoToFinalConfirmation.
  cbn [isSubmitting currentBillData navigateTo setCurrentBillData].
  rewrite Hidle.
  rewrite checkout_bill_invalid.
  cbn [fst snd]. split; [done|]. split; [done|].
  unfold handleStartNewOrderFromFinalConfirmation, initialState, navigateTo,
    setTableNumber, setOrderItems, setCurrentBillData. simpl.
  by rewrite Hidle.
Qed.

(** *** A price that is not a number *)

Lemma add_nan_l x : add S754_nan x = S754_nan.
Proof. done. Qed.

Lemma add_nan_r x : add x S754_nan = S754_nan.
Proof. by destruct x. Qed.

Lemma mul_nan_l x : mul S754_nan x = S754_nan.
Proof. done. Qed.

Lemma subtotal_nan_from (l : list OrderItem) :
  fold_left (λ sum item, add sum (mul (parsePrice (oi_price item))
                                      (of_Z (quantity item))))
            l S754_nan = S754_nan.
Proof. induction l as [|x l IH]; [done|]. cbn [fold_left]. by rewrite add_nan_l. Qed.

Lemma subtotal_nan (l : list OrderItem) oi acc :
  oi ∈ l → parsePrice (oi_price oi) = S754_nan →
  fold_left (λ sum item, add sum (mul (parsePrice (oi_price item))
                                      (of_Z (quantity item))))
            l acc = S754_nan.
Proof.
  intros Hin Hnan. revert acc.
  induction Hin as [x l|x y l Hin IH]; intros acc; cbn [fold_left].
  - by rewrite Hnan, mul_nan_l, add_nan_r, subtotal_nan_from.
  - by apply IH.
Qed.

(** X21. One line whose price does not parse voids the whole bill: the subtotal
    and the three money fields of the snapshot all read [₹NaN]. *)
Theorem unpriced_line_voids_the_bill l table oi :
  oi ∈ l → parsePrice (oi_price oi) = S754_nan →
  calculateSubtotal l = "₹NaN"%string
  ∧ subtotal (make_bill GST_RATE l table) = "₹NaN"%string
  ∧ gstAmount (make_bill GST_RATE l table) = "₹NaN"%string
  ∧ grandTotal (make_bill GST_RATE l table) = "₹NaN"%string.
Proof.
  intros Hin Hnan.
  assert (calculateSubtotal l = "₹NaN"%string) as Hsub.
  { unfold calculateSubtotal. by rewrite (subtotal_nan l oi _ Hin Hnan). }
  assert (subtotalNum l = S754_nan) as Hnum.
  { unfold subtotalNum. rewrite Hsub. by vm_compute. }
  split; [done|]. unfold make_bill, gstAmountNum, grandTotalNum; simpl.
  by rewrite Hnum.
Qed.

End SubmissionCycle.

(* ===================================================================== *)
(** ** The table number form *)
(* ===================================================================== *)

Section TableNumber.

Import JsString Decimal.
Local Open Scope string_scope.
Local Open Scope Z_scope.

Implicit Types (s t u ds : string) (a b c : ascii) (n : Z).

Local Abbreviation form := TableNumberPage.Build_Form.
Local Abbreviation submit := TableNumberPage.handleSubmit.

Lemma trim_all_digits c ds :
  all_digits (String c ds) = true → trim (String c ds) = String c ds.
Proof.
  intros Hall. destruct (all_digits_last c ds Hall) as (u & b & Heq & [bv Hb]).
  assert (is_Some (digit_val c)) as [cv Hc].
  { simpl in Hall. by apply andb_true_iff in Hall as [?%bool_decide_eq_true _]. }
  apply digit_val_plain in Hc as (Hc1 & Hc2 & _).
  apply digit_val_plain in Hb as (Hb1 & Hb2 & _).
  unfold trim. rewrite trimStart_plain by (done || lia).
  rewrite Heq. by apply trimEnd_plain.
Qed.

Lemma non_decimal_all_digits t :
  all_digits t = true → non_decimal_literal t = None.
Proof.
  intros Hall. unfold non_decimal_literal.
  destruct t as [|a [|c [|d rest]]]; [done| | |];
    try (by destruct a as [[] [] [] [] [] [] [] []]).
  cbn [all_digits] in Hall.
  apply andb_true_iff in Hall as [_ Hall].
  apply andb_true_iff in Hall as [[cv Hc]%bool_decide_eq_true _].
  assert (∀ x, (nat_of_ascii x > 57)%nat → Ascii.eqb c x = false) as Hne.
  { intros x Hx. apply Ascii.eqb_neq. intros ->.
    unfold digit_val in Hc. destruct (_ && _) eqn:Hr; [|done].
    apply andb_true_iff in Hr as [_ ?%Z.leb_le]. lia. }
  assert ((if Ascii.eqb c "x" || Ascii.eqb c "X" then 16
           else if Ascii.eqb c "o" || Ascii.eqb c "O" then 8
           else if Ascii.eqb c "b" || Ascii.eqb c "B" then 2 else 0) = 0)
    as Hradix.
  { by rewrite !Hne by (unfold gt; apply Nat.ltb_lt; reflexivity). }
  destruct a as [[] [] [] [] [] [] [] []]; try done.
  cbv zeta. by rewrite Hradix.
Qed.

Lemma scan_decimal_all_digits (neg : bool) c ds :
  all_digits (String c ds) = true →
  scan_decimal ((if neg then "-" else "") ++ String c ds)
  = Some (round_ratio neg (digits_value (String c ds) 0) 1, "").
Proof.
  intros Hall.
  assert (is_Some (digit_val c)) as Hc.
  { simpl in Hall. by apply andb_true_iff in Hall as [?%bool_decide_eq_true _]. }
  destruct (scan_sign_digit neg c ds Hc) as [Hsign Hinf].
  unfold scan_decimal. rewrite Hsign, Hinf.
  rewrite <- (app_empty_r (String c ds)) at 1.
  rewrite scan_digits_app by done.
  cbn [scan_digits].
  assert ((0 <? 0 + Z.of_nat (String.length (String c ds))) = true) as ->.
  { apply Z.ltb_lt. simpl. lia. }
  cbn [scan_exponent]. unfold decimal_value.
  change (Z.max 0 0) with 0. change (Z.max 0 (- 0)) with 0.
  change (10 ^ 0) with 1. by rewrite Z.mul_1_r.
Qed.

Lemma Number_all_digits c ds :
  all_digits (String c ds) = true →
  Number (String c ds) = round_ratio false (digits_value (String c ds) 0) 1.
Proof.
  intros Hall. unfold Number. rewrite trim_all_digits by done.
  rewrite non_decimal_all_digits by done.
  pose proof (scan_decimal_all_digits false c ds Hall) as Hscan.
  change ((if false then "-" else "") ++ String c ds)
    with (String c ds) in Hscan.
  by rewrite Hscan.
Qed.

Lemma Number_negative c ds :
  all_digits (String c ds) = true →
  Number ("-" ++ String c ds)
  = round_ratio true (digits_value (String c ds) 0) 1.
Proof.
  intros Hall. unfold Number.
  destruct (all_digits_last c ds Hall) as (u & b & Heq & [bv Hb]).
  apply digit_val_plain in Hb as (Hb1 & Hb2 & _).
  assert (trim ("-" ++ String c ds) = "-" ++ String c ds) as ->.
  { rewrite Heq. change ("-" ++ (u ++ String b "")) with (String "-" (u ++ String b "")).
    apply trim_plain_ends; try done. apply Nat.ltb_lt. reflexivity. }
  change ("-" ++ String c ds) with (String "-" (String c ds)). cbv beta iota.
  assert (non_decimal_literal (String "-" (String c ds)) = None) as ->.
  { by destruct ds. }
  pose proof (scan_decimal_all_digits true c ds Hall) as Hscan.
  change ((if true then "-" else "") ++ String c ds)
    with (String "-" (String c ds)) in Hscan.
  by rewrite Hscan.
Qed.

(** X22. The form accepts every run of digits that denotes a table number from
    1 up (below [2^53]), leading zeros included, clears the error and
    submits the text as typed. *)
Theorem table_number_accepts_whole_numbers ds err :
  ds ≠ "" → all_digits ds = true → 1 ≤ digits_value ds 0 < 2 ^ 53 →
  submit (form ds err) = (form ds "", Some ds).
Proof.
  intros Hne Hall Hval. destruct ds as [|c ds]; [done|].
  unfold TableNumberPage.handleSubmit. cbn [TableNumberPage.tableNumber].
  rewrite Number_all_digits, trim_all_digits by done.
  destruct (round_ratio_small_integer false _ Hval) as (m & k & Hk & Hm & ->).
  rewrite bool_decide_eq_false_2 by done.
  assert (TableNumberPage.isInteger (S754_finite false m (- k)) = true) as ->.
  { unfold TableNumberPage.isInteger. apply orb_true_iff. right.
    rewrite Z.opp_involutive, Hm, Z.mod_mul; [done|].
    apply Z.pow_nonzero; lia. }
  done.
Qed.

Lemma rejected_when s err num :
  Number s = num →
  isNaN num || SFleb num (S754_zero false) = true →
  submit (form s err)
  = (form s TableNumberPage.invalid_table_number, None).
Proof.
  intros Hnum Hbad. unfold TableNumberPage.handleSubmit.
  cbn [TableNumberPage.tableNumber]. rewrite Hnum.
  rewrite <- !orb_assoc, (orb_assoc (isNaN num)), Hbad.
  by rewrite orb_true_r.
Qed.

(** X23. The form rejects a blank input, a run of digits that denotes zero, and
    every run of digits with a minus sign in front: the error message is
    set and nothing is submitted. *)
Theorem table_number_rejects_blank_zero_negative err :
  (∀ s, trim s = "" →
        submit (form s err)
        = (form s TableNumberPage.invalid_table_number, None))
  ∧ (∀ ds, ds ≠ "" → all_digits ds = true → digits_value ds 0 = 0 →
        submit (form ds err)
        = (form ds TableNumberPage.invalid_table_number, None))
  ∧ (∀ ds, ds ≠ "" → all_digits ds = true →
        submit (form ("-" ++ ds) err)
        = (form ("-" ++ ds) TableNumberPage.invalid_table_number, None)).
Proof.
  split; [|split].
  - intros s Hs. unfold TableNumberPage.handleSubmit.
    cbn [TableNumberPage.tableNumber]. by rewrite Hs.
  - intros [|c ds] Hne Hall Hval; [done|].
    eapply rejected_when; [by apply Number_all_digits|]. by rewrite Hval.
  - intros [|c ds] Hne Hall; [done|].
    eapply rejected_when; [by apply Number_negative|].
    rewrite round_ratio_sign. by destruct (round_ratio false _ _).
Qed.

(** X24. Whatever the form submits is the trimmed input, it is not blank, and
    [Number] reads the input as a whole number from 1 up. *)
Theorem submitted_table_number_is_whole st st' v :
  submit st = (st', Some v) →
  v = trim (TableNumberPage.tableNumber st)
  ∧ v ≠ ""
  ∧ TableNumberPage.error st' = ""
  ∧ ∃ n m e, 1 ≤ n
      ∧ Number (TableNumberPage.tableNumber st) = S754_finite false m e
      ∧ Zpos m * 2 ^ Z.max 0 e = n * 2 ^ Z.max 0 (- e).
Proof.
  unfold TableNumberPage.handleSubmit.
  destruct (bool_decide _) eqn:Hblank; [done|].
  apply bool_decide_eq_false in Hblank.
  destruct (Number (TableNumberPage.tableNumber st)) as [s|s| |s m e] eqn:Hnum;
    try done; try (by destruct s).
  destruct s; [done|]. cbn [isNaN SFleb SFcompare orb].
  destruct (TableNumberPage.isInteger _) eqn:Hint; [|done].
  intros [= <- <-]. split; [done|]. split; [done|]. split; [done|].
  unfold TableNumberPage.isInteger in Hint.
  apply orb_true_iff in Hint as [He%Z.leb_le|Hmod%Z.eqb_eq].
  - exists (Zpos m * 2 ^ e), m, e. split; [|split; [done|]].
    + assert (0 < 2 ^ e) by (apply Z.pow_pos_nonneg; lia). nia.
    + rewrite (Z.max_r 0 e), (Z.max_l 0 (- e)) by lia.
      change (2 ^ 0) with 1. lia.
  - destruct (Z.le_gt_cases 0 e) as [He|He].
    + exists (Zpos m * 2 ^ e), m, e. split; [|split; [done|]].
      * assert (0 < 2 ^ e) by (apply Z.pow_pos_nonneg; lia). nia.
      * rewrite (Z.max_r 0 e), (Z.max_l 0 (- e)) by lia.
        change (2 ^ 0) with 1. lia.
    + assert (0 < 2 ^ (- e)) as Hpow by (apply Z.pow_pos_nonneg; lia).
      exists (Zpos m / 2 ^ (- e)), m, e. split; [|split; [done|]].
      * pose proof (Z.div_mod (Zpos m) (2 ^ (- e)) ltac:(lia)) as Hdm.
        rewrite Hmod in Hdm. nia.
      * rewrite (Z.max_l 0 e), (Z.max_r 0 (- e)) by lia.
        change (2 ^ 0) with 1.
        pose proof (Z.div_mod (Zpos m) (2 ^ (- e)) ltac:(lia)) as Hdm.
        rewrite Hmod in Hdm. lia.
Qed.

Section OnTheBill.

Variable GST_RATE : number.

(** X25. A rejected submit leaves the application as it was. An accepted one
    stores the trimmed input and shows the chat page without touching the
    Ledger, and a later checkout prints that table number on the bill. *)
Theorem table_number_reaches_the_bill frm st :
  let st' := (submitTableNumber frm st).2 in
  match (submit frm).2 with
  | None => st' = st
  | Some v =>
      v = trim (TableNumberPage.tableNumber frm)
      ∧ currentPage st' = chat
      ∧ tableNumber st' = v
      ∧ orderItems st' = orderItems st
      ∧ ∀ l, l ≠ [] →
          bill_tableNumber
            <$> currentBillData
                  (handleCheckoutAndGoToBill GST_RATE (setOrderItems l st')).1
          = Some v
  end.
Proof.
  unfold submitTableNumber.
  destruct (submit frm) as [frm' [v|]] eqn:Hsub; simpl; [|done].
  split.
  { unfold TableNumberPage.handleSubmit in Hsub.
    destruct (_ || _) in Hsub; [done|]. by injection Hsub as _ <-. }
  split; [done|]. split; [done|]. split; [done|].
  intros l Hl. unfold handleCheckoutAndGoToBill. simpl. by destruct l.
Qed.

End OnTheBill.

End TableNumber.

(* ===================================================================== *)
(** ** Items and quantities in a spoken text *)
(* ===================================================================== *)

Section SpokenText.

Import JsString.
Local Open Scope string_scope.
Local Open Scope Z_scope.

Implicit Types (s t u p text name : string) (a b c : ascii).

Lemma literal_spec p t :
  Nlp.literal p t = true
  ↔ ∃ found rest, t = found ++ rest ∧ Nlp.upper_case found = Nlp.upper_case p.
Proof.
  revert t. induction p as [|a p IH]; intros t.
  - split; [|done]. intros _. exists "", t. by rewrite app_empty_l.
  - destruct t as [|b t]; simpl.
    + split; [done|]. intros (found & rest & Heq & Hup).
      destruct found; [done|]. by rewrite app_cons in Heq.
    + rewrite andb_true_iff, IH. split.
      * intros [Hab%Ascii.eqb_eq (found & rest & -> & Hup)].
        exists (String b found), rest. rewrite app_cons. split; [done|].
        simpl. by rewrite Hab, Hup.
      * intros (found & rest & Heq & Hup).
        destruct found as [|b' found]; [done|].
        rewrite app_cons in Heq. injection Heq as <- ->.
        simpl in Hup. injection Hup as Hab Hup. split.
        -- apply Ascii.eqb_eq. done.
        -- by exists found, rest.
Qed.

Lemma white_space_star_sound {A} (k : string → option A) s x :
  Nlp.white_space_star k s = Some x → ∃ u t, s = u ++ t ∧ k t = Some x.
Proof.
  assert (∀ n s, (String.length s ≤ n)%nat →
            Nlp.white_space_star k s = Some x →
            ∃ u t, s = u ++ t ∧ k t = Some x) as Hall;
    [|by apply (Hall (String.length s))].
  clear s. intros n. induction n as [|n IH]; intros s Hlen Hs.
  { destruct s; [|simpl in Hlen; lia]. exists "", "". by rewrite app_empty_l. }
  assert (k s = Some x → ∃ u t, s = u ++ t ∧ k t = Some x) as Hhere.
  { intros Hk. exists "", s. by rewrite app_empty_l. }
  assert (∀ pre r, s = pre ++ r → (String.length r ≤ n)%nat →
            match Nlp.white_space_star k r with
            | Some y => Some y | None => k s end = Some x →
            ∃ u t, s = u ++ t ∧ k t = Some x) as Hgreedy.
  { intros pre r -> Hr Hres.
    destruct (Nlp.white_space_star k r) as [y|] eqn:Hstar; [|by apply Hhere].
    injection Hres as ->. destruct (IH r Hr Hstar) as (u & t & -> & Hk).
    exists (pre ++ u), t. by rewrite app_assoc_s. }
  destruct s as [|a [|b [|c r3]]]; simpl in Hs, Hlen;
    try (by apply Hhere).
  - destruct (ws1 a); [|by apply Hhere].
    apply (Hgreedy (String a "") ""); [done|simpl; lia|done].
  - destruct (ws1 a).
    { apply (Hgreedy (String a "") (String b "")); [done|simpl; lia|done]. }
    destruct (ws2 a b); [|by apply Hhere].
    apply (Hgreedy (String a (String b "")) ""); [done|simpl; lia|done].
  - destruct (ws1 a).
    { apply (Hgreedy (String a "") (String b (String c r3)));
        [done|simpl; lia|done]. }
    destruct (ws2 a b).
    { apply (Hgreedy (String a (String b "")) (String c r3));
        [done|simpl; lia|done]. }
    destruct (ws3 a b c); [|by apply Hhere].
    apply (Hgreedy (String a (String b (String c ""))) r3);
      [done|simpl; lia|done].
Qed.

Lemma white_space_star_here {A} (k : string → option A) s :
  is_Some (k s) → is_Some (Nlp.white_space_star k s).
Proof.
  intros [x Hk].
  assert (∀ r : option A,
            is_Some (match r with Some y => Some y | None => k s end)) as Hg.
  { intros [y|]; eauto. }
  destruct s as [|a [|b [|c r3]]]; simpl; eauto.
  - destruct (ws1 a); eauto.
  - destruct (ws1 a); eauto. destruct (ws2 a b); eauto.
  - destruct (ws1 a); eauto. destruct (ws2 a b); eauto.
    destruct (ws3 a b c); eauto.
Qed.

Lemma digits_plus_sound {A} (k : string → string → option A) seen s x :
  Nlp.digits_plus k seen s = Some x →
  ∃ d u t, s = u ++ t ∧ k d t = Some x.
Proof.
  revert seen. induction s as [|c r IH]; intros seen Hs; simpl in Hs; [done|].
  destruct (Nlp.digit c); [|done].
  destruct (Nlp.digits_plus k (String c seen) r) as [y|] eqn:Hmore.
  - injection Hs as ->. destruct (IH _ Hmore) as (d & u & t & -> & Hk).
    exists d, (String c u), t. by rewrite app_cons.
  - exists (rev (String c seen)), (String c ""), r. done.
Qed.

Lemma match_here_sound name s m :
  Nlp.match_here name s = Some m →
  ∃ u t, s = u ++ t ∧ Nlp.literal name t = true.
Proof.
  unfold Nlp.match_here. intros Hm.
  assert (∀ cap v, Nlp.white_space_star
                     (λ t, if Nlp.literal name t then Some cap else None) v
                   = Some m →
            ∃ u t, v = u ++ t ∧ Nlp.literal name t = true) as Hws.
  { intros cap v (u & t & -> & Hk)%white_space_star_sound.
    exists u, t. by destruct (Nlp.literal name t). }
  destruct (Nlp.digits_plus _ _ s) as [y|] eqn:Hd.
  - injection Hm as ->.
    apply digits_plus_sound in Hd as (d & u & t & -> & Hk).
    destruct (Hws _ _ Hk) as (u' & t' & -> & Hlit).
    exists (u ++ u'), t'. by rewrite app_assoc_s.
  - by eapply Hws.
Qed.

Lemma match_here_complete name t :
  Nlp.literal name t = true → is_Some (Nlp.match_here name t).
Proof.
  intros Hlit. unfold Nlp.match_here.
  destruct (Nlp.digits_plus _ _ t); [eauto|].
  apply white_space_star_here. rewrite Hlit. eauto.
Qed.

Lemma regexp_match_spec name text :
  is_Some (Nlp.regexp_match name text)
  ↔ ∃ u t, text = u ++ t ∧ Nlp.literal name t = true.
Proof.
  split.
  - intros [m Hm]. induction text as [|c text IH]; simpl in Hm.
    + destruct (Nlp.match_here name "") eqn:Hh; [|done].
      by eapply match_here_sound.
    + destruct (Nlp.match_here name (String c text)) eqn:Hh.
      * by eapply match_here_sound.
      * destruct (IH Hm) as (u & t & -> & Hlit).
        exists (String c u), t. by rewrite app_cons.
  - intros (u & t & -> & Hlit). induction u as [|c u IH].
    + rewrite app_empty_l.
      destruct (match_here_complete name t Hlit) as [m Hm].
      destruct t; simpl; rewrite Hm; eauto.
    + rewrite app_cons. simpl. destruct (Nlp.match_here _ _); eauto.
Qed.

Lemma cart_entry text e :
  e ∈ Nlp.processTextWithNLP text
  ↔ ∃ captured,
      Nlp.item e ∈ Nlp.menuItems
      ∧ Nlp.regexp_match (Nlp.item e) text = Some captured
      ∧ Nlp.quantity e = Nlp.or_one (Nlp.parseInt captured).
Proof.
  unfold Nlp.processTextWithNLP. rewrite list_elem_of_omap. split.
  - intros (name & Hname & He).
    destruct (Nlp.regexp_match name text) as [cap|] eqn:Hm; [|done].
    injection He as <-. simpl. eauto.
  - intros (cap & Hname & Hm & Hq). exists (Nlp.item e).
    split; [done|]. rewrite Hm. destruct e; simpl in *. by subst.
Qed.

Lemma mentions_regexp_match name text :
  Nlp.mentions name text ↔ is_Some (Nlp.regexp_match name text).
Proof.
  rewrite regexp_match_spec. unfold Nlp.mentions. split.
  - intros (u & found & rest & -> & Hup). exists u, (found ++ rest).
    split; [done|]. apply literal_spec. eauto.
  - intros (u & t & -> & (found & rest & -> & Hup)%literal_spec). eauto.
Qed.

(** X26. The cart lists exactly the menu items whose name occurs in the text,
    letter case aside. *)
Theorem cart_lists_the_items_mentioned text name :
  name ∈ Nlp.item <$> Nlp.processTextWithNLP text
  ↔ name ∈ Nlp.menuItems ∧ Nlp.mentions name text.
Proof.
  rewrite mentions_regexp_match, list_elem_of_fmap. split.
  - intros (e & -> & (cap & Hname & Hm & _)%cart_entry). split; [done|]. eauto.
  - intros [Hname [cap Hm]].
    exists {| Nlp.item := name; Nlp.quantity := Nlp.or_one (Nlp.parseInt cap) |}.
    split; [done|]. apply cart_entry. simpl. eauto.
Qed.

Lemma scan_digits_nonneg s acc cnt :
  0 ≤ acc → 0 ≤ (Decimal.scan_digits s acc cnt).1.1.
Proof.
  revert acc cnt. induction s as [|c s IH]; intros acc cnt Hacc; simpl; [done|].
  destruct (Decimal.digit_val c) as [d|] eqn:Hd; [|done].
  apply IH. apply digit_val_plain in Hd. lia.
Qed.

Lemma cart_quantity_of_whole text e :
  e ∈ Nlp.processTextWithNLP text →
  ∃ n, 1 ≤ n ∧ Nlp.quantity e = of_Z n.
Proof.
  intros (cap & _ & _ & ->)%cart_entry.
  destruct cap as [ds|]; simpl; [|by exists 1].
  pose proof (scan_digits_nonneg ds 0 0 ltac:(lia)) as Hv.
  destruct (Decimal.scan_digits ds 0 0) as [[v cnt] rest]. simpl in Hv.
  destruct (0 <? cnt); [|by exists 1].
  destruct (Z.eq_dec v 0) as [->|Hv0]; [by exists 1|].
  destruct (of_Z v) eqn:Hof; simpl; try (by exists 1).
  - exists v. split; [lia|done].
  - exists v. split; [lia|done].
Qed.

(** X27. Every quantity in the cart is the binary64 value of a whole number
    from 1 up: either a finite whole number from 1 up or, for a run of
    digits beyond the range of a number, [Infinity]. Zero, [NaN] and
    negative numbers never appear. *)
Theorem cart_quantities_are_positive text e :
  e ∈ Nlp.processTextWithNLP text →
  (∃ n, 1 ≤ n ∧ Nlp.quantity e = of_Z n)
  ∧ (Nlp.quantity e = S754_infinity false
     ∨ ∃ m ex k, Nlp.quantity e = S754_finite false m ex ∧ 1 ≤ k
                 ∧ Zpos m * 2 ^ Z.max 0 ex = k * 2 ^ Z.max 0 (- ex)).
Proof.
  intros (n & Hn & Hq)%cart_quantity_of_whole.
  split; [by exists n|]. rewrite Hq. by apply of_Z_positive.
Qed.

(** The quantity is [Infinity] for a run of 310 digits, and finite just
    below the range's end. *)
Example cart_quantity_can_be_infinite :
  Nlp.processTextWithNLP ("1" ++ zeros 309 ++ " burger")
  = [{| Nlp.item := "burger"; Nlp.quantity := S754_infinity false |}]
  ∧ Nlp.processTextWithNLP ("1" ++ zeros 308 ++ " burger")
    = [{| Nlp.item := "burger"; Nlp.quantity := of_Z (10 ^ 308) |}]
  ∧ of_Z (10 ^ 308) ≠ S754_infinity false.
Proof. split; [by vm_compute|]. split; by vm_compute. Qed.

(** X28. The cart holds each menu item at most once, in the order of the menu,
    however often the text names it. *)
Theorem cart_follows_the_menu text :
  Nlp.item <$> Nlp.processTextWithNLP text `sublist_of` Nlp.menuItems.
Proof.
  unfold Nlp.processTextWithNLP.
  induction Nlp.menuItems as [|name l IH]; simpl; [constructor|].
  destruct (Nlp.regexp_match name text); simpl.
  - by constructor.
  - by constructor.
Qed.

End SpokenText.

(* ===================================================================== *)
(** ** The quantity in front of a name *)
(* ===================================================================== *)

Section Quantities.

Import JsString.
Local Open Scope string_scope.
Local Open Scope Z_scope.

Implicit Types (s t u v w p text : string) (a b c d : ascii).

Lemma canonicalize_digit a : Nlp.digit (Nlp.canonicalize a) = Nlp.digit a.
Proof. destruct a as [[] [] [] [] [] [] [] []]; reflexivity. Qed.

Lemma canonicalize_ws1 a : ws1 (Nlp.canonicalize a) = ws1 a.
Proof. destruct a as [[] [] [] [] [] [] [] []]; reflexivity. Qed.

Lemma canonicalize_low a :
  (nat_of_ascii (Nlp.canonicalize a) <? 128)%nat = (nat_of_ascii a <? 128)%nat.
Proof. destruct a as [[] [] [] [] [] [] [] []]; reflexivity. Qed.

Lemma digit_low c : Nlp.digit c = true → ws1 c = false ∧ (nat_of_ascii c < 128)%nat.
Proof.
  unfold Nlp.digit. destruct (Decimal.digit_val c) as [v|] eqn:Hc; [|done].
  intros _. apply digit_val_plain in Hc. tauto.
Qed.

Lemma all_digits_head c s : all_digits (String c s) = true → Nlp.digit c = true.
Proof.
  simpl. intros [[v Hc]%bool_decide_eq_true _]%andb_true_iff.
  unfold Nlp.digit. by rewrite Hc.
Qed.

Lemma ws2_low_r a d : (nat_of_ascii d < 128)%nat → ws2 a d = false.
Proof.
  intros Hd. unfold ws2. apply andb_false_iff. right. apply Nat.eqb_neq. lia.
Qed.

Lemma ws3_low_m a d c : (nat_of_ascii d < 128)%nat → ws3 a d c = false.
Proof.
  intros Hd. unfold ws3.
  repeat (apply orb_false_iff; split);
    repeat match goal with
    | |- (_ && _ && _)%bool = false =>
        apply andb_false_iff; left; apply andb_false_iff; right;
        apply Nat.eqb_neq; lia
    end.
Qed.

Lemma ws3_low_r a b d : (nat_of_ascii d < 128)%nat → ws3 a b d = false.
Proof.
  intros Hd. unfold ws3.
  repeat (apply orb_false_iff; split);
    try (apply andb_false_iff; right; apply Nat.eqb_neq; lia).
  apply andb_false_iff; right.
  repeat (apply orb_false_iff; split); try (apply Nat.eqb_neq; lia).
  apply andb_false_iff. left. apply Nat.leb_gt. lia.
Qed.

(** *** [trimStart] and [white_space_star], step by step *)

Lemma trimStart_step s :
  trimStart s
  = match white_space_head s with Some r => trimStart r | None => s end.
Proof.
  unfold white_space_head. destruct s as [|a [|b [|c r3]]]; [done| | |].
  - cbn [trimStart]. by destruct (ws1 a).
  - cbn [trimStart]. destruct (ws1 a); [done|]. by destruct (ws2 a b).
  - cbn [trimStart]. destruct (ws1 a); [done|]. destruct (ws2 a b); [done|].
    by destruct (ws3 a b c).
Qed.

Lemma white_space_star_step {A} (k : string → option A) s :
  Nlp.white_space_star k s
  = match white_space_head s with
    | Some r =>
        match Nlp.white_space_star k r with Some x => Some x | None => k s end
    | None => k s
    end.
Proof.
  unfold white_space_head. destruct s as [|a [|b [|c r3]]]; [done| | |].
  - cbn [Nlp.white_space_star]. by destruct (ws1 a).
  - cbn [Nlp.white_space_star]. destruct (ws1 a); [done|]. by destruct (ws2 a b).
  - cbn [Nlp.white_space_star]. destruct (ws1 a); [done|].
    destruct (ws2 a b); [done|]. by destruct (ws3 a b c).
Qed.

Lemma white_space_head_shorter s r :
  white_space_head s = Some r →
  ∃ w, s = w ++ r ∧ (String.length r < String.length s)%nat.
Proof.
  unfold white_space_head. destruct s as [|a [|b [|c r3]]]; [done| | |].
  - destruct (ws1 a); [|done]. intros [= <-]. exists (String a "").
    split; [done|simpl; lia].
  - destruct (ws1 a).
    { intros [= <-]. exists (String a ""). split; [done|simpl; lia]. }
    destruct (ws2 a b); [|done]. intros [= <-].
    exists (String a (String b "")). split; [done|simpl; lia].
  - destruct (ws1 a).
    { intros [= <-]. exists (String a ""). split; [done|simpl; lia]. }
    destruct (ws2 a b).
    { intros [= <-]. exists (String a (String b "")). split; [done|simpl; lia]. }
    destruct (ws3 a b c); [|done]. intros [= <-].
    exists (String a (String b (String c ""))). split; [done|simpl; lia].
Qed.

Lemma white_space_head_plain d t :
  ws1 d = false → (nat_of_ascii d < 128)%nat →
  white_space_head (String d t) = None.
Proof.
  intros Hd1 Hd2.
  pose proof (trimStart_plain d t Hd1 ltac:(lia)) as Hplain.
  rewrite trimStart_step in Hplain.
  destruct (white_space_head (String d t)) as [r|] eqn:Hr; [|done].
  destruct (white_space_head_shorter _ _ Hr) as (w & _ & Hlen).
  assert (∀ n x, (String.length x ≤ n)%nat →
            (String.length (trimStart x) ≤ String.length x)%nat) as Hshrink.
  { intros n. induction n as [|n IH]; intros x Hx.
    - destruct x; [done|simpl in Hx; lia].
    - rewrite trimStart_step.
      destruct (white_space_head x) as [y|] eqn:Hy; [|done].
      destruct (white_space_head_shorter _ _ Hy) as (_ & _ & Hyx).
      specialize (IH y ltac:(lia)). lia. }
  specialize (Hshrink _ r (Nat.le_refl _)). rewrite Hplain in Hshrink. lia.
Qed.

Lemma white_space_head_app v r t :
  white_space_head v = Some r → white_space_head (v ++ t) = Some (r ++ t).
Proof.
  unfold white_space_head. destruct v as [|a [|b [|c r3]]]; [done| | |].
  - destruct (ws1 a) eqn:Ha; [|done]. intros [= <-].
    rewrite app_cons. by rewrite Ha.
  - rewrite !app_cons. destruct (ws1 a) eqn:Ha.
    { by intros [= <-]. }
    destruct (ws2 a b) eqn:Hab; [|done]. by intros [= <-].
  - rewrite !app_cons. destruct (ws1 a) eqn:Ha.
    { by intros [= <-]. }
    destruct (ws2 a b) eqn:Hab.
    { by intros [= <-]. }
    destruct (ws3 a b c) eqn:Habc; [|done]. by intros [= <-].
Qed.

Lemma white_space_head_app_plain v d t :
  ws1 d = false → (nat_of_ascii d < 128)%nat →
  white_space_head v = None → white_space_head (v ++ String d t) = None.
Proof.
  intros Hd1 Hd2.
  destruct v as [|a [|b [|c r3]]].
  - intros _. rewrite app_empty_l. by apply white_space_head_plain.
  - unfold white_space_head. rewrite app_cons, app_empty_l.
    destruct (ws1 a); [done|]. intros _. rewrite ws2_low_r by done.
    destruct t; [done|]. by rewrite ws3_low_m.
  - unfold white_space_head. rewrite !app_cons, app_empty_l.
    destruct (ws1 a); [done|]. destruct (ws2 a b); [done|]. intros _.
    by rewrite ws3_low_r.
  - unfold white_space_head. rewrite !app_cons.
    destruct (ws1 a); [done|]. destruct (ws2 a b); [done|].
    by destruct (ws3 a b c).
Qed.

(** White space in front of a text that starts with a plain character is
    trimmed as on its own. *)
Lemma trimStart_app_plain v d t :
  ws1 d = false → (nat_of_ascii d < 128)%nat →
  trimStart (v ++ String d t) = trimStart v ++ String d t.
Proof.
  intros Hd1 Hd2.
  assert (∀ n v, (String.length v ≤ n)%nat →
            trimStart (v ++ String d t) = trimStart v ++ String d t) as Hall;
    [|by apply (Hall (String.length v))].
  clear v. intros n. induction n as [|n IH]; intros v Hlen.
  { destruct v; [|simpl in Hlen; lia]. rewrite !app_empty_l.
    apply trimStart_plain; [done|lia]. }
  rewrite (trimStart_step v), (trimStart_step (v ++ _)).
  destruct (white_space_head v) as [r|] eqn:Hr.
  - rewrite (white_space_head_app _ _ _ Hr).
    destruct (white_space_head_shorter _ _ Hr) as (_ & _ & Hlt).
    apply IH. lia.
  - by rewrite white_space_head_app_plain.
Qed.

Lemma trimStart_suffix s : ∃ w, s = w ++ trimStart s.
Proof.
  assert (∀ n s, (String.length s ≤ n)%nat → ∃ w, s = w ++ trimStart s) as Hall;
    [|by apply (Hall (String.length s))].
  clear s. intros n. induction n as [|n IH]; intros s Hlen.
  { destruct s; [|simpl in Hlen; lia]. by exists "". }
  rewrite trimStart_step.
  destruct (white_space_head s) as [r|] eqn:Hr.
  - destruct (white_space_head_shorter _ _ Hr) as (w & -> & Hlt).
    destruct (IH r ltac:(lia)) as [w' Hw'].
    exists (w ++ w'). by rewrite app_assoc_s, <- Hw'.
  - exists "". by rewrite app_empty_l.
Qed.

(** When [k] fails on every text that starts with white space, [\s*]
    followed by [k] is [k] after the longest run of white space. *)
Lemma white_space_star_longest {A} (k : string → option A) s :
  (∀ t, is_Some (k t) → white_space_head t = None) →
  Nlp.white_space_star k s = k (trimStart s).
Proof.
  intros Hk.
  assert (∀ n s, (String.length s ≤ n)%nat →
            Nlp.white_space_star k s = k (trimStart s)) as Hall;
    [|by apply (Hall (String.length s))].
  clear s. intros n. induction n as [|n IH]; intros s Hlen.
  { destruct s; [done|simpl in Hlen; lia]. }
  rewrite white_space_star_step, trimStart_step.
  destruct (white_space_head s) as [r|] eqn:Hr; [|done].
  destruct (white_space_head_shorter _ _ Hr) as (_ & _ & Hlt).
  rewrite IH by lia.
  destruct (k (trimStart r)) as [y|]; [done|].
  destruct (k s) as [y|] eqn:Hs; [|done].
  rewrite Hk in Hr by eauto. done.
Qed.

(** *** Digits *)

Lemma digits_plus_none {A} (k : string → string → option A) seen s :
  no_digit_ahead s → Nlp.digits_plus k seen s = None.
Proof. destruct s as [|c s]; [done|]. simpl. by intros ->. Qed.

(** When [k] fails on every text that starts with a digit, [(\d+)]
    followed by [k] is [k] after the longest run of digits. *)
Lemma digits_plus_longest {A} (k : string → string → option A)
    (D rest seen : string) :
  (∀ cap c t, Nlp.digit c = true → k cap (String c t) = None) →
  all_digits D = true → D ≠ "" → no_digit_ahead rest →
  Nlp.digits_plus k seen (D ++ rest) = k (rev seen ++ D) rest.
Proof.
  intros Hk HD Hne Hrest. revert seen.
  induction D as [|c D IH]; intros seen; [done|].
  pose proof (all_digits_head _ _ HD) as Hc.
  cbn [all_digits] in HD. apply andb_true_iff in HD as [_ HD].
  rewrite app_cons. cbn [Nlp.digits_plus]. rewrite Hc.
  destruct D as [|c' D].
  - rewrite app_empty_l. rewrite digits_plus_none by done.
    by rewrite rev_cons.
  - rewrite IH by done.
    rewrite rev_cons, app_assoc_s. change (String c "" ++ String c' D)
      with (String c (String c' D)).
    destruct (k _ rest) as [x|]; [done|].
    rewrite app_cons. apply Hk. by eapply all_digits_head.
Qed.

Lemma digit_run v :
  ∃ D rest, v = D ++ rest ∧ all_digits D = true ∧ no_digit_ahead rest.
Proof.
  induction v as [|c v (D & rest & -> & HD & Hrest)].
  - by exists "", "".
  - destruct (Nlp.digit c) eqn:Hc.
    + exists (String c D), rest. split; [done|]. split; [|done].
      cbn [all_digits]. rewrite HD, andb_true_r. apply bool_decide_eq_true.
      unfold Nlp.digit in Hc. by destruct (Decimal.digit_val c).
    + exists "", (String c (D ++ rest)). by rewrite app_empty_l.
Qed.

Lemma literal_app p t z :
  Nlp.literal p (t ++ z) = true →
  (∃ t1 t2, t = t1 ++ t2 ∧ Nlp.upper_case t1 = Nlp.upper_case p)
  ∨ (∃ p1 c p2, p = p1 ++ String c p2 ∧ Nlp.literal (String c p2) z = true).
Proof.
  revert t. induction p as [|a p IH]; intros t Hlit.
  { left. exists "", t. by rewrite app_empty_l. }
  destruct t as [|b t].
  { right. exists "", a, p. by rewrite app_empty_l in *. }
  rewrite app_cons in Hlit. cbn [Nlp.literal] in Hlit.
  apply andb_true_iff in Hlit as [Hab%Ascii.eqb_eq Hlit].
  destruct (IH t Hlit) as [(t1 & t2 & -> & Hup)|(p1 & c & p2 & -> & Hz)].
  - left. exists (String b t1), t2. rewrite app_cons. split; [done|].
    simpl. by rewrite Hab, Hup.
  - right. exists (String a p1), c, p2. by rewrite app_cons.
Qed.

(** *** The leftmost match *)

Section Leftmost.

Variables (name : string) (c0 : ascii) (letters : string).
Hypothesis Hname : name = String c0 letters.
Hypothesis Hc0_digit : Nlp.digit c0 = false.
Hypothesis Hc0_ws : ws1 c0 = false.
Hypothesis Hc0_low : (nat_of_ascii c0 <? 128)%nat = true.
Hypothesis Hfree : ∀ p1 c p2, name = p1 ++ String c p2 → Nlp.digit c = false.

Lemma same_head c t :
  Nlp.canonicalize c0 = Nlp.canonicalize c →
  Nlp.digit c = false ∧ white_space_head (String c t) = None.
Proof.
  intros Heq.
  assert (Nlp.digit c = false) as Hd.
  { by rewrite <- canonicalize_digit, <- Heq, canonicalize_digit. }
  split; [done|]. apply white_space_head_plain.
  - by rewrite <- canonicalize_ws1, <- Heq, canonicalize_ws1.
  - apply Nat.ltb_lt. by rewrite <- canonicalize_low, <- Heq, canonicalize_low.
Qed.

Lemma literal_head t :
  Nlp.literal name t = true → no_digit_ahead t ∧ white_space_head t = None.
Proof.
  rewrite Hname. destruct t as [|c t]; [done|]. cbn [Nlp.literal].
  intros [Heq%Ascii.eqb_eq _]%andb_true_iff. by apply same_head.
Qed.

Lemma literal_digit c t : Nlp.digit c = true → Nlp.literal name (String c t) = false.
Proof.
  intros Hc. destruct (Nlp.literal name _) eqn:Hlit; [|done].
  apply literal_head in Hlit as [Hno _]. simpl in Hno. congruence.
Qed.

Lemma match_here_longest D rest :
  all_digits D = true → no_digit_ahead rest →
  Nlp.match_here name (D ++ rest)
  = if Nlp.literal name (trimStart rest)
    then Some (if decide (D = "") then None else Some D) else None.
Proof.
  intros HD Hrest. unfold Nlp.match_here.
  assert (∀ (cap : option string) s,
            Nlp.white_space_star
              (λ t, if Nlp.literal name t then Some cap else None) s
            = if Nlp.literal name (trimStart s) then Some cap else None) as Hws.
  { intros cap s. apply (white_space_star_longest
      (λ t, if Nlp.literal name t then Some cap else None)).
    intros t [x Hx]. destruct (Nlp.literal name t) eqn:Hlit; [|done].
    by apply literal_head in Hlit as [_ ?]. }
  destruct (decide (D = "")) as [->|Hne].
  - rewrite app_empty_l, digits_plus_none by done. apply Hws.
  - rewrite digits_plus_longest; try done.
    + rewrite Hws. change (rev "") with "". rewrite app_empty_l.
      destruct (Nlp.literal name (trimStart rest)); [done|].
      rewrite Hws. destruct D as [|c D]; [done|].
      pose proof (all_digits_head _ _ HD) as Hc.
      destruct (digit_low c Hc) as [Hc1 Hc2].
      rewrite app_cons, trimStart_plain by (done || lia).
      by rewrite literal_digit.
    + intros cap c t Hc. rewrite Hws.
      destruct (digit_low c Hc) as [Hc1 Hc2].
      rewrite trimStart_plain by (done || lia). by rewrite literal_digit.
Qed.

Lemma no_match_ahead before d z :
  ¬ Nlp.mentions name before → Nlp.digit d = true →
  ∀ u t, before = u ++ t → Nlp.literal name (t ++ String d z) = false.
Proof.
  intros Hno Hd u t ->. destruct (Nlp.literal name _) eqn:Hlit; [|done].
  exfalso.
  apply literal_app in Hlit as [(t1 & t2 & -> & Hup)|(p1 & c & p2 & Hp & Hz)].
  - apply Hno. by exists u, t1, t2.
  - cbn [Nlp.literal] in Hz. apply andb_true_iff in Hz as [Heq%Ascii.eqb_eq _].
    pose proof (Hfree _ _ _ Hp) as Hc.
    rewrite <- canonicalize_digit, Heq, canonicalize_digit in Hc. congruence.
Qed.

Lemma no_match_before before d z :
  ¬ Nlp.mentions name before → no_digit_ahead (rev before) →
  Nlp.digit d = true →
  ∀ u v, before = u ++ v → v ≠ "" →
         Nlp.match_here name (v ++ String d z) = None.
Proof.
  intros Hno Hlast Hd u v -> Hv.
  destruct (digit_run v) as (D & rest & -> & HD & Hrest).
  destruct rest as [|c rest].
  { exfalso. rewrite app_empty_r in *. destruct D as [|c D]; [done|].
    destruct (all_digits_last _ _ HD) as (w & b & Heq & [bv Hb]).
    rewrite Heq, !rev_app in Hlast. simpl in Hlast.
    unfold Nlp.digit in Hlast. by rewrite Hb in Hlast. }
  rewrite app_assoc_s. rewrite match_here_longest by done.
  destruct (digit_low d Hd) as [Hd1 Hd2].
  rewrite trimStart_app_plain by done.
  destruct (trimStart_suffix (String c rest)) as [w Hw].
  rewrite (no_match_ahead (u ++ D ++ String c rest) d z Hno Hd
             (u ++ D ++ w) (trimStart (String c rest))); [done|].
  by rewrite !app_assoc_s, <- Hw.
Qed.

Lemma regexp_match_leftmost before z m :
  (∀ u v, before = u ++ v → v ≠ "" → Nlp.match_here name (v ++ z) = None) →
  Nlp.match_here name z = Some m →
  Nlp.regexp_match name (before ++ z) = Some m.
Proof.
  intros Hbefore Hz. induction before as [|c before IH].
  - rewrite app_empty_l. destruct z; simpl; by rewrite Hz.
  - rewrite app_cons. cbn [Nlp.regexp_match]. rewrite <- app_cons.
    rewrite (Hbefore "" (String c before)) by done.
    apply IH. intros u v -> Hv. apply (Hbefore (String c u)); [|done].
    by rewrite app_cons.
Qed.

Lemma match_with_quantity before ds gap found after :
  ¬ Nlp.mentions name before → no_digit_ahead (rev before) →
  ds ≠ "" → all_digits ds = true → trimStart gap = "" →
  Nlp.upper_case found = Nlp.upper_case name →
  Nlp.regexp_match name (before ++ ds ++ gap ++ found ++ after) = Some (Some ds).
Proof.
  intros Hno Hlast Hne Hds Hgap Hfound.
  destruct found as [|f found]; [by rewrite Hname in Hfound|].
  assert (Nlp.canonicalize c0 = Nlp.canonicalize f) as Hf.
  { rewrite Hname in Hfound. simpl in Hfound. by injection Hfound. }
  destruct (same_head f (found ++ after) Hf) as [Hf1 Hf2].
  assert (Nlp.literal name (String f found ++ after) = true) as Hlit.
  { apply literal_spec. eauto. }
  apply regexp_match_leftmost.
  - destruct ds as [|d ds]; [done|]. rewrite app_cons.
    apply no_match_before; try done. by eapply all_digits_head.
  - rewrite match_here_longest; try done.
    + assert (trimStart (gap ++ String f found ++ after)
              = String f found ++ after) as ->.
      { rewrite app_cons.
        assert (trimStart (String f (found ++ after))
                = String f (found ++ after)) as Hplain.
        { rewrite trimStart_step. by rewrite Hf2. }
        clear -Hgap Hplain.
        assert (∀ n g, (String.length g ≤ n)%nat → trimStart g = "" →
                  trimStart (g ++ String f (found ++ after))
                  = String f (found ++ after)) as Hall;
          [|by apply (Hall (String.length gap))].
        intros n. induction n as [|n IH]; intros g Hlen Hg.
        { destruct g; [|simpl in Hlen; lia]. by rewrite app_empty_l. }
        rewrite trimStart_step in Hg. rewrite trimStart_step.
        destruct (white_space_head g) as [r|] eqn:Hr.
        - rewrite (white_space_head_app _ _ _ Hr).
          destruct (white_space_head_shorter _ _ Hr) as (_ & _ & Hlt).
          apply IH; [lia|done].
        - subst g. by rewrite app_empty_l, <- trimStart_step. }
      rewrite Hlit. by rewrite decide_False.
    + destruct gap as [|g gap]; [by rewrite app_empty_l|].
      rewrite app_cons. simpl. destruct (Nlp.digit g) eqn:Hg; [|done].
      destruct (digit_low g Hg) as [Hg1 Hg2].
      rewrite trimStart_plain in Hgap by (done || lia). done.
Qed.

End Leftmost.

Lemma digit_free_check name :
  forallb (λ c, negb (Nlp.digit c)) (list_ascii_of_string name) = true →
  ∀ p1 c p2, name = p1 ++ String c p2 → Nlp.digit c = false.
Proof.
  intros Hall p1 c p2 ->. induction p1 as [|a p1 IH].
  - rewrite app_empty_l in Hall. simpl in Hall.
    apply andb_true_iff in Hall as [Hc _]. by apply negb_true_iff.
  - rewrite app_cons in Hall. simpl in Hall.
    apply andb_true_iff in Hall as [_ Hall]. by apply IH.
Qed.

Lemma parseInt_digits ds :
  ds ≠ "" → all_digits ds = true →
  Nlp.parseInt (Some ds) = of_Z (digits_value ds 0).
Proof.
  intros Hne Hds. unfold Nlp.parseInt.
  rewrite <- (app_empty_r ds) at 1. rewrite scan_digits_app by done.
  cbn [Decimal.scan_digits].
  assert ((0 <? 0 + Z.of_nat (String.length ds)) = true) as ->; [|done].
  apply Z.ltb_lt. destruct ds; [done|]. simpl. lia.
Qed.

(** X29. Digits in front of the first mention of a menu item are its quantity:
    when the text holds a run of digits, then white space or nothing, then
    the name in any letter case, with no mention of the name and no digit
    right before, the cart holds the item with the number the digits
    denote (1 when they denote zero). *)
Theorem quantity_in_front_is_read name before ds gap found after :
  name ∈ Nlp.menuItems →
  ¬ Nlp.mentions name before → no_digit_ahead (rev before) →
  ds ≠ "" → all_digits ds = true → trimStart gap = "" →
  Nlp.upper_case found = Nlp.upper_case name →
  {| Nlp.item := name;
     Nlp.quantity := Nlp.or_one (of_Z (digits_value ds 0)) |}
  ∈ Nlp.processTextWithNLP (before ++ ds ++ gap ++ found ++ after).
Proof.
  intros Hname Hno Hlast Hne Hds Hgap Hfound.
  apply cart_entry. exists (Some ds). cbn [Nlp.item Nlp.quantity].
  split; [done|]. split; [|by rewrite parseInt_digits].
  unfold Nlp.menuItems in Hname.
  repeat (apply elem_of_cons in Hname as [->|Hname]);
    [| | | | |by apply elem_of_nil in Hname];
    (eapply match_with_quantity;
       [reflexivity|reflexivity|reflexivity|reflexivity
       |by apply digit_free_check|done..]).
Qed.

Lemma captured_digits name text ds :
  Nlp.regexp_match name text = Some (Some ds) →
  ∃ u c v, text = u ++ String c v ∧ Nlp.digit c = true.
Proof.
  induction text as [|c text IH]; cbn [Nlp.regexp_match].
  - unfold Nlp.match_here. simpl. by destruct (Nlp.literal name "").
  - destruct (Nlp.match_here name (String c text)) as [m|] eqn:Hm.
    + intros [= ->]. unfold Nlp.match_here in Hm.
      destruct (Nlp.digits_plus _ _ _) eqn:Hd.
      * cbn [Nlp.digits_plus] in Hd. destruct (Nlp.digit c) eqn:Hc; [|done].
        exists "", c, text. by rewrite app_empty_l.
      * apply white_space_star_sound in Hm as (u & t & _ & Hk).
        by destruct (Nlp.literal name t).
    + intros (u & c' & v & -> & Hc')%IH. exists (String c u), c', v.
      by rewrite app_cons.
Qed.

(** X30. A text without digits gives every item of the cart the quantity 1. *)
Theorem quantity_defaults_to_one text e :
  (∀ u c v, text = u ++ String c v → Nlp.digit c = false) →
  e ∈ Nlp.processTextWithNLP text → Nlp.quantity e = of_Z 1.
Proof.
  intros Hnone (cap & _ & Hm & ->)%cart_entry.
  destruct cap as [ds|]; [|done].
  apply captured_digits in Hm as (u & c & v & Heq & Hc).
  rewrite (Hnone _ _ _ Heq) in Hc. done.
Qed.

End Quantities.

(* ===================================================================== *)
(** ** The further properties at the sample session *)
(* ===================================================================== *)

Lemma update_quantity_keeps_invariants_witness :
  distinct_lines
    (handleUpdateOrderItemQuantity "m1" 5 None
       [Sample.line Sample.burger 3 None;
        Sample.line Sample.fries 1 (Some "extra salt"%string)])
  ∧ positive_lines
      (handleUpdateOrderItemQuantity "m1" 5 None
         [Sample.line Sample.burger 3 None;
          Sample.line Sample.fries 1 (Some "extra salt"%string)]).
Proof.
  apply update_quantity_keeps_invariants.
  - unfold distinct_lines. apply (bool_decide_unpack _). vm_compute. exact I.
  - repeat constructor.
Defined.

Lemma update_to_nothing_is_removal_witness :
  handleUpdateOrderItemQuantity "m1" 0 None
    [Sample.line Sample.burger 3 None; Sample.line Sample.fries 1 None]
  = handleRemoveOrderItem "m1" None
      [Sample.line Sample.burger 3 None; Sample.line Sample.fries 1 None]
  ∧ list_find (same_line "m1" (norm_notes None))
      (handleUpdateOrderItemQuantity "m1" 0 None
         [Sample.line Sample.burger 3 None; Sample.line Sample.fries 1 None])
    = None.
Proof. apply update_to_nothing_is_removal. lia. Defined.

Lemma update_sets_one_line_witness :
  handleUpdateOrderItemQuantity "m2" 4 None
    [Sample.line Sample.burger 3 None; Sample.line Sample.fries 1 None]
  = [Sample.line Sample.burger 3 None; Sample.line Sample.fries 4 None].
Proof.
  assert (distinct_lines
            [Sample.line Sample.burger 3 None; Sample.line Sample.fries 1 None])
    as Hd.
  { unfold distinct_lines. apply (bool_decide_unpack _). vm_compute. exact I. }
  exact (update_sets_one_line "m2" 4 None _ ltac:(lia) Hd).
Defined.

Lemma add_then_remove_item_witness :
  handleRemoveOrderItem "m2" (Some "extra salt"%string)
    (handleAddItemToOrder Sample.fries (Some 2) (Some "extra salt"%string)
       [Sample.line Sample.burger 3 None])
  = [Sample.line Sample.burger 3 None].
Proof. apply (add_then_remove_item Sample.fries). reflexivity. Defined.

Lemma additions_keep_quantities_positive_witness :
  positive_lines
    (handleMultiItemOrder Sample.lower Sample.menu Sample.batch true
       [Sample.line Sample.burger 3 None]).1.
Proof. apply additions_keep_quantities_positive; repeat constructor. Defined.

Lemma removals_keep_lines_distinct_witness :
  distinct_lines
    (handleMultiItemRemoval Sample.lower Sample.menu Sample.batch true
       [Sample.line Sample.burger 3 None; Sample.line Sample.fries 1 None]).1.
Proof.
  apply removals_keep_lines_distinct.
  unfold distinct_lines. apply (bool_decide_unpack _). vm_compute. exact I.
Defined.

Lemma additions_leave_other_items_witness :
  Sample.line Sample.coke 1 None
  ∈ (handleMultiItemOrder Sample.lower Sample.menu Sample.batch true
       [Sample.line Sample.coke 1 None; Sample.line Sample.burger 3 None]).1.
Proof.
  apply additions_leave_other_items.
  - apply list_elem_of_here.
  - intros r Hr. vm_compute in Hr.
    repeat (apply elem_of_cons in Hr as [->|Hr]); try discriminate.
    by apply elem_of_nil in Hr.
Defined.

Lemma removals_leave_other_items_witness :
  Sample.line Sample.coke 1 None
  ∈ (handleMultiItemRemoval Sample.lower Sample.menu Sample.batch true
       [Sample.line Sample.coke 1 None; Sample.line Sample.burger 3 None]).1.
Proof.
  apply removals_leave_other_items.
  - apply list_elem_of_here.
  - intros r Hr. vm_compute in Hr.
    repeat (apply elem_of_cons in Hr as [->|Hr]); try discriminate.
    by apply elem_of_nil in Hr.
Defined.


Lemma whole_line_removal_agrees_witness :
  (handleMultiItemRemoval Sample.lower Sample.menu
     [Sample.request "burger" 5 None] true
     [Sample.line Sample.burger 3 None; Sample.line Sample.fries 1 None]).1
  = handleRemoveOrderItem "m1" None
      [Sample.line Sample.burger 3 None; Sample.line Sample.fries 1 None].
Proof.
  apply (whole_line_removal_agrees Sample.lower Sample.menu
           (Sample.request "burger" 5 None) Sample.burger 0%nat
           (Sample.line Sample.burger 3 None)).
  - unfold distinct_lines. apply (bool_decide_unpack _). vm_compute. exact I.
  - reflexivity.
  - reflexivity.
  - simpl. lia.
Defined.

Lemma single_add_agrees_with_batch_witness :
  (handleMultiItemOrder Sample.lower Sample.menu
     [Sample.request "burger" 2 None] true
     [Sample.line Sample.burger 3 None]).1
  = handleAddItemToOrder Sample.burger (Some 2) None
      [Sample.line Sample.burger 3 None].
Proof.
  apply (single_add_agrees_with_batch Sample.lower Sample.menu
           (Sample.request "burger" 2 None) Sample.burger).
  - reflexivity.
  - reflexivity.
  - right. eexists. reflexivity.
Defined.


Lemma unpriced_line_voids_the_bill_witness :
  calculateSubtotal
    [Sample.line Sample.burger 2 None;
     Sample.line (Sample.item "m9" "Catch of the day" "market price") 1 None]
  = "₹NaN"%string
  ∧ subtotal
      (make_bill Sample.rate_5_percent
         [Sample.line Sample.burger 2 None;
          Sample.line (Sample.item "m9" "Catch of the day" "market price") 1
            None] "7")
    = "₹NaN"%string
  ∧ gstAmount
      (make_bill Sample.rate_5_percent
         [Sample.line Sample.burger 2 None;
          Sample.line (Sample.item "m9" "Catch of the day" "market price") 1
            None] "7")
    = "₹NaN"%string
  ∧ grandTotal
      (make_bill Sample.rate_5_percent
         [Sample.line Sample.burger 2 None;
          Sample.line (Sample.item "m9" "Catch of the day" "market price") 1
            None] "7")
    = "₹NaN"%string.
Proof.
  apply (unpriced_line_voids_the_bill Sample.rate_5_percent _ "7"
           (Sample.line (Sample.item "m9" "Catch of the day" "market price")
              1 None)).
  - apply list_elem_of_further, list_elem_of_here.
  - reflexivity.
Defined.

Lemma table_number_accepts_whole_numbers_witness :
  TableNumberPage.handleSubmit
    (TableNumberPage.Build_Form "012" "Please enter a valid whole table number.")
  = (TableNumberPage.Build_Form "012" "", Some "012"%string).
Proof.
  apply table_number_accepts_whole_numbers.
  - discriminate.
  - reflexivity.
  - change (1 ≤ 12 < 2 ^ 53). lia.
Defined.

Lemma table_number_rejects_blank_zero_negative_witness :
  TableNumberPage.handleSubmit (TableNumberPage.Build_Form "  " "")
  = (TableNumberPage.Build_Form "  " TableNumberPage.invalid_table_number, None)
  ∧ TableNumberPage.handleSubmit (TableNumberPage.Build_Form "00" "")
    = (TableNumberPage.Build_Form "00" TableNumberPage.invalid_table_number,
       None)
  ∧ TableNumberPage.handleSubmit (TableNumberPage.Build_Form "-4" "")
    = (TableNumberPage.Build_Form "-4" TableNumberPage.invalid_table_number,
       None).
Proof.
  destruct (table_number_rejects_blank_zero_negative "") as (H1 & H2 & H3).
  split; [|split].
  - apply H1. reflexivity.
  - apply H2; [discriminate|reflexivity|reflexivity].
  - apply (H3 "4"%string); [discriminate|reflexivity].
Defined.

Lemma submitted_table_number_is_whole_witness :
  "12"%string = JsString.trim " 12 "
  ∧ "12"%string ≠ ""%string
  ∧ TableNumberPage.error (TableNumberPage.Build_Form " 12 " "") = ""%string
  ∧ ∃ n m e, 1 ≤ n
      ∧ Decimal.Number " 12 " = S754_finite false m e
      ∧ Zpos m * 2 ^ Z.max 0 e = n * 2 ^ Z.max 0 (- e).
Proof.
  apply (submitted_table_number_is_whole
           (TableNumberPage.Build_Form " 12 " "")
           (TableNumberPage.Build_Form " 12 " "") "12").
  reflexivity.
Defined.

Lemma table_number_reaches_the_bill_witness :
  bill_tableNumber
    <$> currentBillData
          (handleCheckoutAndGoToBill Sample.rate_5_percent
             (setOrderItems Sample.two_burgers
                (submitTableNumber (TableNumberPage.Build_Form " 12 " "")
                   (Sample.state [] None false)).2)).1
  = Some "12"%string.
Proof.
  assert (TableNumberPage.handleSubmit (TableNumberPage.Build_Form " 12 " "")
          = (TableNumberPage.Build_Form " 12 " "", Some "12"%string)) as Hsub
    by (vm_compute; reflexivity).
  pose proof (table_number_reaches_the_bill Sample.rate_5_percent
                (TableNumberPage.Build_Form " 12 " "")
                (Sample.state [] None false)) as H.
  cbv zeta in H. rewrite Hsub in H. cbn [snd] in H.
  destruct H as (_ & _ & _ & _ & H).
  apply (H Sample.two_burgers). discriminate.
Defined.

Lemma cart_quantities_are_positive_witness :
  Forall (λ e,
            (∃ n, 1 ≤ n ∧ Nlp.quantity e = of_Z n)
            ∧ (Nlp.quantity e = S754_infinity false
               ∨ ∃ m ex k, Nlp.quantity e = S754_finite false m ex ∧ 1 ≤ k
                           ∧ Zpos m * 2 ^ Z.max 0 ex
                             = k * 2 ^ Z.max 0 (- ex)))
         (Nlp.processTextWithNLP "2 burgers and fries").
Proof.
  apply Forall_forall. intros e He.
  exact (cart_quantities_are_positive "2 burgers and fries" e He).
Defined.

Lemma quantity_in_front_is_read_witness :
  {| Nlp.item := "burger"; Nlp.quantity := of_Z 2 |}
  ∈ Nlp.processTextWithNLP "I want 2 Burgers please".
Proof.
  refine (quantity_in_front_is_read "burger" "I want " "2" " " "Burger"
            "s please" _ _ _ _ _ _ _).
  - apply list_elem_of_here.
  - intros H%mentions_regexp_match. vm_compute in H.
    destruct H as [x H]. discriminate H.
  - reflexivity.
  - discriminate.
  - reflexivity.
  - reflexivity.
  - reflexivity.
Defined.

Lemma quantity_defaults_to_one_witness :
  Forall (λ e, Nlp.quantity e = of_Z 1)
         (Nlp.processTextWithNLP "a Coke and fries").
Proof.
  apply Forall_forall. intros e He.
  apply (quantity_defaults_to_one "a Coke and fries" e); [|exact He].
  apply digit_free_check. reflexivity.
Defined.

Lemma checked_out_order_is_discarded_witness :
  remote_writes
    (confirm "t1"
       (handleCheckoutAndGoToBill Sample.rate_5_percent
          (Sample.state Sample.two_burgers None false)).1).2
  = []
  ∧ orderItems
      (confirm "t1"
         (handleCheckoutAndGoToBill Sample.rate_5_percent
            (Sample.state Sample.two_burgers None false)).1).1
    = Sample.two_burgers
  ∧ handleStartNewOrderFromFinalConfirmation
      (confirm "t1"
         (handleCheckoutAndGoToBill Sample.rate_5_percent
            (Sample.state Sample.two_burgers None false)).1).1
    = initialState.
Proof.
  apply (checked_out_order_is_discarded Sample.rate_5_percent "t1"
           (Sample.state Sample.two_burgers None false)).
  - reflexivity.
  - discriminate.
Defined.
